(** * The pyrad training orchestrator ([pyrad/engine/trainer.py])

  A shallow embedding of the [Trainer] class: its constructor, [setup],
  the step loop [train], [train_iteration], the evaluation runner, the
  viewer bridge and the checkpoint helpers, followed by the properties of
  the orchestrator that the design document states.

  The trainer drives a number of collaborators it does not define (the
  scene graph, the optimizer collection, the dataloaders, the metric
  writer, the remote viewer).  They are kept opaque: each call on a
  collaborator is recorded in a chronological call log, and whatever a
  collaborator answers may depend on the whole log so far, which covers
  any internal state it may have.  Wall-clock timers ([TimeWriter],
  [profiler.time_function]) measure real time and are left out; the
  throughput scalar they feed is logged as a call without its value.

  The disk on which the checkpoints live is modelled: paths are resolved
  name by name from the root or the working directory, [os.makedirs]
  makes the missing directories above its argument, and both it and
  [torch.save] fail where the file system makes them fail (an empty path,
  a file where a directory is needed, a directory where the file is to
  go). *)

From stdpp Require Import base gmap strings list pretty sorting.
From Stdlib Require Import ZArith Lia Ascii.

Open Scope Z_scope.

(** ** Python runtime *)

Module Py.

(** The exceptions the trainer itself can raise, and [External] for the
    ones that come out of a collaborator, named by their class. *)
Inductive exn : Type :=
| AssertionError (msg : string)
| KeyError (key : string)
| ZeroDivisionError
| StopIteration
| TypeError
| AttributeError
| External (cls : string).


Inductive result (A : Type) : Type :=
| Ok (a : A)
| Raise (e : exn).
Arguments Ok {A} a.
Arguments Raise {A} e.

Definition is_ok {A} (r : result A) : bool :=
  match r with Ok _ => true | Raise _ => false end.

#[global] Instance exn_eq_dec : EqDecision exn.
Proof. solve_decision. Defined.

(** Truthiness of an [Optional[int]]: [None] and [0] are falsy. *)
Definition truthy_int (o : option Z) : bool :=
  match o with
  | Some n => negb (n =? 0)
  | None => false
  end.

(** Truthiness of an [Optional[str]]: [None] and the empty string are falsy. *)
Definition truthy_str (o : option string) : bool :=
  match o with
  | Some EmptyString => false
  | Some _ => true
  | None => false
  end.

(** [a % b] on integers: floor modulo, the sign follows the divisor, and
    a zero divisor raises. *)
Definition mod_ (a b : Z) : result Z :=
  if b =? 0 then Raise ZeroDivisionError else Ok (a `mod` b).

(** [range(a, b)], produced the way the iterator does: hand out [a] while
    it is below [b], then advance.  The fuel is the number of elements
    left. *)
Fixpoint range_from (fuel : nat) (a b : Z) : list Z :=
  match fuel with
  | O => []
  | S fuel' => if a <? b then a :: range_from fuel' (a + 1) b else []
  end.

Definition range (a b : Z) : list Z := range_from (Z.to_nat (b - a)) a b.

(** [str(n)] for an integer. *)
Definition str (n : Z) : string := pretty n.

Fixpoint zeros (k : nat) : string :=
  match k with
  | O => EmptyString
  | S k' => String "0"%char (zeros k')
  end.

(** [f"{n:09d}"]: decimal, zero-filled to nine characters, with the sign
    (when there is one) counted in the width and put before the zeros. *)
Definition format_09d (n : Z) : string :=
  let digits := pretty (Z.abs n) in
  let sign := if n <? 0 then "-" else EmptyString in
  sign +:+ zeros (9 - String.length sign - String.length digits)%nat +:+ digits.

Definition ends_with_slash (s : string) : bool :=
  match String.rev s with
  | String c _ => bool_decide (c = "/"%char)
  | EmptyString => false
  end.

Definition starts_with_slash (s : string) : bool :=
  match s with
  | String c _ => bool_decide (c = "/"%char)
  | EmptyString => false
  end.

(** [os.path.join(a, b)] on a POSIX system. *)
Definition os_path_join (a b : string) : string :=
  if starts_with_slash b then b
  else if bool_decide (a = EmptyString) || ends_with_slash a then a +:+ b
  else a +:+ "/" +:+ b.

Definition is_slash (c : ascii) : bool := bool_decide (c = "/"%char).

Fixpoint has_slash (s : string) : bool :=
  match s with
  | EmptyString => false
  | String c s' => is_slash c || has_slash s'
  end.

(** [s.rstrip("/")]. *)
Fixpoint rstrip_slash (s : string) : string :=
  match s with
  | EmptyString => EmptyString
  | String c s' =>
      match rstrip_slash s' with
      | EmptyString => if is_slash c then EmptyString else String c EmptyString
      | stripped => String c stripped
      end
  end.

(** [s.split("/")]: the pieces between the slashes, empty ones included. *)
Fixpoint split_slash (s : string) : list string :=
  match s with
  | EmptyString => [EmptyString]
  | String c s' =>
      if is_slash c then EmptyString :: split_slash s'
      else match split_slash s' with
           | piece :: pieces => String c piece :: pieces
           | [] => [String c EmptyString]
           end
  end.

(** [(p[:i], p[i:])] for [i = p.rfind("/") + 1]. *)
Fixpoint cut_after_last_slash (p : string) : string * string :=
  match p with
  | EmptyString => (EmptyString, EmptyString)
  | String c p' =>
      match cut_after_last_slash p' with
      | (EmptyString, tail) =>
          if is_slash c then (String c EmptyString, tail) else (EmptyString, String c tail)
      | (head, tail) => (String c head, tail)
      end
  end.

(** [os.path.split(p)] on a POSIX system: the head loses its trailing
    slashes unless it consists of slashes only. *)
Definition os_path_split (p : string) : string * string :=
  let '(head, tail) := cut_after_last_slash p in
  (match rstrip_slash head with
   | EmptyString => head
   | stripped => stripped
   end, tail).

End Py.
Export Py.

(** ** Configuration *)

Record ResumeTrainConfig := {
  load_dir : option string;
  load_step : Z
}.

Record TrainerConfig := {
  model_dir : string;
  max_num_iterations : Z;
  steps_per_save : option Z;
  steps_per_test : Z;
  resume_train : ResumeTrainConfig
}.

Record LoggingConfig := {
  steps_per_log : Z
}.

Record ViewerConfig := {
  enable : bool;
  zmq_url : string;
  steps_per_render_image : option Z
}.

Record Config := {
  trainer : TrainerConfig;
  logging : LoggingConfig;
  viewer : ViewerConfig
}.

(** ** Collaborators *)

(** The values that only pass through the trainer. *)
Class Data := {
  RayIndices : Type;
  Batch : Type;
  RayBundle : Type;
  Outputs : Type;
  Tensor : Type;
  Psnr : Type;
  StateDict : Type;
  DatasetInputs : Type;
  Callback : Type
}.

(** A location on the disk: the names from the root down. *)
Abbreviation location := (list string).

Section Model.

Context {D : Data}.

Abbreviation LossDict := (gmap string Tensor).

(** What [torch.save] writes and [torch.load] reads back. *)
Record Checkpoint := {
  ck_step : Z;
  ck_model : StateDict;
  ck_optimizers : gmap string StateDict
}.

(** The call log: the methods of the trainer as they are entered, and the
    calls the trainer makes on its collaborators, with their arguments. *)
Inductive event : Type :=
(* Trainer methods *)
| Call_draw_scene_in_viewer
| Call_train_iteration (step : Z)
| Call_save_checkpoint (output_dir : string) (step : Z)
| Call_render_image_in_viewer
| Call_eval_with_dataloader (step : Z)
| Call_test_image (bundle : RayBundle) (step : Z)
| Call_write_out_storage (step : Z)
| Call_load_checkpoint
(* writer / profiler *)
| setup_event_writers (max_iter : Z)
| setup_profiler
| put_scalar (step : Z)
| put_dict (loss_dict : LossDict) (step : Z)
| write_out_storage
(* viewer *)
| ViewerWindow (url : string)
| vis_delete
| vis_get_object
| vis_set_image (outputs : Outputs)
(* data *)
| setup_dataset_train (device : string)
| setup_dataset_eval (test_mode : bool) (device : string)
| iter_dataloader
| next_batch
(* graph *)
| setup_graph (device : string)
| register_callbacks
| forward (ray_indices : RayIndices) (batch : Batch)
| backward (loss : Tensor)
| after_step (cb : Callback) (step : Z)
| graph_eval
| graph_train
| get_outputs_for_camera_ray_bundle (bundle : RayBundle)
| log_test_image_outputs (image_idx : Z) (step : Z) (batch : Batch) (outputs : Outputs)
| state_dict (unwrap_module : bool)
| load_graph (loaded_state : Checkpoint)
| DDP (rank : Z)
| dist_barrier (rank : Z)
(* optimizers *)
| get_param_groups
| setup_optimizers
| zero_grad_all
| optimizer_step_all
| scheduler_step_all (step : Z)
| optimizer_state_dicts
| load_optimizers (loaded_state : Checkpoint)
(* file system *)
| makedirs (dir : string)
| torch_save (path : string)
| torch_load (path : string).

Abbreviation log := (list event).

(** What the collaborators answer.  Every answer is a function of the call
    log at the time of the call. *)
Class Collaborators := {
  (** [setup_dataset_train(config.data, device)]: the dataset inputs. *)
  dataset_train : log -> string -> DatasetInputs;
  (** [setup_dataset_eval(config.data, test_mode, device)]: the evaluation
      reader, finite and restartable, as the pairs it yields. *)
  dataset_eval : log -> bool -> string -> list (RayBundle * Batch);
  (** [next(iter_dataloader_train)]; [None] when the iterator is exhausted. *)
  next_ : log -> option (RayIndices * Batch);
  (** [graph.forward(ray_indices, batch=batch)]. *)
  forward_ : log -> RayIndices -> Batch -> result (Outputs * LossDict);
  (** [loss.backward()]. *)
  backward_ : log -> Tensor -> result unit;
  (** The callbacks [graph.register_callbacks()] installs. *)
  callbacks_ : log -> list Callback;
  (** [int(camera_ray_bundle.camera_indices[0, 0])]. *)
  camera_index_ : RayBundle -> result Z;
  (** [graph.get_outputs_for_camera_ray_bundle(bundle)]. *)
  get_outputs_ : log -> RayBundle -> result Outputs;
  (** [graph.log_test_image_outputs(image_idx, step, batch, outputs)]. *)
  log_test_image_ : log -> Z -> Z -> Batch -> Outputs -> result Psnr;
  (** [graph.state_dict()] and the optimizers' [state_dict()]s. *)
  state_dict_ : log -> StateDict;
  optimizer_state_dicts_ : log -> gmap string StateDict;
  (** The [training] flag of a module that has just been built, by
      [setup_graph] or by [DistributedDataParallel]. *)
  module_training_ : log -> bool;
  (** What [torch.save] raises when it cannot open its path for writing;
      the class of the exception depends on the version of the library. *)
  torch_save_error_ : log -> exn;
  (** The body of [draw_scene_in_viewer]. *)
  draw_scene_ : log -> result unit;
  (** The viewer's camera, decoded into a ray bundle (the first half of
      [render_image_in_viewer]). *)
  viewer_camera_ : log -> result RayBundle;
  (** Picking the image out of the outputs and sending it to the viewer
      (the second half of [render_image_in_viewer]). *)
  viewer_set_image_ : log -> Outputs -> result unit;
  (** Modelled from the spec: the [check_main_thread] decorator of
      [pyrad.utils.decorators] is not among the sources; the design
      restricts checkpoint writes to one designated coordinator process,
      so the decorated body runs only where this flag holds. *)
  is_main_process : bool
}.

Context {C : Collaborators}.

(** ** State *)

(** [self.graph]: the module's [training] flag, whether it has been wrapped
    for distributed training, and its [callbacks] attribute (an empty list
    stands for [None] too: [if self.graph.callbacks] skips both). *)
Record Graph := {
  training : bool;
  wrapped : bool;
  callbacks : list Callback
}.

(** The attributes of a [Trainer]. *)
Record Trainer := {
  config : Config;
  local_rank : Z;
  world_size : Z;
  device : string;
  dataset_inputs_train : option DatasetInputs;
  dataloader_train : option unit;
  dataloader_eval : option (list (RayBundle * Batch));
  graph : option Graph;
  optimizers : option unit;
  start_step : Z;
  vis : option unit
}.

(** The disk, as far as the trainer uses it: a POSIX file system that holds
    directories and checkpoint files, without symbolic links and with every
    directory open to the process.  A location is the list of the names
    from the root down, [[]] is the root, and relative paths start at the
    working directory. *)
Record FileSystem := {
  cwd : location;
  dirs : gset location;
  files : gmap location Checkpoint
}.

Record State := {
  self : Trainer;
  fs : FileSystem;
  trace : log
}.

Definition set_self (f : Trainer -> Trainer) (s : State) : State :=
  {| self := f (self s); fs := fs s; trace := trace s |}.

Definition set_fs (f : FileSystem -> FileSystem) (s : State) : State :=
  {| self := self s; fs := f (fs s); trace := trace s |}.

Definition with_dir (l : location) (f : FileSystem) : FileSystem :=
  {| cwd := cwd f; dirs := {[l]} ∪ dirs f; files := files f |}.

Definition with_file (l : location) (ck : Checkpoint) (f : FileSystem) : FileSystem :=
  {| cwd := cwd f; dirs := dirs f; files := <[l := ck]> (files f) |}.

Definition add_event (e : event) (s : State) : State :=
  {| self := self s; fs := fs s; trace := trace s ++ [e] |}.

Definition with_graph (g : option Graph) (t : Trainer) : Trainer :=
  {| config := config t; local_rank := local_rank t; world_size := world_size t;
     device := device t; dataset_inputs_train := dataset_inputs_train t;
     dataloader_train := dataloader_train t; dataloader_eval := dataloader_eval t;
     graph := g; optimizers := optimizers t; start_step := start_step t;
     vis := vis t |}.

Definition with_start_step (n : Z) (t : Trainer) : Trainer :=
  {| config := config t; local_rank := local_rank t; world_size := world_size t;
     device := device t; dataset_inputs_train := dataset_inputs_train t;
     dataloader_train := dataloader_train t; dataloader_eval := dataloader_eval t;
     graph := graph t; optimizers := optimizers t; start_step := n;
     vis := vis t |}.

Definition with_datasets (di : option DatasetInputs) (dt : option unit)
    (de : option (list (RayBundle * Batch))) (t : Trainer) : Trainer :=
  {| config := config t; local_rank := local_rank t; world_size := world_size t;
     device := device t; dataset_inputs_train := di;
     dataloader_train := dt; dataloader_eval := de;
     graph := graph t; optimizers := optimizers t; start_step := start_step t;
     vis := vis t |}.

Definition with_optimizers (o : option unit) (t : Trainer) : Trainer :=
  {| config := config t; local_rank := local_rank t; world_size := world_size t;
     device := device t; dataset_inputs_train := dataset_inputs_train t;
     dataloader_train := dataloader_train t; dataloader_eval := dataloader_eval t;
     graph := graph t; optimizers := o; start_step := start_step t;
     vis := vis t |}.

(** ** The monad of trainer code: state, exceptions and the call log *)

Definition M (A : Type) : Type := State -> result A * State.

Definition ret {A} (a : A) : M A := fun s => (Ok a, s).

Definition bind {A B} (m : M A) (k : A -> M B) : M B :=
  fun s => match m s with
           | (Ok a, s') => k a s'
           | (Raise e, s') => (Raise e, s')
           end.

Definition raise {A} (e : exn) : M A := fun s => (Raise e, s).

Definition lift {A} (r : result A) : M A := fun s => (r, s).

Definition get_self : M Trainer := fun s => (Ok (self s), s).

Definition modify_self (f : Trainer -> Trainer) : M unit :=
  fun s => (Ok tt, set_self f s).

Definition emit (e : event) : M unit := fun s => (Ok tt, add_event e s).

(** A call on a collaborator: it is logged, and answered from the log as
    it stood when the call was made. *)
Definition call {A} (e : event) (answer : log -> result A) : M A :=
  fun s => (answer (trace s), add_event e s).

Notation "x <- m ; k" := (bind m (fun x => k))
  (at level 20, m at level 100, k at level 200, only parsing).
Notation "' pat <- m ; k" := (bind m (fun x => match x with pat => k end))
  (at level 20, pat pattern, m at level 100, k at level 200, only parsing).
Notation "m >> k" := (bind m (fun _ => k))
  (at level 100, k at level 200, right associativity, only parsing).

Definition when (b : bool) (m : M unit) : M unit := if b then m else ret tt.

(** Python's short-circuit [a and b] and [a or b] on conditions. *)
Definition and_ (a b : M bool) : M bool := x <- a ; if x then b else ret false.
Definition or_ (a b : M bool) : M bool := x <- a ; if x then ret true else b.

(** [step % n == 0]. *)
Definition divides (step n : Z) : M bool :=
  r <- lift (mod_ step n) ; ret (r =? 0).

(** [step % n == 0] for an [Optional[int]] cadence; [None] is no integer. *)
Definition divides_opt (step : Z) (n : option Z) : M bool :=
  match n with
  | Some n' => divides step n'
  | None => raise TypeError
  end.

(** [for x in xs: body(x)]. *)
Fixpoint for_ {A} (xs : list A) (body : A -> M unit) : M unit :=
  match xs with
  | [] => ret tt
  | x :: xs' => body x >> for_ xs' body
  end.

(** Attribute access on [self.graph], [self.optimizers] and the readers:
    they are [None] until [setup] has run. *)
Definition get_graph : M Graph :=
  t <- get_self ;
  match graph t with
  | Some g => ret g
  | None => raise AttributeError
  end.

Definition get_optimizers : M unit :=
  t <- get_self ;
  match optimizers t with
  | Some o => ret o
  | None => raise AttributeError
  end.

Definition set_training (b : bool) : M unit :=
  g <- get_graph ;
  modify_self (with_graph (Some {| training := b; wrapped := wrapped g;
                                   callbacks := callbacks g |})).

(** [self.graph.eval()] and [self.graph.train()]. *)
Definition graph_eval_ : M unit := set_training false >> emit graph_eval.
Definition graph_train_ : M unit := set_training true >> emit graph_train.

(** ** [Trainer._write_out_storage] *)

Definition _write_out_storage (step : Z) : M unit :=
  emit (Call_write_out_storage step) >>
  t <- get_self ;
  due <- or_ (divides step (steps_per_log (logging (config t))))
        (or_ (and_ (ret (truthy_int (steps_per_save (trainer (config t)))))
                   (divides_opt step (steps_per_save (trainer (config t)))))
        (or_ (divides step (steps_per_test (trainer (config t))))
             (ret (step =? max_num_iterations (trainer (config t)))))) ;
  when due (emit write_out_storage).

(** ** The disk *)

(** *** Paths

    The kernel resolves a path name by name: every name but the last must
    lead into a directory, an empty name and [.] stay where they are, and
    [..] goes one up (the root is its own parent). *)

Definition is_dir (f : FileSystem) (l : location) : bool :=
  bool_decide (l = []) || bool_decide (l ∈ dirs f).

Definition is_file (f : FileSystem) (l : location) : bool :=
  negb (is_dir f l) && bool_decide (is_Some (files f !! l)).

Definition present (f : FileSystem) (l : location) : bool :=
  is_dir f l || is_file f l.

Definition enter (cur : location) (name : string) : location :=
  if bool_decide (name = EmptyString) || bool_decide (name = ".") then cur
  else if bool_decide (name = "..") then removelast cur
  else cur ++ [name].

Fixpoint walk (f : FileSystem) (cur : location) (names : list string) : result location :=
  match names with
  | [] => Ok cur
  | name :: rest =>
      if is_dir f cur then walk f (enter cur name) rest
      else if is_file f cur then Raise (External "NotADirectoryError")
      else Raise (External "FileNotFoundError")
  end.

(** Where the resolution of [p] starts. *)
Definition origin (f : FileSystem) (p : string) : location :=
  if starts_with_slash p then [] else cwd f.

(** The location that [p] names; there need not be anything at it. *)
Definition resolve (f : FileSystem) (p : string) : result location :=
  if bool_decide (p = EmptyString) then Raise (External "FileNotFoundError")
  else walk f (origin f p) (split_slash p).

(** [os.path.exists(p)]: a path that cannot be resolved does not exist. *)
Definition exists_on (f : FileSystem) (p : string) : bool :=
  match resolve f p with
  | Ok l => present f l
  | Raise _ => false
  end.

(** The checkpoint file that [p] names, if it names one. *)
Definition stored (f : FileSystem) (p : string) : option Checkpoint :=
  match resolve f p with
  | Ok l => if is_dir f l then None else files f !! l
  | Raise _ => None
  end.

(** Where a file opened for writing under [p] goes: [p] must resolve, and
    not to a directory. *)
Definition writable_at (f : FileSystem) (p : string) : option location :=
  match resolve f p with
  | Ok l => if is_dir f l then None else Some l
  | Raise _ => None
  end.

(** *** Directories *)

(** [os.mkdir(p)]: trailing slashes do not count, the parent must be a
    directory and there must be nothing at [p] yet. *)
Definition os_mkdir (p : string) (f : FileSystem) : result unit * FileSystem :=
  if bool_decide (p = EmptyString) then (Raise (External "FileNotFoundError"), f)
  else match rstrip_slash p with
       | EmptyString => (Raise (External "FileExistsError"), f)
       | stripped =>
           match walk f (origin f p) (split_slash stripped) with
           | Ok l => if present f l then (Raise (External "FileExistsError"), f)
                     else (Ok tt, with_dir l f)
           | Raise e => (Raise e, f)
           end
       end.

(** [os.makedirs(name)], after the library: the missing directories above
    [name] are made first, from the top down, and [name] last.  [head] is
    shorter than [name] at every recursive call, so [fuel] does not run out
    when it starts at the length of [name]. *)
Fixpoint os_makedirs (fuel : nat) (name : string) (f : FileSystem)
    : result unit * FileSystem :=
  let '(head0, tail0) := os_path_split name in
  let '(head, tail) := if bool_decide (tail0 = EmptyString)
                       then os_path_split head0 else (head0, tail0) in
  if negb (bool_decide (head = EmptyString)) && negb (bool_decide (tail = EmptyString))
     && negb (exists_on f head)
  then
    match fuel with
    | O => (Raise (External "RecursionError"), f)
    | S fuel' =>
        let '(r, f1) := os_makedirs fuel' head f in
        let made := if bool_decide (tail = ".") then (Ok tt, f1) else os_mkdir name f1 in
        match r with
        | Ok _ => made
        | Raise e => if bool_decide (e = External "FileExistsError") then made
                     else (Raise e, f1)
        end
    end
  else os_mkdir name f.

(** ** [Trainer._save_checkpoint] *)

Definition path_exists (p : string) : M bool :=
  fun s => (Ok (exists_on (fs s) p), s).

Definition ckpt_name (step : Z) : string := "step-" +:+ format_09d step +:+ ".ckpt".

(** [torch.save(ck, p)]. *)
Definition write_file (p : string) (ck : Checkpoint) : M unit :=
  fun s => match writable_at (fs s) p with
           | Some l => (Ok tt, add_event (torch_save p) (set_fs (with_file l ck) s))
           | None => (Raise (torch_save_error_ (trace s)), add_event (torch_save p) s)
           end.

(** [os.makedirs(p)]. *)
Definition make_dir (p : string) : M unit :=
  fun s => let '(r, f) := os_makedirs (String.length p) p (fs s) in
           (r, add_event (makedirs p) (set_fs (fun _ => f) s)).

Definition _save_checkpoint (output_dir : string) (step : Z) : M unit :=
  emit (Call_save_checkpoint output_dir step) >>
  when is_main_process (
    ex <- path_exists output_dir ;
    when (negb ex) (make_dir output_dir) >>
    let ckpt_path := os_path_join output_dir (ckpt_name step) in
    g <- get_graph ;
    model <- call (state_dict (wrapped g)) (fun h => Ok (state_dict_ h)) ;
    get_optimizers >>
    opts <- call optimizer_state_dicts (fun h => Ok (optimizer_state_dicts_ h)) ;
    write_file ckpt_path {| ck_step := step; ck_model := model; ck_optimizers := opts |}).

(** ** [Trainer._load_checkpoint] *)

(** [torch.load(p)], for a path that exists. *)
Definition read_file (p : string) : M Checkpoint :=
  fun s => (match stored (fs s) p with
            | Some ck => Ok ck
            | None => Raise (External "IsADirectoryError")
            end, add_event (torch_load p) s).

Definition _load_checkpoint : M unit :=
  emit Call_load_checkpoint >>
  t <- get_self ;
  let load_config := resume_train (trainer (config t)) in
  match load_dir load_config with
  | None => raise TypeError
  | Some dir =>
      let load_path := os_path_join dir (ckpt_name (load_step load_config)) in
      ex <- path_exists load_path ;
      if negb ex then raise (AssertionError ("Checkpoint " +:+ load_path +:+ " does not exist"))
      else
        loaded_state <- read_file load_path ;
        modify_self (with_start_step (ck_step loaded_state + 1)) >>
        get_graph >>
        emit (load_graph loaded_state) >>
        get_optimizers >>
        emit (load_optimizers loaded_state)
  end.

(** ** [Trainer.train_iteration] *)

Definition train_iteration (ray_indices : RayIndices) (batch : Batch) (step : Z)
    : M LossDict :=
  emit (Call_train_iteration step) >>
  get_graph >>
  ' (_, loss_dict) <- call (forward ray_indices batch)
                           (fun h => forward_ h ray_indices batch) ;
  loss <- match loss_dict !! "aggregated_loss" with
          | Some l => ret l
          | None => raise (KeyError "aggregated_loss")
          end ;
  get_optimizers >>
  emit zero_grad_all >>
  call (backward loss) (fun h => backward_ h loss) >>
  emit optimizer_step_all >>
  emit (scheduler_step_all step) >>
  g <- get_graph ;
  for_ (callbacks g) (fun func_ => emit (after_step func_ step)) >>
  ret loss_dict.

(** ** [Trainer.test_image] and [Trainer.eval_with_dataloader] *)

Definition test_image (camera_ray_bundle : RayBundle) (batch : Batch) (step : Z)
    : M Psnr :=
  emit (Call_test_image camera_ray_bundle step) >>
  graph_eval_ >>
  image_idx <- lift (camera_index_ camera_ray_bundle) ;
  outputs <- call (get_outputs_for_camera_ray_bundle camera_ray_bundle)
                  (fun h => get_outputs_ h camera_ray_bundle) ;
  psnr <- call (log_test_image_outputs image_idx step batch outputs)
               (fun h => log_test_image_ h image_idx step batch outputs) ;
  graph_train_ >>
  ret psnr.

Definition eval_with_dataloader (dataloader : option (list (RayBundle * Batch)))
    (step : Z) : M unit :=
  emit (Call_eval_with_dataloader step) >>
  match dataloader with
  | None => raise TypeError
  | Some items =>
      for_ items (fun item => test_image (fst item) (snd item) step >> ret tt)
  end.

(** ** The viewer bridge *)

Definition draw_scene_in_viewer : M unit :=
  call Call_draw_scene_in_viewer draw_scene_.

Definition render_image_in_viewer : M Outputs :=
  emit Call_render_image_in_viewer >>
  t <- get_self ;
  match vis t with
  | None => raise TypeError
  | Some _ =>
      camera_ray_bundle <- call vis_get_object viewer_camera_ ;
      graph_eval_ >>
      outputs <- call (get_outputs_for_camera_ray_bundle camera_ray_bundle)
                      (fun h => get_outputs_ h camera_ray_bundle) ;
      graph_train_ >>
      call (vis_set_image outputs) (fun h => viewer_set_image_ h outputs) >>
      ret outputs
  end.

(** ** [Trainer.__init__] *)

Definition __init__ (cfg : Config) (rank size : Z) (fs0 : FileSystem) : State :=
  let connect := if enable (viewer cfg)
                 then [ViewerWindow (zmq_url (viewer cfg)); vis_delete] else [] in
  {| self := {| config := cfg;
                local_rank := rank;
                world_size := size;
                device := if size =? 0 then "cpu" else "cuda:" +:+ str rank;
                dataset_inputs_train := None;
                dataloader_train := None;
                dataloader_eval := None;
                graph := None;
                optimizers := None;
                start_step := 0;
                vis := if enable (viewer cfg) then Some tt else None |};
     fs := fs0;
     trace := [setup_event_writers (max_num_iterations (trainer cfg)); setup_profiler]
              ++ connect |}.

(** ** [Trainer.setup]

    The wrapper that [DistributedDataParallel] puts around the graph is a
    module of its own: it has [forward], [eval], [train], [state_dict] and
    the wrapped graph as [module], and no [register_callbacks]. *)

Definition setup (test_mode : bool) : M unit :=
  t <- get_self ;
  inputs <- call (setup_dataset_train (device t))
                 (fun h => Ok (dataset_train h (device t))) ;
  modify_self (fun t => with_datasets (Some inputs) (Some tt) (dataloader_eval t) t) >>
  readers <- call (setup_dataset_eval test_mode (device t))
                  (fun h => Ok (dataset_eval h test_mode (device t))) ;
  modify_self (fun t => with_datasets (dataset_inputs_train t) (dataloader_train t)
                                      (Some readers) t) >>
  training_now <- call (setup_graph (device t)) (fun h => Ok (module_training_ h)) ;
  modify_self (with_graph (Some {| training := training_now; wrapped := false;
                                   callbacks := [] |})) >>
  get_graph >>
  emit get_param_groups >>
  emit setup_optimizers >>
  modify_self (with_optimizers (Some tt)) >>
  when (truthy_str (load_dir (resume_train (trainer (config t))))) _load_checkpoint >>
  when (world_size t >? 1) (
    g <- get_graph ;
    training_now <- call (DDP (local_rank t)) (fun h => Ok (module_training_ h)) ;
    modify_self (with_graph (Some {| training := training_now; wrapped := true;
                                     callbacks := callbacks g |})) >>
    emit (dist_barrier (local_rank t))) >>
  g <- get_graph ;
  if wrapped g then raise AttributeError
  else
    cbs <- call register_callbacks (fun h => Ok (callbacks_ h)) ;
    modify_self (with_graph (Some {| training := training g; wrapped := wrapped g;
                                     callbacks := cbs |})).

(** What the last lines of [setup] come to: nothing is wrapped for one
    process, and the wrapper made for more has no [register_callbacks]. *)
Definition setup_end (t : Trainer) : result unit :=
  if world_size t >? 1 then Raise AttributeError else Ok tt.

(** ** [Trainer.train] *)

Definition next_or_stop (h : log) : result (RayIndices * Batch) :=
  match next_ h with
  | Some item => Ok item
  | None => Raise StopIteration
  end.

(** The body of the step loop. *)
Definition train_step (step : Z) : M unit :=
  ' (ray_indices, batch) <- call next_batch next_or_stop ;
  loss_dict <- train_iteration ray_indices batch step ;
  emit (put_scalar step) >>
  t <- get_self ;
  log_now <- and_ (ret (negb (step =? 0)))
                  (divides step (steps_per_log (logging (config t)))) ;
  when log_now (emit (put_dict loss_dict step)) >>
  save_now <- and_ (ret (negb (step =? 0)))
             (and_ (ret (truthy_int (steps_per_save (trainer (config t)))))
                   (divides_opt step (steps_per_save (trainer (config t))))) ;
  when save_now (_save_checkpoint (model_dir (trainer (config t))) step) >>
  render_now <- and_ (ret (bool_decide (is_Some (vis t))))
               (and_ (ret (negb (step =? 0)))
               (and_ (ret (truthy_int (steps_per_render_image (viewer (config t)))))
                     (divides_opt step (steps_per_render_image (viewer (config t)))))) ;
  when render_now (render_image_in_viewer >> ret tt) >>
  test_now <- divides step (steps_per_test (trainer (config t))) ;
  when test_now (t' <- get_self ; eval_with_dataloader (dataloader_eval t') step) >>
  _write_out_storage step.

Definition train : M unit :=
  t <- get_self ;
  when (bool_decide (is_Some (vis t))) draw_scene_in_viewer >>
  let num_iterations := max_num_iterations (trainer (config t)) in
  match dataloader_train t with
  | None => raise TypeError
  | Some _ => emit iter_dataloader
  end >>
  t' <- get_self ;
  for_ (range (start_step t') (start_step t' + num_iterations)) train_step >>
  _write_out_storage num_iterations.

(** ** The cadence rules as the design document words them (section 4.2) *)

Definition log_due (cfg : Config) (step : Z) : bool :=
  negb (step =? 0) && (step `mod` steps_per_log (logging cfg) =? 0).

(** A cadence of 0 is no cadence: [step `mod` 0] is [step], which is not 0
    on the steps past the first. *)
Definition save_due (cfg : Config) (step : Z) : bool :=
  negb (step =? 0) &&
  match steps_per_save (trainer cfg) with
  | Some n => step `mod` n =? 0
  | None => false
  end.

Definition render_due (cfg : Config) (viewer_active : bool) (step : Z) : bool :=
  viewer_active && negb (step =? 0) &&
  match steps_per_render_image (viewer cfg) with
  | Some n => step `mod` n =? 0
  | None => false
  end.

Definition test_due (cfg : Config) (step : Z) : bool :=
  step `mod` steps_per_test (trainer cfg) =? 0.

Definition flush_due (cfg : Config) (step : Z) : bool :=
  log_due cfg step || save_due cfg step || test_due cfg step
  || (step =? max_num_iterations (trainer cfg)).

(** ** Reading the call log *)

(** The actions of the orchestrator that the design document talks about,
    as they show in the call log. *)
Inductive action : Type :=
| Draw
| Fetch
| Iterate (step : Z)
| Log (step : Z)
| Save (step : Z)
| Render
| Evaluate (step : Z)
| FlushCall (step : Z)
| Flush.

Definition action_of (e : event) : option action :=
  match e with
  | Call_draw_scene_in_viewer => Some Draw
  | next_batch => Some Fetch
  | Call_train_iteration step => Some (Iterate step)
  | put_dict _ step => Some (Log step)
  | Call_save_checkpoint _ step => Some (Save step)
  | Call_render_image_in_viewer => Some Render
  | Call_eval_with_dataloader step => Some (Evaluate step)
  | Call_write_out_storage step => Some (FlushCall step)
  | write_out_storage => Some Flush
  | _ => None
  end.

Definition actions (h : log) : list action := omap action_of h.

(** The fetches and training iterations among some actions. *)
Definition is_fetch_or_iterate (a : action) : bool :=
  match a with
  | Fetch | Iterate _ => true
  | _ => false
  end.

Definition fetches_and_iterations (acts : list action) : list action :=
  List.filter is_fetch_or_iterate acts.

(** The steps on which a training iteration ran, in the order they ran. *)
Definition iterated_steps (acts : list action) : list Z :=
  omap (fun a => match a with Iterate step => Some step | _ => None end) acts.

(** The steps with which held-out evaluation was run. *)
Definition evaluated_steps (acts : list action) : list Z :=
  omap (fun a => match a with Evaluate step => Some step | _ => None end) acts.

(** The actions that the cadences of the configuration file decide:
    logging, saving, evaluating and flushing. *)
Definition is_cadence_action (a : action) : bool :=
  match a with
  | Log _ | Save _ | Evaluate _ | FlushCall _ | Flush => true
  | _ => false
  end.

Definition cadence_actions (acts : list action) : list action :=
  List.filter is_cadence_action acts.

(** The calls on the optimizer collection and on the step callbacks. *)
Definition is_optimizer_call (e : event) : bool :=
  match e with
  | zero_grad_all | optimizer_step_all | scheduler_step_all _
  | load_optimizers _ | after_step _ _ => true
  | _ => false
  end.

Definition optimizer_calls (h : log) : log := List.filter is_optimizer_call h.

(** ** What the design document expects of a run *)

(** The steps [start .. start + n - 1]. *)
Definition steps (start n : Z) : list Z :=
  (fun i : nat => start + Z.of_nat i) <$> seq 0 (Z.to_nat n).

Definition due (b : bool) (a : action) : list action := if b then [a] else [].

(** What one step of the loop does, in order. *)
Definition step_actions (cfg : Config) (viewer_active : bool) (step : Z) : list action :=
  [Fetch; Iterate step]
  ++ due (log_due cfg step) (Log step)
  ++ due (save_due cfg step) (Save step)
  ++ due (render_due cfg viewer_active step) Render
  ++ due (test_due cfg step) (Evaluate step)
  ++ [FlushCall step]
  ++ due (flush_due cfg step) Flush.

(** What a whole run does, in order. *)
Definition train_actions (cfg : Config) (viewer_active : bool) (start : Z) : list action :=
  due viewer_active Draw
  ++ concat (step_actions cfg viewer_active <$> steps start (max_num_iterations (trainer cfg)))
  ++ [FlushCall (max_num_iterations (trainer cfg)); Flush].

(** ** Conditions on a run *)

(** The mode of the scene graph: [Some true] in training mode, [Some false]
    in inference mode, [None] when there is no graph yet. *)
Definition mode (s : State) : option bool := training <$> graph (self s).

(** The trainer with the mode of its graph forgotten (set to training). *)
Definition forget_mode (t : Trainer) : Trainer :=
  with_graph ((fun g => {| training := true; wrapped := wrapped g;
                           callbacks := callbacks g |}) <$> graph t) t.

(** [setup] has run: the readers, the graph and the optimizers are there. *)
Definition ready (t : Trainer) : Prop :=
  is_Some (dataloader_train t) /\ is_Some (dataloader_eval t) /\
  is_Some (graph t) /\ is_Some (optimizers t).

(** The cadences that are used as divisors are not zero. *)
Definition valid_cadences (cfg : Config) : Prop :=
  steps_per_log (logging cfg) <> 0 /\ steps_per_test (trainer cfg) <> 0.

(** No collaborator raises: the training reader always has a next batch,
    the forward pass gives a loss dictionary with an [aggregated_loss]
    entry, and backpropagation, rendering, scoring and the viewer work. *)
Record cooperative : Prop := {
  coop_next : forall h, is_Some (next_ h);
  coop_forward : forall h ri b, exists out ld l,
      forward_ h ri b = Ok (out, ld) /\ ld !! "aggregated_loss" = Some l;
  coop_backward : forall h l, backward_ h l = Ok tt;
  coop_camera_index : forall b, exists i, camera_index_ b = Ok i;
  coop_get_outputs : forall h b, exists o, get_outputs_ h b = Ok o;
  coop_log_test_image : forall h i step b o, exists p, log_test_image_ h i step b o = Ok p;
  coop_draw_scene : forall h, draw_scene_ h = Ok tt;
  coop_viewer_camera : forall h, exists b, viewer_camera_ h = Ok b;
  coop_viewer_set_image : forall h o, viewer_set_image_ h o = Ok tt
}.

(** The directory of the checkpoints is there: [dir] names a directory,
    and in it no directory has the name of a checkpoint file. *)
Definition checkpoint_dir (f : FileSystem) (dir : string) : Prop :=
  exists d, resolve f dir = Ok d /\ is_dir f d = true
            /\ forall step, is_dir f (d ++ [ckpt_name step]) = false.

(** The directory of the checkpoints is there, or it can be made: nothing
    is at [dir], and [os.makedirs(dir)] returns and leaves the directory. *)
Definition checkpoint_dir_ready (f : FileSystem) (dir : string) : Prop :=
  checkpoint_dir f dir
  \/ (exists_on f dir = false
      /\ exists f', os_makedirs (String.length dir) dir f = (Ok tt, f')
                    /\ checkpoint_dir f' dir).

(** The checkpoint of [step] can be written: when one is due at [step], on
    the process that writes the checkpoints, its directory is there or can
    be made. *)
Definition can_save (s : State) (step : Z) : Prop :=
  save_due (config (self s)) step = true -> is_main_process = true ->
  checkpoint_dir_ready (fs s) (model_dir (trainer (config (self s)))).

(** A directory of the checkpoints that was there, or could be made, at
    [s], still is at [s']. *)
Definition keeps_checkpoint_dir (s s' : State) : Prop :=
  checkpoint_dir_ready (fs s) (model_dir (trainer (config (self s)))) ->
  checkpoint_dir_ready (fs s') (model_dir (trainer (config (self s)))).

(** The checkpoint that [setup] reads, if it reads one. *)
Definition resume_path (cfg : Config) : option string :=
  if truthy_str (load_dir (resume_train (trainer cfg))) then
    (fun dir => os_path_join dir (ckpt_name (load_step (resume_train (trainer cfg)))))
      <$> load_dir (resume_train (trainer cfg))
  else None.

Definition resume_checkpoint (cfg : Config) (f : FileSystem) : option Checkpoint :=
  p ← resume_path cfg; stored f p.

(** ** Reasoning about runs *)

(** What a training iteration logs, given the loss it backpropagates and
    the callbacks of the graph. *)
Definition iteration_log (ri : RayIndices) (b : Batch) (step : Z) (loss : Tensor)
    (cbs : list Callback) : log :=
  [Call_train_iteration step; forward ri b; zero_grad_all; backward loss;
   optimizer_step_all; scheduler_step_all step]
  ++ ((fun cb => after_step cb step) <$> cbs).

(** [n and step % n == 0] for an optional cadence [n]. *)
Definition optional_cadence_due (step : Z) (n : option Z) : bool :=
  match n with
  | Some n' => negb (n' =? 0) && (step `mod` n' =? 0)
  | None => false
  end.

(** A condition that evaluates to [v] without touching the state. *)
Definition yields (m : M bool) (v : bool) : Prop := forall s, m s = (Ok v, s).



(** [m] run from [s] returns normally, with a value and a final state that
    satisfy [post]. *)
Definition returns {A} (m : M A) (s : State) (post : A -> State -> Prop) : Prop :=
  exists a s', m s = (Ok a, s') /\ post a s'.

(** Whatever the outcome, [m] leaves the attributes of the trainer alone,
    except for the mode of the graph. *)
Definition preserves {A} (m : M A) : Prop :=
  forall s, forget_mode (self (m s).2) = forget_mode (self s).

(** From [s] to [s']: the trainer is the same up to the mode of its graph,
    the actions [acts] were added to the log, and the checkpoints can still
    be written. *)
Definition advances (s : State) (acts : list action) (s' : State) : Prop :=
  forget_mode (self s') = forget_mode (self s) /\
  actions (trace s') = actions (trace s) ++ acts /\
  keeps_checkpoint_dir s s'.

(** ** [Trainer.get_aggregated_loss] *)

(** A dictionary as its items in insertion order, which is the order
    [keys()] goes through; the keys of a dictionary are distinct. *)
Abbreviation items_of V := (list (string * V)).

(** [d[k]]: the value stored under [k], a [KeyError] when there is none. *)
Fixpoint getitem {V} (d : items_of V) (k : string) : result V :=
  match d with
  | [] => Raise (KeyError k)
  | (k', v) :: d' => if bool_decide (k' = k) then Ok v else getitem d' k
  end.

(** The loop [for loss_name in loss_dict.keys(): loss_sum += loss_dict[loss_name]]. *)
Fixpoint add_losses (add : Tensor -> Tensor -> Tensor) (loss_dict : items_of Tensor)
    (names : list string) (loss_sum : Tensor) : result Tensor :=
  match names with
  | [] => Ok loss_sum
  | loss_name :: names' =>
      match getitem loss_dict loss_name with
      | Ok v => add_losses add loss_dict names' (add loss_sum v)
      | Raise e => Raise e
      end
  end.

(** [zero] is the float [0.0] the sum starts from and [add] the [+] of
    tensors. *)
Definition get_aggregated_loss (zero : Tensor) (add : Tensor -> Tensor -> Tensor)
    (loss_dict : items_of Tensor) : result Tensor :=
  add_losses add loss_dict (loss_dict.*1) zero.

(** ** More readings of the call log *)

(** The images that were tested, with the step they were tested at. *)
Definition tested (h : log) : list (RayBundle * Z) :=
  omap (fun e => match e with
                 | Call_test_image bundle step => Some (bundle, step)
                 | _ => None
                 end) h.

(** The batches that were scored against a rendering, with the step. *)
Definition scored (h : log) : list (Batch * Z) :=
  omap (fun e => match e with
                 | log_test_image_outputs _ step batch _ => Some (batch, step)
                 | _ => None
                 end) h.

(** The setup of the distributed replicas. *)
Definition is_distributed_call (e : event) : bool :=
  match e with
  | DDP _ | dist_barrier _ => true
  | _ => false
  end.

Definition distributed_calls (h : log) : log := List.filter is_distributed_call h.

(** The calls on the remote viewer. *)
Definition is_viewer_call (e : event) : bool :=
  match e with
  | Call_draw_scene_in_viewer | Call_render_image_in_viewer
  | ViewerWindow _ | vis_delete | vis_get_object | vis_set_image _ => true
  | _ => false
  end.

(** ** Reading a step back from the name of a checkpoint *)

Definition digit_of (c : ascii) : option N :=
  if bool_decide (c = "0"%char) then Some 0%N
  else if bool_decide (c = "1"%char) then Some 1%N
  else if bool_decide (c = "2"%char) then Some 2%N
  else if bool_decide (c = "3"%char) then Some 3%N
  else if bool_decide (c = "4"%char) then Some 4%N
  else if bool_decide (c = "5"%char) then Some 5%N
  else if bool_decide (c = "6"%char) then Some 6%N
  else if bool_decide (c = "7"%char) then Some 7%N
  else if bool_decide (c = "8"%char) then Some 8%N
  else if bool_decide (c = "9"%char) then Some 9%N
  else None.

(** Reads decimal digits up to the first other character. *)
Fixpoint read_digits (acc : N) (s : string) : N :=
  match s with
  | EmptyString => acc
  | String c s' =>
      match digit_of c with
      | Some d => read_digits (acc * 10 + d)%N s'
      | None => acc
      end
  end.

Definition read_int (s : string) : Z :=
  match s with
  | String c s' =>
      if bool_decide (c = "-"%char) then - Z.of_N (read_digits 0 s')
      else Z.of_N (read_digits 0 s)
  | EmptyString => 0
  end.

(** The step in a name [step-{step:09d}.ckpt]. *)
Definition step_of_ckpt_name (name : string) : Z :=
  match name with
  | String _ (String _ (String _ (String _ (String _ rest)))) => read_int rest
  | _ => 0
  end.

(** ** Runs that raise, and what a run respects *)

(** [m] run from [s] raises [e], in a final state that satisfies [post]. *)
Definition raises {A} (m : M A) (s : State) (e : exn) (post : State -> Prop) : Prop :=
  exists s', m s = (Raise e, s') /\ post s'.

(** Whatever the outcome, the final state of [m] is related to the initial
    one by [R]. *)
Definition respects {A} (R : State -> State -> Prop) (m : M A) : Prop :=
  forall s, R s (m s).2.

(** The disk is the same. *)
Definition same_disk (s s' : State) : Prop := fs s' = fs s.

(** The call log has only grown. *)
Definition log_grown (s s' : State) : Prop := exists new, trace s' = trace s ++ new.

Definition viewer_calls (h : log) : log := List.filter is_viewer_call h.

(** No call on the viewer was made. *)
Definition no_viewer_call (s s' : State) : Prop :=
  viewer_calls (trace s') = viewer_calls (trace s).

(** The attributes of the trainer are the same. *)
Definition same_trainer (s s' : State) : Prop := self s' = self s.

(** A run of [m] that starts in training mode and returns ends in training
    mode. *)
Definition keeps_training {A} (m : M A) : Prop :=
  forall s a s', m s = (Ok a, s') -> mode s = Some true -> mode s' = Some true.

End Model.

Abbreviation LossDict := (gmap string Tensor).
Abbreviation log := (list event).
Abbreviation items_of V := (list (string * V)).

(** ** Concrete collaborators and configurations, for the scenarios *)

Module Scenario.

Definition toy_data : Data := {|
  RayIndices := nat;
  Batch := nat;
  RayBundle := nat;
  Outputs := nat;
  Tensor := Z;
  Psnr := Z;
  StateDict := nat;
  DatasetInputs := unit;
  Callback := nat
|}.

#[local] Existing Instance toy_data.

(** A tiny world: batch [k] is the [k]-th fetch, the forward pass reports
    one loss under the name [loss_name], scoring a test image answers
    [scoring], and everything else works. *)
Definition toy (loss_name : string) (scoring : result Z) : Collaborators := {|
  dataset_train := fun _ _ => tt;
  dataset_eval := fun _ _ _ => [(7%nat, 70%nat)];
  next_ := fun h => Some (length h, length h);
  forward_ := fun _ _ b => Ok (b, {[ loss_name := 1 ]});
  backward_ := fun _ _ => Ok tt;
  callbacks_ := fun _ => [1%nat; 2%nat];
  camera_index_ := fun b => Ok (Z.of_nat b);
  get_outputs_ := fun _ b => Ok b;
  log_test_image_ := fun _ _ _ _ _ => scoring;
  state_dict_ := fun h => length h;
  optimizer_state_dicts_ := fun h => {[ "fields" := length h ]};
  module_training_ := fun _ => true;
  torch_save_error_ := fun _ => External "RuntimeError";
  draw_scene_ := fun _ => Ok tt;
  viewer_camera_ := fun _ => Ok 9%nat;
  viewer_set_image_ := fun _ _ => Ok tt;
  is_main_process := true
|}.

Definition healthy : Collaborators := toy "aggregated_loss" (Ok 30).
Definition unaggregated : Collaborators := toy "rgb_loss" (Ok 30).

Definition make_config (n log_every : Z) (save_every : option Z) (test_every : Z)
    (resume : option string) (resume_step : Z) : Config := {|
  trainer := {| model_dir := "outputs";
                max_num_iterations := n;
                steps_per_save := save_every;
                steps_per_test := test_every;
                resume_train := {| load_dir := resume; load_step := resume_step |} |};
  logging := {| steps_per_log := log_every |};
  viewer := {| enable := false; zmq_url := "tcp://localhost:6000";
               steps_per_render_image := None |}
|}.

(** A disk with nothing on it; the working directory is the root. *)
Definition empty_disk : FileSystem := {| cwd := []; dirs := ∅; files := ∅ |}.

(** A disk on which the directory [outputs] of the checkpoints is there. *)
Definition disk_with_outputs : FileSystem :=
  {| cwd := []; dirs := {[ ["outputs"] ]}; files := ∅ |}.

(** A trainer constructed and set up on an empty disk. *)
Definition started (C : Collaborators) (cfg : Config) : State :=
  (setup false (__init__ cfg 0 1 empty_disk)).2.

(** A trainer constructed and set up on the disk [f]. *)
Definition started_on (C : Collaborators) (cfg : Config) (f : FileSystem) : State :=
  (setup false (__init__ cfg 0 1 f)).2.

(** Three steps with a log, a save and an evaluation every second step. *)
Definition brisk : Config := make_config 3 2 (Some 2) 2 None 0.

(** The scenario of the design document. *)
Definition ten_steps : Config := make_config 10 5 None 10 None 0.

(** A zero evaluation cadence. *)
Definition zero_test_cadence : Config := make_config 2 5 None 0 None 0.



(** Collaborators like [base], but for the training reader, the forward
    pass and backpropagation. *)
Definition tweaked (base : Collaborators)
    (reader : log -> option (nat * nat))
    (fwd : log -> nat -> nat -> result (nat * gmap string Z))
    (bwd : log -> Z -> result unit) : Collaborators := {|
  dataset_train := dataset_train (Collaborators := base);
  dataset_eval := dataset_eval (Collaborators := base);
  next_ := reader;
  forward_ := fwd;
  backward_ := bwd;
  callbacks_ := callbacks_ (Collaborators := base);
  camera_index_ := camera_index_ (Collaborators := base);
  get_outputs_ := get_outputs_ (Collaborators := base);
  log_test_image_ := log_test_image_ (Collaborators := base);
  state_dict_ := state_dict_ (Collaborators := base);
  optimizer_state_dicts_ := optimizer_state_dicts_ (Collaborators := base);
  module_training_ := module_training_ (Collaborators := base);
  torch_save_error_ := torch_save_error_ (Collaborators := base);
  draw_scene_ := draw_scene_ (Collaborators := base);
  viewer_camera_ := viewer_camera_ (Collaborators := base);
  viewer_set_image_ := viewer_set_image_ (Collaborators := base);
  is_main_process := is_main_process (Collaborators := base)
|}.

(** A forward pass that runs out of memory. *)
Definition failing_forward : Collaborators :=
  tweaked healthy (next_ (Collaborators := healthy))
    (fun _ _ _ => Raise (External "OutOfMemoryError"))
    (backward_ (Collaborators := healthy)).

(** A backward pass that fails. *)
Definition failing_backward : Collaborators :=
  tweaked healthy (next_ (Collaborators := healthy))
    (forward_ (Collaborators := healthy))
    (fun _ _ => Raise (External "RuntimeError")).

(** A training reader without batches. *)
Definition dry_reader : Collaborators :=
  tweaked healthy (fun _ => None)
    (forward_ (Collaborators := healthy))
    (backward_ (Collaborators := healthy)).

(** No iteration at all. *)
Definition no_steps : Config := make_config 0 5 None 10 None 0.

(** A zero logging cadence. *)
Definition zero_log_cadence : Config := make_config 3 0 None 10 None 0.

(** Resuming from step 7 out of the directory [ckpts]. *)
Definition resuming_from_7 : Config := make_config 3 2 None 2 (Some "ckpts") 7.

(** [brisk], with a viewer that gets an image every step. *)
Definition viewing : Config := {|
  trainer := trainer brisk;
  logging := logging brisk;
  viewer := {| enable := true; zmq_url := "tcp://localhost:6000";
               steps_per_render_image := Some 1 |}
|}.

(** A loss dictionary with three terms. *)
Definition three_losses : items_of Z :=
  [("rgb_loss_coarse", 3); ("rgb_loss_fine", 4); ("aggregated_loss", 7)].

(** A zero logging cadence and no iteration at all. *)
Definition idle_zero_log_cadence : Config := make_config 0 0 None 10 None 0.

(** A zero logging cadence beside an evaluation every second step. *)
Definition zero_log_cadence_test_2 : Config := make_config 3 0 None 2 None 0.

(** A zero evaluation cadence beside a logging cadence of 2. *)
Definition zero_test_cadence_log_2 : Config := make_config 6 2 None 0 None 0.

End Scenario.

(** * Properties *)

Section Properties.

Context {D : Data} {C : Collaborators}.

(** ** Python runtime *)

Example format_09d_42 : format_09d 42 = "000000042".
Proof. reflexivity. Qed.

Example format_09d_neg : format_09d (-42) = "-00000042".
Proof. reflexivity. Qed.

Example format_09d_wide : format_09d 1234567890 = "1234567890".
Proof. reflexivity. Qed.

Example os_path_join_plain : os_path_join "outputs" "step-000000042.ckpt" = "outputs/step-000000042.ckpt".
Proof. reflexivity. Qed.

Example range_3_6 : range 3 6 = [3; 4; 5].
Proof. reflexivity. Qed.

Example range_empty : range 3 1 = [].
Proof. reflexivity. Qed.

Lemma mod_nonzero (a b : Z) : b <> 0 -> mod_ a b = Ok (a `mod` b).
Proof.
  intros Hb. unfold mod_. destruct (Z.eqb_spec b 0); [contradiction | reflexivity].
Qed.

Lemma range_from_steps (k : nat) (a b : Z) :
  a + Z.of_nat k <= b ->
  range_from k a b = (fun i : nat => a + Z.of_nat i) <$> seq 0 k.
Proof.
  revert a. induction k as [|k IH]; intros a Hk; [reflexivity|].
  cbn [range_from seq fmap list_fmap].
  destruct (Z.ltb_spec a b) as [_|Hge]; [|lia].
  rewrite Z.add_0_r. f_equal.
  rewrite IH by lia. rewrite <- fmap_S_seq, <- list_fmap_compose.
  apply list_fmap_ext. intros _ i _. simpl. lia.
Qed.

Lemma range_steps (a n : Z) : range a (a + n) = steps a n.
Proof.
  unfold range, steps. replace (a + n - a) with n by lia.
  destruct (Z.le_gt_cases 0 n) as [Hn|Hn].
  - apply range_from_steps. lia.
  - replace (Z.to_nat n) with O by lia. reflexivity.
Qed.

Lemma steps_succ (a : Z) (k : nat) :
  steps a (Z.of_nat (S k)) = steps a (Z.of_nat k) ++ [a + Z.of_nat k].
Proof.
  unfold steps. rewrite !Nat2Z.id, seq_S, fmap_app. reflexivity.
Qed.

(** ** The names of the checkpoint files *)

Lemma digit_of_pretty_N_char (d : N) :
  (d < 10)%N -> digit_of (pretty_N_char d) = Some d.
Proof.
  intros Hd.
  assert (d = 0 \/ d = 1 \/ d = 2 \/ d = 3 \/ d = 4 \/ d = 5 \/ d = 6 \/ d = 7
          \/ d = 8 \/ d = 9)%N as Hcases by lia.
  repeat (destruct Hcases as [->|Hcases]; [reflexivity|]). subst. reflexivity.
Qed.

Lemma read_digits_pretty_N_go (x : N) :
  exists k, forall acc s,
    read_digits acc (pretty_N_go x s) = read_digits (acc * k + x)%N s.
Proof.
  induction (N.lt_wf_0 x) as [x _ IH].
  destruct (N.eq_dec x 0) as [->|Hx].
  - exists 1%N. intros acc s. rewrite pretty_N_go_0. f_equal. lia.
  - destruct (IH (x `div` 10)%N) as [k Hk]; [apply N.div_lt; lia|].
    exists (k * 10)%N. intros acc s.
    rewrite pretty_N_go_step by lia. rewrite Hk. simpl.
    rewrite digit_of_pretty_N_char by (apply N.mod_lt; lia).
    f_equal. pose proof (N.div_mod x 10). lia.
Qed.

Lemma pretty_N_go_app (x : N) s t :
  pretty_N_go x s +:+ t = pretty_N_go x (s +:+ t).
Proof.
  revert s. induction (N.lt_wf_0 x) as [x _ IH]; intros s.
  destruct (N.eq_dec x 0) as [->|Hx].
  - rewrite !pretty_N_go_0. reflexivity.
  - rewrite (pretty_N_go_step x s), (pretty_N_go_step x (s +:+ t)) by lia.
    rewrite IH by (apply N.div_lt; lia). reflexivity.
Qed.

Lemma read_digits_pretty_N (x : N) t :
  read_digits 0 (pretty x +:+ t) = read_digits x t.
Proof.
  unfold pretty, pretty_N. destruct (decide (x = 0%N)) as [->|Hx]; [reflexivity|].
  rewrite pretty_N_go_app. destruct (read_digits_pretty_N_go x) as [k Hk].
  rewrite Hk. reflexivity.
Qed.

Lemma read_digits_zeros k t : read_digits 0 (zeros k +:+ t) = read_digits 0 t.
Proof. induction k as [|k IH]; [reflexivity | exact IH]. Qed.

Lemma pretty_nonnegative (n : Z) : 0 <= n -> pretty n = pretty (Z.to_N n).
Proof. destruct n as [|p|p]; [reflexivity | reflexivity | lia]. Qed.

Lemma pretty_N_no_dash (x : N) t r :
  t <> String "-" r -> pretty x +:+ t <> String "-" r.
Proof.
  intros Ht. unfold pretty, pretty_N.
  destruct (decide (x = 0%N)) as [->|Hx]; [discriminate|].
  rewrite pretty_N_go_app. apply (pretty_N_go_ne_dash x _ r). exact Ht.
Qed.

Lemma string_app_cons c (s t : string) : String c s +:+ t = String c (s +:+ t).
Proof. reflexivity. Qed.

Lemma string_app_nil (t : string) : EmptyString +:+ t = t.
Proof. reflexivity. Qed.

Lemma string_app_assoc (s t u : string) : (s +:+ t) +:+ u = s +:+ (t +:+ u).
Proof.
  induction s as [|c s IH]; [reflexivity|].
  rewrite !string_app_cons, IH. reflexivity.
Qed.

Lemma read_int_no_dash (s : string) :
  (forall r, s <> String "-" r) -> read_int s = Z.of_N (read_digits 0 s).
Proof.
  intros Hs. destruct s as [|c s]; [reflexivity|]. unfold read_int.
  destruct (bool_decide_reflect (c = "-"%char)) as [->|Hc]; [|reflexivity].
  destruct (Hs s). reflexivity.
Qed.

Lemma read_digits_padded (k : nat) (x : N) :
  read_digits 0 (zeros k +:+ pretty x +:+ ".ckpt") = x.
Proof. rewrite read_digits_zeros, read_digits_pretty_N. reflexivity. Qed.

Lemma read_int_format_09d (n : Z) : read_int (format_09d n +:+ ".ckpt") = n.
Proof.
  unfold format_09d. destruct (Z.ltb_spec n 0) as [Hneg|Hpos].
  - rewrite (pretty_nonnegative (Z.abs n)) by lia.
    rewrite !string_app_assoc, string_app_cons, string_app_nil.
    unfold read_int. rewrite bool_decide_eq_true_2 by reflexivity.
    rewrite read_digits_padded. lia.
  - rewrite (pretty_nonnegative (Z.abs n)) by lia.
    rewrite !string_app_assoc, string_app_nil.
    rewrite read_int_no_dash.
    + rewrite read_digits_padded. lia.
    + intros r. destruct (9 - _ - _)%nat as [|k].
      * rewrite string_app_nil. apply pretty_N_no_dash. discriminate.
      * change (zeros (S k)) with (String "0" (zeros k)).
        rewrite string_app_cons. discriminate.
Qed.

(** The name of a checkpoint file holds its step: reading the number after
    ["step-"] gives the step back, for every step, also one that is negative
    or has more than nine digits. *)
Lemma step_of_ckpt_name_round_trip (step : Z) :
  step_of_ckpt_name (ckpt_name step) = step.
Proof. unfold ckpt_name. rewrite !string_app_cons, string_app_nil. apply read_int_format_09d. Qed.

(** X2: in a directory, the checkpoints of two steps are one file exactly
    when the steps are the same: a save never overwrites the checkpoint of
    another step. *)
Theorem checkpoint_paths_distinct (dir : string) (n m : Z) :
  os_path_join dir (ckpt_name n) = os_path_join dir (ckpt_name m) <-> n = m.
Proof.
  split; [|intros ->; reflexivity].
  intros Hpath.
  rewrite <- (step_of_ckpt_name_round_trip n), <- (step_of_ckpt_name_round_trip m).
  f_equal. unfold os_path_join in Hpath.
  assert (Hname : forall k, starts_with_slash (ckpt_name k) = false) by reflexivity.
  rewrite !Hname in Hpath.
  destruct (bool_decide (dir = EmptyString) || ends_with_slash dir).
  - apply (inj (String.app dir)) in Hpath. exact Hpath.
  - apply (inj (String.app dir)) in Hpath. apply (inj (String.app "/")) in Hpath.
    exact Hpath.
Qed.

(** ** The disk *)

Lemma split_slash_nonempty (s : string) : split_slash s <> [].
Proof.
  induction s as [|c s IH]; simpl; [discriminate|].
  destruct (is_slash c); [discriminate|].
  destruct (split_slash s); discriminate.
Qed.

Lemma split_slash_app (a b : string) :
  split_slash (a +:+ String "/" b) = split_slash a ++ split_slash b.
Proof.
  induction a as [|c a IH]; [reflexivity|].
  rewrite string_app_cons. simpl. rewrite IH.
  destruct (is_slash c); [reflexivity|].
  pose proof (split_slash_nonempty a) as Hne.
  destruct (split_slash a) as [|piece pieces]; [contradiction | reflexivity].
Qed.

Lemma split_slash_no_slash (s : string) : has_slash s = false -> split_slash s = [s].
Proof.
  induction s as [|c s IH]; [reflexivity|]. simpl.
  intros Hs. apply orb_false_iff in Hs as [Hc Hs]. rewrite Hc, (IH Hs). reflexivity.
Qed.

Lemma has_slash_app (a b : string) : has_slash (a +:+ b) = has_slash a || has_slash b.
Proof.
  induction a as [|c a IH]; [reflexivity|].
  rewrite string_app_cons. simpl. rewrite IH. apply orb_assoc.
Qed.

Lemma has_slash_zeros (k : nat) : has_slash (zeros k) = false.
Proof. induction k as [|k IH]; [reflexivity | exact IH]. Qed.

Lemma is_slash_pretty_N_char (d : N) : (d < 10)%N -> is_slash (pretty_N_char d) = false.
Proof.
  intros Hd.
  assert (d = 0 \/ d = 1 \/ d = 2 \/ d = 3 \/ d = 4 \/ d = 5 \/ d = 6 \/ d = 7
          \/ d = 8 \/ d = 9)%N as Hcases by lia.
  repeat (destruct Hcases as [->|Hcases]; [reflexivity|]). subst. reflexivity.
Qed.

Lemma has_slash_pretty_N_go (x : N) (s : string) :
  has_slash (pretty_N_go x s) = has_slash s.
Proof.
  revert s. induction (N.lt_wf_0 x) as [x _ IH]; intros s.
  destruct (N.eq_dec x 0) as [->|Hx].
  - rewrite pretty_N_go_0. reflexivity.
  - rewrite pretty_N_go_step by lia. rewrite IH by (apply N.div_lt; lia).
    simpl. rewrite is_slash_pretty_N_char by (apply N.mod_lt; lia). reflexivity.
Qed.

Lemma has_slash_pretty_N (x : N) : has_slash (pretty x) = false.
Proof.
  unfold pretty, pretty_N. destruct (decide (x = 0%N)); [reflexivity|].
  apply has_slash_pretty_N_go.
Qed.

Lemma has_slash_ckpt_name (step : Z) : has_slash (ckpt_name step) = false.
Proof.
  unfold ckpt_name, format_09d. rewrite !has_slash_app, has_slash_zeros.
  rewrite (pretty_nonnegative (Z.abs step)) by lia. rewrite has_slash_pretty_N.
  destruct (step <? 0); reflexivity.
Qed.

Lemma enter_ckpt_name (d : location) (step : Z) :
  enter d (ckpt_name step) = d ++ [ckpt_name step].
Proof.
  unfold enter, ckpt_name. rewrite !string_app_cons, string_app_nil.
  rewrite !bool_decide_eq_false_2 by discriminate. reflexivity.
Qed.

Lemma starts_with_slash_ckpt_name (step : Z) : starts_with_slash (ckpt_name step) = false.
Proof. reflexivity. Qed.

Lemma starts_with_slash_app (s t : string) :
  s <> EmptyString -> starts_with_slash (s +:+ t) = starts_with_slash s.
Proof. destruct s; [contradiction | reflexivity]. Qed.

Lemma string_app_empty (s t : string) : s +:+ t = EmptyString -> s = EmptyString.
Proof. destruct s; [reflexivity | discriminate]. Qed.

Lemma rev_app_last (s acc : string) :
  s <> EmptyString ->
  exists s' c, s = s' +:+ String c EmptyString
               /\ String.rev_app s acc = String c (String.rev_app s' acc).
Proof.
  revert acc. induction s as [|a s IH]; intros acc Hne; [contradiction|].
  destruct s as [|b s].
  - exists EmptyString, a. split; reflexivity.
  - destruct (IH (String a acc)) as (s' & c & Hs & Hrev); [discriminate|].
    exists (String a s'), c. rewrite string_app_cons, <- Hs. split; [reflexivity|].
    simpl in *. exact Hrev.
Qed.

Lemma ends_with_slash_inv (s : string) :
  ends_with_slash s = true -> exists s', s = s' +:+ "/".
Proof.
  unfold ends_with_slash, String.rev. destruct s as [|a s]; [discriminate|].
  destruct (rev_app_last (String a s) EmptyString) as (s' & c & Hs & Hrev); [discriminate|].
  rewrite Hrev. intros Hc. apply bool_decide_eq_true_1 in Hc. subst c.
  exists s'. exact Hs.
Qed.

Lemma is_dir_same_dirs (f f' : FileSystem) (l : location) :
  dirs f' = dirs f -> is_dir f' l = is_dir f l.
Proof. intros Hd. unfold is_dir. rewrite Hd. reflexivity. Qed.

Lemma walk_same_dirs (f f' : FileSystem) cur names l :
  dirs f' = dirs f -> walk f cur names = Ok l -> walk f' cur names = Ok l.
Proof.
  intros Hd. revert cur. induction names as [|name rest IH]; intros cur; simpl; [tauto|].
  rewrite (is_dir_same_dirs f f' cur Hd).
  destruct (is_dir f cur); [apply IH|]. destruct (is_file f cur); discriminate.
Qed.

Lemma resolve_same_dirs (f f' : FileSystem) p l :
  cwd f' = cwd f -> dirs f' = dirs f -> resolve f p = Ok l -> resolve f' p = Ok l.
Proof.
  intros Hc Hd. unfold resolve, origin. rewrite Hc.
  destruct (bool_decide (p = EmptyString)); [discriminate|]. apply walk_same_dirs, Hd.
Qed.

Lemma checkpoint_dir_same_dirs (f f' : FileSystem) dir :
  cwd f' = cwd f -> dirs f' = dirs f -> checkpoint_dir f dir -> checkpoint_dir f' dir.
Proof.
  intros Hc Hd (d & Hres & Hdir & Hfree). exists d.
  split; [eapply resolve_same_dirs; eassumption|].
  split; [rewrite (is_dir_same_dirs f f' d Hd); exact Hdir|].
  intros step. rewrite (is_dir_same_dirs f f' _ Hd). apply Hfree.
Qed.

Lemma walk_app (f : FileSystem) cur xs ys :
  walk f cur (xs ++ ys)
  = match walk f cur xs with
    | Ok l => walk f l ys
    | Raise e => Raise e
    end.
Proof.
  revert cur. induction xs as [|x xs IH]; intros cur; [reflexivity|]. simpl.
  destruct (is_dir f cur); [apply IH|]. destruct (is_file f cur); reflexivity.
Qed.

(** The path of a checkpoint in a directory resolves to the directory first
    and to the name of the checkpoint from there. *)
Lemma resolve_join_walk (f : FileSystem) dir d step :
  resolve f dir = Ok d ->
  resolve f (os_path_join dir (ckpt_name step)) = walk f d [ckpt_name step].
Proof.
  unfold resolve. destruct (bool_decide_reflect (dir = EmptyString)) as [|Hne];
    [discriminate|].
  intros Hwalk. unfold os_path_join.
  rewrite starts_with_slash_ckpt_name.
  rewrite (bool_decide_eq_false_2 (dir = EmptyString)) by exact Hne. simpl.
  destruct (ends_with_slash dir) eqn:Hends.
  - destruct (ends_with_slash_inv dir Hends) as (dir' & ->).
    rewrite bool_decide_eq_false_2
      by (intros H; apply string_app_empty in H; contradiction).
    unfold origin in *. rewrite starts_with_slash_app by exact Hne.
    rewrite string_app_assoc, string_app_cons, string_app_nil.
    rewrite split_slash_app.
    rewrite (split_slash_no_slash (ckpt_name step)) by apply has_slash_ckpt_name.
    rewrite split_slash_app, walk_app in Hwalk.
    destruct (walk f _ (split_slash dir')) as [d'|e] eqn:Hdir'; [|discriminate].
    simpl in Hwalk. rewrite walk_app, Hdir'.
    destruct (is_dir f d') eqn:Hd'.
    + injection Hwalk as <-. reflexivity.
    + destruct (is_file f d'); discriminate.
  - rewrite bool_decide_eq_false_2
      by (intros H; apply string_app_empty in H; contradiction).
    unfold origin in *. rewrite starts_with_slash_app by exact Hne.
    rewrite string_app_cons, string_app_nil.
    rewrite split_slash_app.
    rewrite (split_slash_no_slash (ckpt_name step)) by apply has_slash_ckpt_name.
    rewrite walk_app, Hwalk. reflexivity.
Qed.

(** The checkpoint of a step in a directory that is there goes right under
    the directory. *)
Lemma resolve_join (f : FileSystem) dir d step :
  resolve f dir = Ok d -> is_dir f d = true ->
  resolve f (os_path_join dir (ckpt_name step)) = Ok (d ++ [ckpt_name step]).
Proof.
  intros Hres Hdir. rewrite (resolve_join_walk f dir d step Hres). simpl.
  rewrite Hdir, enter_ckpt_name. reflexivity.
Qed.

Lemma os_mkdir_frame (p : string) (f : FileSystem) :
  cwd (os_mkdir p f).2 = cwd f /\ files (os_mkdir p f).2 = files f
  /\ dirs f ⊆ dirs (os_mkdir p f).2.
Proof.
  unfold os_mkdir. destruct (bool_decide (p = EmptyString)); [done|].
  destruct (rstrip_slash p); [done|].
  destruct (walk f _ _) as [l|e]; [|done].
  destruct (present f l); [done|]. simpl. split; [done|]. split; [done|]. set_solver.
Qed.

Lemma os_makedirs_frame (fuel : nat) (name : string) (f : FileSystem) :
  cwd (os_makedirs fuel name f).2 = cwd f /\ files (os_makedirs fuel name f).2 = files f
  /\ dirs f ⊆ dirs (os_makedirs fuel name f).2.
Proof.
  revert name f. induction fuel as [|fuel IH]; intros name f; simpl.
  - destruct (os_path_split name) as [head0 tail0].
    destruct (if bool_decide (tail0 = EmptyString) then _ else _) as [head tail].
    destruct (_ && _); [done | apply os_mkdir_frame].
  - destruct (os_path_split name) as [head0 tail0].
    destruct (if bool_decide (tail0 = EmptyString) then _ else _) as [head tail].
    destruct (_ && _); [|apply os_mkdir_frame].
    specialize (IH head f). destruct (os_makedirs fuel head f) as [r f1]. simpl in IH.
    destruct IH as (Hc & Hf & Hd).
    assert (Hmade : cwd (if bool_decide (tail = ".") then (Ok tt, f1)
                         else os_mkdir name f1).2 = cwd f
                    /\ files (if bool_decide (tail = ".") then (Ok tt, f1)
                              else os_mkdir name f1).2 = files f
                    /\ dirs f ⊆ dirs (if bool_decide (tail = ".") then (Ok tt, f1)
                                      else os_mkdir name f1).2).
    { destruct (bool_decide (tail = ".")); [done|].
      destruct (os_mkdir_frame name f1) as (Hc' & Hf' & Hd').
      split; [congruence|]. split; [congruence | set_solver]. }
    destruct r as [u|e]; [exact Hmade|].
    destruct (bool_decide (e = External "FileExistsError")); [exact Hmade | done].
Qed.

Lemma rstrip_slash_length (s : string) :
  (String.length (rstrip_slash s) <= String.length s)%nat.
Proof.
  induction s as [|c s IH]; simpl; [lia|].
  destruct (rstrip_slash s); [destruct (is_slash c)|]; simpl in *; lia.
Qed.

Lemma cut_after_last_slash_length (p : string) :
  (String.length (cut_after_last_slash p).1 + String.length (cut_after_last_slash p).2
   = String.length p)%nat.
Proof.
  induction p as [|c p IH]; simpl; [reflexivity|].
  destruct (cut_after_last_slash p) as [[|a head] tail]; simpl in *.
  - destruct (is_slash c); simpl; lia.
  - lia.
Qed.

Lemma os_path_split_length (p : string) :
  (String.length (os_path_split p).1 + String.length (os_path_split p).2
   <= String.length p)%nat.
Proof.
  unfold os_path_split. pose proof (cut_after_last_slash_length p) as Hcut.
  destruct (cut_after_last_slash p) as [head tail]. simpl in *.
  pose proof (rstrip_slash_length head) as Hstrip.
  destruct (rstrip_slash head); simpl in *; lia.
Qed.

(** The part of [name] that [os.makedirs] makes first is shorter than
    [name]. *)
Lemma makedirs_head_shorter (name head0 tail0 head tail : string) :
  os_path_split name = (head0, tail0) ->
  (if bool_decide (tail0 = EmptyString) then os_path_split head0 else (head0, tail0))
  = (head, tail) ->
  tail <> EmptyString ->
  (String.length head < String.length name)%nat.
Proof.
  intros Hsplit Hparts Htail.
  pose proof (os_path_split_length name) as Hlen. rewrite Hsplit in Hlen. simpl in Hlen.
  assert (Hpos : (0 < String.length tail)%nat) by (destruct tail; [contradiction | simpl; lia]).
  destruct (bool_decide (tail0 = EmptyString)).
  - pose proof (os_path_split_length head0) as Hlen0. rewrite Hparts in Hlen0.
    simpl in Hlen0. lia.
  - injection Hparts as <- <-. lia.
Qed.

(** The fuel of [os_makedirs] does not run out: from the length of [name]
    on, more of it makes no difference. *)
Lemma os_makedirs_fuel (fuel fuel' : nat) (name : string) (f : FileSystem) :
  (String.length name <= fuel)%nat -> (String.length name <= fuel')%nat ->
  os_makedirs fuel name f = os_makedirs fuel' name f.
Proof.
  revert fuel' name f. induction fuel as [|fuel IH]; intros fuel' name f Hfuel Hfuel'.
  - destruct fuel' as [|fuel']; [reflexivity|]. simpl.
    destruct (os_path_split name) as [head0 tail0] eqn:Hsplit.
    destruct (if bool_decide (tail0 = EmptyString) then _ else _) as [head tail] eqn:Hparts.
    destruct (decide (tail = EmptyString)) as [->|Htail];
      [rewrite andb_false_r; reflexivity|].
    pose proof (makedirs_head_shorter _ _ _ _ _ Hsplit Hparts Htail). lia.
  - destruct fuel' as [|fuel']; simpl;
      destruct (os_path_split name) as [head0 tail0] eqn:Hsplit;
      destruct (if bool_decide (tail0 = EmptyString) then _ else _)
        as [head tail] eqn:Hparts;
      (destruct (decide (tail = EmptyString)) as [->|Htail];
         [rewrite andb_false_r; reflexivity|]);
      pose proof (makedirs_head_shorter _ _ _ _ _ Hsplit Hparts Htail) as Hshorter;
      [lia|].
    rewrite (IH fuel' head f) by lia. reflexivity.
Qed.

Lemma os_makedirs_empty (fuel : nat) (f : FileSystem) :
  os_makedirs fuel EmptyString f = (Raise (External "FileNotFoundError"), f).
Proof. destruct fuel; reflexivity. Qed.

(** ** What a method respects, whatever its outcome *)

Section Respects.

Variable R : State -> State -> Prop.
Hypothesis R_refl : forall s, R s s.
Hypothesis R_trans : forall s1 s2 s3, R s1 s2 -> R s2 s3 -> R s1 s3.
Hypothesis R_event : forall e s, is_viewer_call e = false -> R s (add_event e s).
Hypothesis R_self : forall f s, R s (set_self f s).

Lemma respects_ret {A} (a : A) : respects R (ret a).
Proof. intros s. apply R_refl. Qed.

Lemma respects_raise {A} e : respects R (@raise D A e).
Proof. intros s. apply R_refl. Qed.

Lemma respects_lift {A} (r : result A) : respects R (lift r).
Proof. intros s. apply R_refl. Qed.

Lemma respects_get_self : respects R get_self.
Proof. intros s. apply R_refl. Qed.

Lemma respects_emit e : is_viewer_call e = false -> respects R (emit e).
Proof. intros He s. apply R_event, He. Qed.

Lemma respects_call {A} e (answer : log -> result A) :
  is_viewer_call e = false -> respects R (call e answer).
Proof. intros He s. apply R_event, He. Qed.

Lemma respects_modify_self f : respects R (modify_self f).
Proof. intros s. apply R_self. Qed.

Lemma respects_path_exists p : respects R (path_exists p).
Proof. intros s. apply R_refl. Qed.

Lemma respects_read_file p : respects R (read_file p).
Proof. intros s. apply R_event. reflexivity. Qed.

Lemma respects_bind {A B} (m : M A) (k : A -> M B) :
  respects R m -> (forall a, respects R (k a)) -> respects R (bind m k).
Proof.
  intros Hm Hk s. specialize (Hm s). unfold bind.
  destruct (m s) as [[a|e] s1]; simpl in *; [|exact Hm].
  eapply R_trans; [exact Hm | apply Hk].
Qed.

Lemma respects_when (b : bool) (m : M unit) : respects R m -> respects R (when b m).
Proof. intros Hm. destruct b; [exact Hm | apply respects_ret]. Qed.

Lemma respects_for {A} (xs : list A) (body : A -> M unit) :
  (forall x, respects R (body x)) -> respects R (for_ xs body).
Proof.
  intros Hbody. induction xs as [|x xs IH]; simpl.
  - apply respects_ret.
  - apply respects_bind; [apply Hbody | intros _; exact IH].
Qed.

Lemma respects_divides step n : respects R (divides step n).
Proof. apply respects_bind; [apply respects_lift | intros r; apply respects_ret]. Qed.

Lemma respects_divides_opt step n : respects R (divides_opt step n).
Proof. destruct n; [apply respects_divides | apply respects_raise]. Qed.

Lemma respects_and a b : respects R a -> respects R b -> respects R (and_ a b).
Proof.
  intros Ha Hb. apply respects_bind; [exact Ha|].
  intros [|]; [exact Hb | apply respects_ret].
Qed.

Lemma respects_or a b : respects R a -> respects R b -> respects R (or_ a b).
Proof.
  intros Ha Hb. apply respects_bind; [exact Ha|].
  intros [|]; [apply respects_ret | exact Hb].
Qed.

Create HintDb respects.

#[local] Hint Resolve respects_ret respects_raise respects_lift respects_get_self
  respects_emit respects_call respects_modify_self respects_path_exists
  respects_read_file respects_divides respects_divides_opt : respects.

#[local] Hint Extern 1 (is_viewer_call _ = false) => reflexivity : respects.

(** Walks through the binds of a method, splitting on what it matches on. *)
Ltac respects_steps :=
  repeat first
    [ solve [auto with respects]
    | apply respects_bind; [|intros ?]
    | apply respects_when
    | apply respects_and
    | apply respects_or
    | apply respects_for
    | match goal with
      | |- respects _ (match ?x with _ => _ end) => destruct x
      | |- respects _ (if ?x then _ else _) => destruct x
      | |- forall _, _ => intros ?
      end ].

Lemma respects_get_graph : respects R get_graph.
Proof. unfold get_graph. respects_steps. Qed.

Lemma respects_get_optimizers : respects R get_optimizers.
Proof. unfold get_optimizers. respects_steps. Qed.

#[local] Hint Resolve respects_get_graph respects_get_optimizers : respects.

Lemma respects_set_training b : respects R (set_training b).
Proof. unfold set_training. respects_steps. Qed.

#[local] Hint Resolve respects_set_training : respects.

Lemma respects_write_out_storage step : respects R (_write_out_storage step).
Proof. unfold _write_out_storage. respects_steps. Qed.

Lemma respects_train_iteration ri b step : respects R (train_iteration ri b step).
Proof. unfold train_iteration. respects_steps. Qed.

Lemma respects_test_image bundle b step : respects R (test_image bundle b step).
Proof. unfold test_image, graph_eval_, graph_train_. respects_steps. Qed.

#[local] Hint Resolve respects_test_image : respects.

Lemma respects_eval_with_dataloader dl step : respects R (eval_with_dataloader dl step).
Proof. unfold eval_with_dataloader. respects_steps. Qed.

Lemma respects_load_checkpoint : respects R _load_checkpoint.
Proof. unfold _load_checkpoint. respects_steps. Qed.

#[local] Hint Resolve respects_load_checkpoint : respects.

Lemma respects_setup test_mode : respects R (setup test_mode).
Proof. unfold setup. respects_steps. Qed.

(** When the calls on the viewer are respected too. *)
Section WithViewer.

Hypothesis R_viewer : forall e s, R s (add_event e s).

Lemma respects_draw_scene_in_viewer : respects R draw_scene_in_viewer.
Proof. intros s. apply R_viewer. Qed.

Lemma respects_render_image_in_viewer : respects R render_image_in_viewer.
Proof.
  assert (Hemit : forall e, respects R (emit e)) by (intros e s; apply R_viewer).
  assert (Hcall : forall A e (answer : log -> result A), respects R (call e answer))
    by (intros A e answer s; apply R_viewer).
  unfold render_image_in_viewer, graph_eval_, graph_train_. respects_steps.
Qed.

End WithViewer.

(** When writing to the disk is respected too. *)
Section WithDisk.

Hypothesis R_fs : forall f s, R s (set_fs f s).

Lemma respects_make_dir p : respects R (make_dir p).
Proof.
  intros s. unfold make_dir. destruct (os_makedirs _ p (fs s)) as [r f]. simpl.
  apply (R_trans _ (set_fs (fun _ => f) s)).
  - apply R_fs.
  - apply (R_event (makedirs p)). reflexivity.
Qed.

Lemma respects_write_file p ck : respects R (write_file p ck).
Proof.
  intros s. unfold write_file. destruct (writable_at (fs s) p) as [l|]; simpl.
  - apply (R_trans _ (set_fs (with_file l ck) s)).
    + apply R_fs.
    + apply (R_event (torch_save p)). reflexivity.
  - apply (R_event (torch_save p)). reflexivity.
Qed.

#[local] Hint Resolve respects_make_dir respects_write_file : respects.

Lemma respects_save_checkpoint dir step : respects R (_save_checkpoint dir step).
Proof. unfold _save_checkpoint. respects_steps. Qed.

End WithDisk.

End Respects.

Lemma fs_set_self f s : fs (set_self f s) = fs s.
Proof. reflexivity. Qed.

(** ** Runs that return *)

Lemma returns_ret {A} (a : A) s (post : A -> State -> Prop) :
  post a s -> returns (ret a) s post.
Proof. intros H. exists a, s. split; [reflexivity | exact H]. Qed.

Lemma returns_bind {A B} (m : M A) (k : A -> M B) s (post : B -> State -> Prop) :
  returns m s (fun a s' => returns (k a) s' post) -> returns (bind m k) s post.
Proof.
  intros (a & s1 & Hm & (b & s2 & Hk & Hpost)).
  exists b, s2. split; [|exact Hpost]. unfold bind. rewrite Hm. exact Hk.
Qed.

Lemma returns_weaken {A} (m : M A) s (post post' : A -> State -> Prop) :
  returns m s post -> (forall a s', post a s' -> post' a s') -> returns m s post'.
Proof. intros (a & s' & Hm & Hp) Himp. exists a, s'. eauto. Qed.

Lemma returns_emit e s (post : unit -> State -> Prop) :
  post tt (add_event e s) -> returns (emit e) s post.
Proof. intros H. exists tt, (add_event e s). split; [reflexivity | exact H]. Qed.

Lemma returns_call {A} e (answer : log -> result A) a s (post : A -> State -> Prop) :
  answer (trace s) = Ok a -> post a (add_event e s) -> returns (call e answer) s post.
Proof.
  intros Ha H. exists a, (add_event e s). split; [|exact H].
  unfold call. rewrite Ha. reflexivity.
Qed.

Lemma returns_lift {A} (r : result A) a s (post : A -> State -> Prop) :
  r = Ok a -> post a s -> returns (lift r) s post.
Proof. intros -> H. exists a, s. split; [reflexivity | exact H]. Qed.

Lemma returns_get_self s (post : Trainer -> State -> Prop) :
  post (self s) s -> returns get_self s post.
Proof. intros H. exists (self s), s. split; [reflexivity | exact H]. Qed.

Lemma returns_modify_self f s (post : unit -> State -> Prop) :
  post tt (set_self f s) -> returns (modify_self f) s post.
Proof. intros H. exists tt, (set_self f s). split; [reflexivity | exact H]. Qed.

Lemma returns_when (b : bool) (m : M unit) s (post : unit -> State -> Prop) :
  (b = true -> returns m s post) -> (b = false -> post tt s) -> returns (when b m) s post.
Proof.
  destruct b; intros Ht Hf; simpl.
  - apply Ht. reflexivity.
  - apply returns_ret, Hf. reflexivity.
Qed.

Lemma returns_for {A} (inv : list A -> State -> Prop) (body : A -> M unit) xs s :
  inv [] s ->
  (forall done x s1, inv done s1 -> returns (body x) s1 (fun _ s2 => inv (done ++ [x]) s2)) ->
  returns (for_ xs body) s (fun _ s' => inv xs s').
Proof.
  intros H0 Hbody.
  enough (Hgen : forall done s1, inv done s1 ->
            returns (for_ xs body) s1 (fun _ s' => inv (done ++ xs) s'))
    by exact (Hgen [] s H0).
  induction xs as [|x xs IH]; intros done s1 Hinv; simpl.
  - apply returns_ret. rewrite app_nil_r. exact Hinv.
  - apply returns_bind. eapply returns_weaken; [apply Hbody, Hinv|].
    intros u s2 H2. simpl in H2. specialize (IH (done ++ [x]) s2 H2).
    rewrite <- app_assoc in IH. exact IH.
Qed.

Lemma returns_for_in {A} (inv : list A -> State -> Prop) (body : A -> M unit) xs s :
  inv [] s ->
  (forall done x s1, In x xs -> inv done s1 ->
     returns (body x) s1 (fun _ s2 => inv (done ++ [x]) s2)) ->
  returns (for_ xs body) s (fun _ s' => inv xs s').
Proof.
  intros H0 Hbody.
  enough (Hgen : forall rest, (forall x, In x rest -> In x xs) ->
            forall done s1, inv done s1 ->
              returns (for_ rest body) s1 (fun _ s' => inv (done ++ rest) s'))
    by exact (Hgen xs (fun x H => H) [] s H0).
  induction rest as [|x rest IH]; intros Hin done s1 Hinv; simpl.
  - apply returns_ret. rewrite app_nil_r. exact Hinv.
  - apply returns_bind. eapply returns_weaken; [apply Hbody; [apply Hin; left; reflexivity | exact Hinv]|].
    intros u s2 H2. simpl in H2.
    assert (Hrest : forall y, In y rest -> In y xs) by (intros y Hy; apply Hin; right; exact Hy).
    specialize (IH Hrest (done ++ [x]) s2 H2).
    rewrite <- app_assoc in IH. exact IH.
Qed.

(** ** Reading the log of a run *)

Lemma actions_app (h1 h2 : log) : actions (h1 ++ h2) = actions h1 ++ actions h2.
Proof. apply omap_app. Qed.

Lemma advances_refl s : advances s [] s.
Proof.
  split; [reflexivity|]. split; [symmetry; apply app_nil_r|]. intros H. exact H.
Qed.

Lemma advances_trans s s1 s2 a1 a2 :
  advances s a1 s1 -> advances s1 a2 s2 -> advances s (a1 ++ a2) s2.
Proof.
  intros (Hf1 & Ha1 & Hk1) (Hf2 & Ha2 & Hk2). split; [congruence|].
  split; [rewrite Ha2, Ha1, app_assoc; reflexivity|].
  pose proof (f_equal config Hf1) as Hc. simpl in Hc.
  unfold keeps_checkpoint_dir in *. rewrite Hc in Hk2. intros H. apply Hk2, Hk1, H.
Qed.

Lemma advances_event s e :
  advances s (actions [e]) (add_event e s).
Proof. split; [reflexivity|]. split; [apply actions_app|]. intros H. exact H. Qed.

Lemma advances_checkpoint_dir s acts s' :
  advances s acts s' ->
  checkpoint_dir_ready (fs s) (model_dir (trainer (config (self s)))) ->
  checkpoint_dir_ready (fs s') (model_dir (trainer (config (self s)))).
Proof. intros (_ & _ & Hk). exact Hk. Qed.

Lemma advances_step s s1 s2 a1 a2 a :
  advances s a1 s1 -> advances s1 a2 s2 -> a = a1 ++ a2 -> advances s a s2.
Proof. intros H1 H2 ->. eapply advances_trans; eassumption. Qed.

Lemma frame_config t t' : forget_mode t' = forget_mode t -> config t' = config t.
Proof. intros H. apply (f_equal config) in H. exact H. Qed.

Lemma frame_vis t t' : forget_mode t' = forget_mode t -> vis t' = vis t.
Proof. intros H. apply (f_equal vis) in H. exact H. Qed.

Lemma frame_start_step t t' : forget_mode t' = forget_mode t -> start_step t' = start_step t.
Proof. intros H. apply (f_equal start_step) in H. exact H. Qed.

Lemma frame_dataloader_eval t t' :
  forget_mode t' = forget_mode t -> dataloader_eval t' = dataloader_eval t.
Proof. intros H. apply (f_equal dataloader_eval) in H. exact H. Qed.

Lemma frame_ready t t' : forget_mode t' = forget_mode t -> ready t -> ready t'.
Proof.
  intros H (Ht & He & Hg & Ho).
  pose proof (f_equal dataloader_train H) as H1.
  pose proof (f_equal dataloader_eval H) as H2.
  pose proof (f_equal optimizers H) as H3.
  pose proof (f_equal graph H) as H4.
  simpl in H1, H2, H3, H4. unfold ready. rewrite H1, H2, H3.
  repeat split; try assumption.
  destruct Hg as [g Hg]. rewrite Hg in H4. simpl in H4.
  destruct (graph t'); [eauto | discriminate].
Qed.

(** ** [train_iteration] *)

Lemma for_callbacks (cbs : list Callback) (step : Z) s :
  for_ cbs (fun func_ => emit (after_step func_ step)) s
  = (Ok tt, {| self := self s; fs := fs s;
               trace := trace s ++ ((fun cb => after_step cb step) <$> cbs) |}).
Proof.
  revert s. induction cbs as [|cb cbs IH]; intros s; simpl.
  - unfold ret. rewrite app_nil_r. destruct s; reflexivity.
  - unfold bind, emit. rewrite IH. simpl. rewrite <- app_assoc. reflexivity.
Qed.

Lemma train_iteration_run ri b step s g o out ld l :
  graph (self s) = Some g ->
  optimizers (self s) = Some o ->
  forward_ (trace s ++ [Call_train_iteration step]) ri b = Ok (out, ld) ->
  ld !! "aggregated_loss" = Some l ->
  backward_ (trace s ++ [Call_train_iteration step; forward ri b; zero_grad_all]) l = Ok tt ->
  train_iteration ri b step s
  = (Ok ld, {| self := self s; fs := fs s;
               trace := trace s ++ iteration_log ri b step l (callbacks g) |}).
Proof.
  intros Hg Ho Hf Hl Hb.
  unfold train_iteration, get_graph, get_optimizers.
  unfold bind, emit, get_self, call, ret.
  simpl. rewrite Hg. simpl. rewrite Hf. simpl. rewrite Hl. simpl. rewrite Ho. simpl.
  rewrite <- !app_assoc. simpl. rewrite Hb. simpl. rewrite Hg. simpl.
  match goal with
  | |- context [for_ ?cbs _ ?s0] =>
      pose proof (for_callbacks cbs step s0) as Hfor; unfold emit in Hfor; rewrite Hfor
  end.
  simpl. unfold iteration_log.
  rewrite <- !app_assoc. reflexivity.
Qed.

(** ** What no method but [setup] touches

    Every method except [setup] and [_load_checkpoint] changes the trainer
    only through [graph.eval()] and [graph.train()], whatever the outcome
    of the run. *)

Lemma preserves_ret {A} (a : A) : preserves (ret a).
Proof. intros s. reflexivity. Qed.

Lemma preserves_raise {A} e : preserves (@raise D A e).
Proof. intros s. reflexivity. Qed.

Lemma preserves_lift {A} (r : result A) : preserves (lift r).
Proof. intros s. reflexivity. Qed.

Lemma preserves_get_self : preserves get_self.
Proof. intros s. reflexivity. Qed.

Lemma preserves_emit e : preserves (emit e).
Proof. intros s. reflexivity. Qed.

Lemma preserves_call {A} e (answer : log -> result A) : preserves (call e answer).
Proof. intros s. reflexivity. Qed.

Lemma preserves_bind {A B} (m : M A) (k : A -> M B) :
  preserves m -> (forall a, preserves (k a)) -> preserves (bind m k).
Proof.
  intros Hm Hk s. specialize (Hm s). unfold bind.
  destruct (m s) as [[a|e] s1]; simpl in *; [|exact Hm].
  rewrite Hk. exact Hm.
Qed.

Lemma preserves_when (b : bool) (m : M unit) : preserves m -> preserves (when b m).
Proof. intros Hm. destruct b; [exact Hm | apply preserves_ret]. Qed.

Lemma preserves_for {A} (xs : list A) (body : A -> M unit) :
  (forall x, preserves (body x)) -> preserves (for_ xs body).
Proof.
  intros Hbody. induction xs as [|x xs IH]; simpl.
  - apply preserves_ret.
  - apply preserves_bind; [apply Hbody | intros _; exact IH].
Qed.

Lemma preserves_set_training b : preserves (set_training b).
Proof.
  intros s. unfold set_training, get_graph, bind, get_self, modify_self, ret, raise.
  simpl. destruct (graph (self s)) as [g|] eqn:Hg; simpl; [|reflexivity].
  unfold forget_mode. simpl. rewrite Hg. reflexivity.
Qed.

Lemma preserves_path_exists p : preserves (path_exists p).
Proof. intros s. reflexivity. Qed.

Lemma preserves_write_file p ck : preserves (write_file p ck).
Proof. intros s. unfold write_file. destruct (writable_at _ _); reflexivity. Qed.

Lemma preserves_make_dir p : preserves (make_dir p).
Proof. intros s. unfold make_dir. destruct (os_makedirs _ _ _); reflexivity. Qed.

Lemma preserves_divides step n : preserves (divides step n).
Proof. apply preserves_bind; [apply preserves_lift | intros r; apply preserves_ret]. Qed.

Lemma preserves_divides_opt step n : preserves (divides_opt step n).
Proof. destruct n; [apply preserves_divides | apply preserves_raise]. Qed.

Lemma preserves_and a b : preserves a -> preserves b -> preserves (and_ a b).
Proof.
  intros Ha Hb. apply preserves_bind; [exact Ha|].
  intros [|]; [exact Hb | apply preserves_ret].
Qed.

Lemma preserves_or a b : preserves a -> preserves b -> preserves (or_ a b).
Proof.
  intros Ha Hb. apply preserves_bind; [exact Ha|].
  intros [|]; [apply preserves_ret | exact Hb].
Qed.

Create HintDb preserves.

#[local] Hint Resolve preserves_ret preserves_raise preserves_lift preserves_get_self
  preserves_emit preserves_call preserves_when preserves_for preserves_set_training
  preserves_path_exists preserves_write_file preserves_make_dir preserves_divides
  preserves_divides_opt preserves_and preserves_or : preserves.

(** Walks through the binds of a method, splitting on what it matches on. *)
Ltac preserves_steps :=
  repeat first
    [ solve [auto with preserves]
    | apply preserves_bind; [|intros ?]
    | apply preserves_when
    | apply preserves_and
    | apply preserves_or
    | apply preserves_for
    | match goal with
      | |- preserves (match ?x with _ => _ end) => destruct x
      | |- preserves (if ?x then _ else _) => destruct x
      | |- forall _, _ => intros ?
      end ].

Lemma preserves_get_graph : preserves get_graph.
Proof. unfold get_graph. preserves_steps. Qed.

Lemma preserves_get_optimizers : preserves get_optimizers.
Proof. unfold get_optimizers. preserves_steps. Qed.

#[local] Hint Resolve preserves_get_graph preserves_get_optimizers : preserves.

Lemma preserves_write_out_storage step : preserves (_write_out_storage step).
Proof. unfold _write_out_storage. preserves_steps. Qed.

Lemma preserves_save_checkpoint dir step : preserves (_save_checkpoint dir step).
Proof. unfold _save_checkpoint. preserves_steps. Qed.

Lemma preserves_train_iteration ri b step : preserves (train_iteration ri b step).
Proof. unfold train_iteration. preserves_steps. Qed.

Lemma preserves_test_image bundle b step : preserves (test_image bundle b step).
Proof. unfold test_image, graph_eval_, graph_train_. preserves_steps. Qed.

Lemma preserves_eval_with_dataloader dl step : preserves (eval_with_dataloader dl step).
Proof. unfold eval_with_dataloader. preserves_steps. Qed.

Lemma preserves_draw_scene_in_viewer : preserves draw_scene_in_viewer.
Proof. unfold draw_scene_in_viewer. preserves_steps. Qed.

Lemma preserves_render_image_in_viewer : preserves render_image_in_viewer.
Proof. unfold render_image_in_viewer, graph_eval_, graph_train_. preserves_steps. Qed.

#[local] Hint Resolve preserves_write_out_storage preserves_save_checkpoint
  preserves_train_iteration preserves_test_image preserves_eval_with_dataloader
  preserves_draw_scene_in_viewer preserves_render_image_in_viewer : preserves.

Lemma preserves_train_step step : preserves (train_step step).
Proof. unfold train_step. preserves_steps. Qed.

Lemma preserves_train : preserves train.
Proof.
  pose proof preserves_train_step. unfold train. preserves_steps.
Qed.

(** ** The cadence conditions of the loop *)

Lemma yields_ret v : yields (ret v) v.
Proof. intros s. reflexivity. Qed.

Lemma yields_divides step n : n <> 0 -> yields (divides step n) (step `mod` n =? 0).
Proof.
  intros Hn s. unfold divides, bind, lift, ret. rewrite mod_nonzero by exact Hn.
  reflexivity.
Qed.

Lemma yields_and a b va vb :
  yields a va -> (va = true -> yields b vb) -> yields (and_ a b) (va && vb).
Proof.
  intros Ha Hb s. unfold and_, bind. rewrite Ha. destruct va; simpl.
  - apply Hb. reflexivity.
  - reflexivity.
Qed.

Lemma yields_or a b va vb :
  yields a va -> (va = false -> yields b vb) -> yields (or_ a b) (va || vb).
Proof.
  intros Ha Hb s. unfold or_, bind. rewrite Ha. destruct va; simpl.
  - reflexivity.
  - apply Hb. reflexivity.
Qed.

Lemma yields_optional_cadence step n :
  yields (and_ (ret (truthy_int n)) (divides_opt step n)) (optional_cadence_due step n).
Proof.
  destruct n as [n|]; simpl.
  - apply yields_and; [apply yields_ret|].
    intros Hn. apply yields_divides. intros ->. discriminate.
  - intros s. reflexivity.
Qed.

Lemma optional_cadence_nonzero step n :
  step <> 0 ->
  optional_cadence_due step n
  = match n with Some n' => step `mod` n' =? 0 | None => false end.
Proof.
  intros Hstep. destruct n as [n|]; [|reflexivity]. simpl.
  destruct (Z.eqb_spec n 0) as [->|Hn]; [|reflexivity].
  simpl. rewrite Z.mod_0_r. symmetry. apply Z.eqb_neq. exact Hstep.
Qed.

Lemma log_now_yields cfg step :
  steps_per_log (logging cfg) <> 0 ->
  yields (and_ (ret (negb (step =? 0))) (divides step (steps_per_log (logging cfg))))
         (log_due cfg step).
Proof. intros H. apply yields_and; [apply yields_ret | intros _; apply yields_divides, H]. Qed.

Lemma save_now_yields cfg step :
  yields (and_ (ret (negb (step =? 0)))
            (and_ (ret (truthy_int (steps_per_save (trainer cfg))))
                  (divides_opt step (steps_per_save (trainer cfg)))))
         (save_due cfg step).
Proof.
  replace (save_due cfg step)
    with (negb (step =? 0) && optional_cadence_due step (steps_per_save (trainer cfg))).
  - apply yields_and; [apply yields_ret | intros _; apply yields_optional_cadence].
  - unfold save_due. destruct (Z.eqb_spec step 0) as [|Hs]; [reflexivity|]. simpl.
    apply optional_cadence_nonzero, Hs.
Qed.

Lemma render_now_yields cfg (va : bool) step :
  yields (and_ (ret va)
            (and_ (ret (negb (step =? 0)))
            (and_ (ret (truthy_int (steps_per_render_image (viewer cfg))))
                  (divides_opt step (steps_per_render_image (viewer cfg))))))
         (render_due cfg va step).
Proof.
  replace (render_due cfg va step)
    with (va && (negb (step =? 0)
                 && optional_cadence_due step (steps_per_render_image (viewer cfg)))).
  - apply yields_and; [apply yields_ret | intros _].
    apply yields_and; [apply yields_ret | intros _; apply yields_optional_cadence].
  - unfold render_due. destruct va; [|reflexivity].
    destruct (Z.eqb_spec step 0) as [|Hs]; [reflexivity|]. simpl.
    apply optional_cadence_nonzero, Hs.
Qed.

Lemma test_now_yields cfg step :
  steps_per_test (trainer cfg) <> 0 ->
  yields (divides step (steps_per_test (trainer cfg))) (test_due cfg step).
Proof. apply yields_divides. Qed.

(** The condition of [_write_out_storage] is the flush rule of the design
    document: at step 0 the bare [step % steps_per_log == 0] holds, and so
    does the evaluation rule. *)
Lemma flush_now_yields cfg step :
  valid_cadences cfg ->
  yields (or_ (divides step (steps_per_log (logging cfg)))
         (or_ (and_ (ret (truthy_int (steps_per_save (trainer cfg))))
                    (divides_opt step (steps_per_save (trainer cfg))))
         (or_ (divides step (steps_per_test (trainer cfg)))
              (ret (step =? max_num_iterations (trainer cfg))))))
         (flush_due cfg step).
Proof.
  intros [Hlog Htest].
  replace (flush_due cfg step)
    with ((step `mod` steps_per_log (logging cfg) =? 0)
          || (optional_cadence_due step (steps_per_save (trainer cfg))
          || ((step `mod` steps_per_test (trainer cfg) =? 0)
          || (step =? max_num_iterations (trainer cfg))))).
  - apply yields_or; [apply yields_divides, Hlog | intros _].
    apply yields_or; [apply yields_optional_cadence | intros _].
    apply yields_or; [apply yields_divides, Htest | intros _; apply yields_ret].
  - unfold flush_due, log_due, save_due, test_due.
    destruct (Z.eqb_spec step 0) as [->|Hs].
    + rewrite !Z.mod_0_l by assumption. reflexivity.
    + rewrite (optional_cadence_nonzero _ _ Hs). simpl.
      rewrite !orb_assoc. reflexivity.
Qed.

Lemma returns_yields (m : M bool) v s (post : bool -> State -> Prop) :
  yields m v -> post v s -> returns m s post.
Proof. intros Hm H. exists v, s. split; [apply Hm | exact H]. Qed.

(** ** The methods, when nothing raises *)

Lemma same_disk_refl s : same_disk s s.
Proof. reflexivity. Qed.

Lemma same_disk_trans s1 s2 s3 : same_disk s1 s2 -> same_disk s2 s3 -> same_disk s1 s3.
Proof. unfold same_disk. congruence. Qed.

Lemma same_disk_event e s : same_disk s (add_event e s).
Proof. reflexivity. Qed.

Lemma same_disk_viewer_event e s : is_viewer_call e = false -> same_disk s (add_event e s).
Proof. reflexivity. Qed.

Lemma same_disk_self f s : same_disk s (set_self f s).
Proof. reflexivity. Qed.

(** Applies the general lemma of a method that does not touch the disk. *)
Ltac disk_method lem :=
  apply (lem same_disk);
  first [ exact same_disk_refl | exact same_disk_trans | exact same_disk_viewer_event
        | exact same_disk_event | exact same_disk_self ].

Lemma returns_advances {A} (m : M A) s acts :
  preserves m ->
  respects same_disk m ->
  returns m s (fun _ s' => actions (trace s') = actions (trace s) ++ acts) ->
  returns m s (fun _ s' => advances s acts s').
Proof.
  intros Hp Hd (a & s' & Hm & Hacts). exists a, s'. split; [exact Hm|].
  specialize (Hp s). specialize (Hd s). rewrite Hm in Hp, Hd.
  unfold same_disk in Hd. simpl in Hp, Hd.
  split; [exact Hp|]. split; [exact Hacts|]. unfold keeps_checkpoint_dir. rewrite Hd.
  intros H. exact H.
Qed.

Lemma returns_get_graph s g (post : Graph -> State -> Prop) :
  graph (self s) = Some g -> post g s -> returns get_graph s post.
Proof.
  intros Hg H. exists g, s. split; [|exact H].
  unfold get_graph, bind, get_self, ret. rewrite Hg. reflexivity.
Qed.

Lemma returns_get_optimizers s o (post : unit -> State -> Prop) :
  optimizers (self s) = Some o -> post o s -> returns get_optimizers s post.
Proof.
  intros Ho H. exists o, s. split; [|exact H].
  unfold get_optimizers, bind, get_self, ret. rewrite Ho. reflexivity.
Qed.

Lemma returns_set_training b s g (post : unit -> State -> Prop) :
  graph (self s) = Some g ->
  post tt (set_self (with_graph (Some {| training := b; wrapped := wrapped g;
                                         callbacks := callbacks g |})) s) ->
  returns (set_training b) s post.
Proof.
  intros Hg H. unfold set_training. apply returns_bind.
  eapply returns_get_graph; [exact Hg|]. apply returns_modify_self. exact H.
Qed.

Lemma returns_path_exists p s (post : bool -> State -> Prop) :
  (forall ex, post ex s) -> returns (path_exists p) s post.
Proof. intros H. eexists _, s. split; [reflexivity | apply H]. Qed.

Lemma actions_after_steps (cbs : list Callback) (step : Z) :
  actions ((fun cb => after_step cb step) <$> cbs) = [].
Proof. induction cbs as [|cb cbs IH]; [reflexivity | exact IH]. Qed.

(** Brings the actions of a log built by appending events to the front. *)
Ltac actions_calc :=
  simpl; unfold actions; rewrite ?omap_app; simpl;
  rewrite <- ?app_assoc, ?app_nil_r; simpl; try reflexivity.

Section Cooperative.

Hypothesis HC : cooperative.

(** Answers a call on a collaborator from what [cooperative] promises. *)
Ltac answer_call :=
  lazymatch goal with
  | |- returns (call _ next_or_stop) ?s _ =>
      let item := fresh "item" in let Hn := fresh "Hn" in
      destruct (coop_next HC (trace s)) as [item Hn];
      eapply (returns_call _ _ item); [unfold next_or_stop; rewrite Hn; reflexivity|]
  | |- returns (call _ (fun h => get_outputs_ h ?b)) ?s _ =>
      let o := fresh "o" in let Ho := fresh "Ho" in
      destruct (coop_get_outputs HC (trace s) b) as [o Ho];
      eapply returns_call; [exact Ho|]
  | |- returns (call _ (fun h => log_test_image_ h ?i ?step ?b ?o)) ?s _ =>
      let p := fresh "p" in let Hp := fresh "Hp" in
      destruct (coop_log_test_image HC (trace s) i step b o) as [p Hp];
      eapply returns_call; [exact Hp|]
  | |- returns (call _ viewer_camera_) ?s _ =>
      let b := fresh "b" in let Hb := fresh "Hb" in
      destruct (coop_viewer_camera HC (trace s)) as [b Hb];
      eapply returns_call; [exact Hb|]
  | |- returns (call _ (fun h => viewer_set_image_ h _)) _ _ =>
      eapply returns_call; [apply (coop_viewer_set_image HC)|]
  | |- returns (call _ draw_scene_) _ _ =>
      eapply returns_call; [apply (coop_draw_scene HC)|]
  | |- returns (call _ (fun h => Ok _)) _ _ =>
      eapply returns_call; [reflexivity|]
  end.

(** One step through the body of a method. *)
Ltac run :=
  repeat lazymatch goal with
    | |- returns (bind _ _) _ _ => apply returns_bind
    | |- returns (emit _) _ _ => apply returns_emit
    | |- returns (ret _) _ _ => apply returns_ret
    | |- returns get_self _ _ => apply returns_get_self
    | |- returns (modify_self _) _ _ => apply returns_modify_self
    | |- returns get_graph _ _ =>
        eapply returns_get_graph; [simpl; try eassumption; reflexivity|]
    | |- returns get_optimizers _ _ =>
        eapply returns_get_optimizers; [simpl; eassumption|]
    | |- returns (set_training _) _ _ =>
        eapply returns_set_training; [simpl; try eassumption; reflexivity|]
    | |- returns (call _ _) _ _ => answer_call
    end.

Lemma train_iteration_returns ri b step s :
  ready (self s) ->
  returns (train_iteration ri b step) s (fun _ s' => advances s [Iterate step] s').
Proof.
  intros (_ & _ & [g Hg] & [o Ho]).
  destruct (coop_forward HC (trace s ++ [Call_train_iteration step]) ri b)
    as (out & ld & l & Hf & Hl).
  apply returns_advances;
    [apply preserves_train_iteration | disk_method respects_train_iteration|].
  eexists _, _. split.
  - eapply train_iteration_run; eauto using coop_backward.
  - simpl. unfold iteration_log. rewrite !actions_app, actions_after_steps.
    reflexivity.
Qed.

Lemma write_out_storage_returns step s :
  valid_cadences (config (self s)) ->
  returns (_write_out_storage step) s
    (fun _ s' => advances s ([FlushCall step] ++ due (flush_due (config (self s)) step) Flush) s').
Proof.
  intros Hv. apply returns_advances;
    [apply preserves_write_out_storage | disk_method respects_write_out_storage|].
  unfold _write_out_storage. run.
  eapply returns_yields; [apply flush_now_yields; exact Hv|]. simpl.
  destruct (flush_due (config (self s)) step); simpl; run; actions_calc.
Qed.

Lemma save_checkpoint_run dir step s g o d :
  is_main_process = true ->
  graph (self s) = Some g ->
  optimizers (self s) = Some o ->
  resolve (fs s) dir = Ok d ->
  is_dir (fs s) d = true ->
  is_dir (fs s) (d ++ [ckpt_name step]) = false ->
  exists ck,
    _save_checkpoint dir step s
    = (Ok tt, {| self := self s;
                 fs := with_file (d ++ [ckpt_name step]) ck (fs s);
                 trace := trace s ++ [Call_save_checkpoint dir step; state_dict (wrapped g);
                                      optimizer_state_dicts;
                                      torch_save (os_path_join dir (ckpt_name step))] |})
    /\ ck_step ck = step.
Proof.
  intros Hmain Hg Ho Hres Hdir Hfree. eexists. split.
  - unfold _save_checkpoint, path_exists, make_dir, write_file, get_graph, get_optimizers.
    unfold when, bind, emit, call, get_self, ret, raise. simpl.
    rewrite Hmain. simpl. unfold exists_on, present. rewrite Hres, Hdir. simpl.
    rewrite Hg. simpl. rewrite Ho. simpl.
    unfold writable_at. rewrite (resolve_join _ _ _ _ Hres Hdir), Hfree. simpl.
    unfold add_event, set_fs. simpl. rewrite <- !app_assoc. reflexivity.
  - reflexivity.
Qed.

Lemma save_checkpoint_run_fresh dir step s g o f' d :
  is_main_process = true ->
  graph (self s) = Some g ->
  optimizers (self s) = Some o ->
  exists_on (fs s) dir = false ->
  os_makedirs (String.length dir) dir (fs s) = (Ok tt, f') ->
  resolve f' dir = Ok d ->
  is_dir f' d = true ->
  is_dir f' (d ++ [ckpt_name step]) = false ->
  exists ck,
    _save_checkpoint dir step s
    = (Ok tt, {| self := self s;
                 fs := with_file (d ++ [ckpt_name step]) ck f';
                 trace := trace s ++ [Call_save_checkpoint dir step; makedirs dir;
                                      state_dict (wrapped g); optimizer_state_dicts;
                                      torch_save (os_path_join dir (ckpt_name step))] |})
    /\ ck_step ck = step.
Proof.
  intros Hmain Hg Ho Hex Hmk Hres Hdir Hfree. eexists. split.
  - unfold _save_checkpoint, path_exists, make_dir, write_file, get_graph, get_optimizers.
    unfold when, bind, emit, call, get_self, ret, raise. simpl.
    rewrite Hmain. simpl. rewrite Hex. simpl. rewrite Hmk. simpl.
    rewrite Hg. simpl. rewrite Ho. simpl.
    unfold writable_at. rewrite (resolve_join _ _ _ _ Hres Hdir), Hfree. simpl.
    unfold add_event, set_fs. simpl. rewrite <- !app_assoc. reflexivity.
  - reflexivity.
Qed.

Lemma save_checkpoint_returns dir step s :
  ready (self s) ->
  dir = model_dir (trainer (config (self s))) ->
  (is_main_process = true -> checkpoint_dir_ready (fs s) dir) ->
  returns (_save_checkpoint dir step) s (fun _ s' => advances s [Save step] s').
Proof.
  intros (_ & _ & [g Hg] & [o Ho]) Hmodel Hdisk.
  destruct is_main_process eqn:Hmain.
  - destruct (Hdisk eq_refl) as [Hthere | (Hex & f' & Hmk & Hthere)].
    + pose proof Hthere as (d & Hres & Hdir & Hfree).
      destruct (save_checkpoint_run dir step s g o d Hmain Hg Ho Hres Hdir (Hfree step))
        as (ck & Hrun & _).
      eexists tt, _. split; [exact Hrun|].
      split; [reflexivity|]. split; [actions_calc|].
      intros _. left. rewrite <- Hmodel.
      eapply checkpoint_dir_same_dirs; [| |exact Hthere]; reflexivity.
    + pose proof Hthere as (d & Hres & Hdir & Hfree).
      destruct (save_checkpoint_run_fresh dir step s g o f' d Hmain Hg Ho Hex Hmk Hres Hdir
                  (Hfree step)) as (ck & Hrun & _).
      eexists tt, _. split; [exact Hrun|].
      split; [reflexivity|]. split; [actions_calc|].
      intros _. left. rewrite <- Hmodel.
      eapply checkpoint_dir_same_dirs; [| |exact Hthere]; reflexivity.
  - eexists tt, _. split.
    + unfold _save_checkpoint, when, bind, emit, ret. rewrite Hmain. reflexivity.
    + apply (advances_event s (Call_save_checkpoint dir step)).
Qed.

Lemma test_image_returns bundle b step s :
  ready (self s) ->
  returns (test_image bundle b step) s (fun _ s' => advances s [] s').
Proof.
  intros (_ & _ & [g Hg] & _).
  apply returns_advances; [apply preserves_test_image | disk_method respects_test_image|].
  destruct (coop_camera_index HC bundle) as [i Hi].
  unfold test_image, graph_eval_, graph_train_. run.
  eapply returns_lift; [exact Hi|]. run. actions_calc.
Qed.

Lemma eval_with_dataloader_returns items step s :
  ready (self s) ->
  returns (eval_with_dataloader (Some items) step) s
    (fun _ s' => advances s [Evaluate step] s').
Proof.
  intros Hr. unfold eval_with_dataloader. run.
  apply (returns_for (fun _ s' => advances s [Evaluate step] s')).
  - apply advances_event.
  - intros _ [bundle b] s1 H1. simpl.
    apply returns_bind. eapply returns_weaken.
    + apply test_image_returns. eapply frame_ready; [apply H1 | exact Hr].
    + intros p s2 H2. apply returns_ret.
      eapply advances_step; [exact H1 | exact H2 | reflexivity].
Qed.

Lemma render_image_in_viewer_returns s :
  ready (self s) ->
  is_Some (vis (self s)) ->
  returns render_image_in_viewer s (fun _ s' => advances s [Render] s').
Proof.
  intros (_ & _ & [g Hg] & _) [v Hvis].
  apply returns_advances;
    [apply preserves_render_image_in_viewer | disk_method respects_render_image_in_viewer|].
  unfold render_image_in_viewer, graph_eval_, graph_train_. run. simpl. rewrite Hvis.
  run. actions_calc.
Qed.

Lemma draw_scene_in_viewer_returns s :
  returns draw_scene_in_viewer s (fun _ s' => advances s [Draw] s').
Proof.
  apply returns_advances;
    [apply preserves_draw_scene_in_viewer | disk_method respects_draw_scene_in_viewer|].
  unfold draw_scene_in_viewer. run. actions_calc.
Qed.

(** ** One step of the loop, and the loop *)

Lemma returns_stage {A} (m : M A) s0 s acc acts (post : A -> State -> Prop) :
  advances s0 acc s ->
  returns m s (fun _ s' => advances s acts s') ->
  (forall a s', advances s0 (acc ++ acts) s' -> post a s') ->
  returns m s post.
Proof.
  intros Hacc Hm Hpost. eapply returns_weaken; [exact Hm|].
  intros a s' H. apply Hpost. eapply advances_trans; eassumption.
Qed.

Lemma returns_when_due (b : bool) (m : M unit) a s0 s acc (post : unit -> State -> Prop) :
  advances s0 acc s ->
  (b = true -> returns m s (fun _ s' => advances s [a] s')) ->
  (forall s', advances s0 (acc ++ due b a) s' -> post tt s') ->
  returns (when b m) s post.
Proof.
  intros Hacc Hm Hpost. destruct b; simpl.
  - eapply returns_stage; [exact Hacc | apply Hm; reflexivity|].
    intros [] s' H. apply Hpost, H.
  - apply returns_ret, Hpost. rewrite app_nil_r. exact Hacc.
Qed.

Lemma can_save_advances s acts s' step :
  advances s acts s' -> can_save s step -> can_save s' step.
Proof.
  intros Hadv Hsave. unfold can_save.
  rewrite (frame_config _ _ (proj1 Hadv)). intros Hdue Hmain.
  eapply advances_checkpoint_dir; [exact Hadv | apply Hsave; assumption].
Qed.

Lemma train_step_returns step s :
  ready (self s) ->
  valid_cadences (config (self s)) ->
  can_save s step ->
  returns (train_step step) s
    (fun _ s' => advances s (step_actions (config (self s))
                                          (bool_decide (is_Some (vis (self s)))) step) s').
Proof.
  intros Hr Hv Hsave.
  assert (Hframe : forall acc s', advances s acc s' ->
            ready (self s') /\ config (self s') = config (self s)
            /\ vis (self s') = vis (self s)).
  { intros acc s' [Hf _]. split; [eapply frame_ready; eassumption|].
    split; [apply frame_config, Hf | apply frame_vis, Hf]. }
  unfold train_step. apply returns_bind. answer_call. destruct item as [ri b].
  pose proof (advances_event s next_batch) as Hacc. simpl actions in Hacc.
  apply returns_bind.
  eapply returns_stage; [exact Hacc | apply train_iteration_returns, (proj1 (Hframe _ _ Hacc))|].
  clear Hacc. intros ld s1 Hacc.
  apply returns_bind, returns_emit.
  assert (Hacc1 : advances s ([Fetch] ++ [Iterate step]) (add_event (put_scalar step) s1)).
  { eapply advances_step; [exact Hacc | apply advances_event | reflexivity]. }
  clear Hacc. destruct (Hframe _ _ Hacc1) as (Hr1 & Hc1 & Hv1).
  apply returns_bind, returns_get_self. rewrite Hc1, Hv1.
  apply returns_bind.
  eapply returns_yields; [apply log_now_yields, Hv|].
  apply returns_bind.
  eapply (returns_when_due _ _ (Log step));
    [exact Hacc1 | intros _; run; apply (advances_event _ (put_dict ld step))|].
  clear Hacc1 Hr1 Hc1 Hv1. intros s2 Hacc.
  apply returns_bind.
  eapply returns_yields; [apply save_now_yields|].
  apply returns_bind.
  eapply (returns_when_due _ _ (Save step)); [exact Hacc | intros Hdue |].
  { destruct (Hframe _ _ Hacc) as (Hr2 & Hc2 & _).
    apply save_checkpoint_returns; [exact Hr2 | rewrite Hc2; reflexivity|].
    intros Hmain. eapply advances_checkpoint_dir; [exact Hacc|].
    apply Hsave; assumption. }
  clear Hacc. intros s3 Hacc.
  apply returns_bind.
  eapply returns_yields; [apply render_now_yields|].
  apply returns_bind.
  eapply (returns_when_due _ _ Render); [exact Hacc | intros Hrender |].
  { destruct (Hframe _ _ Hacc) as (Hr3 & _ & Hv3).
    assert (Hvis : is_Some (vis (self s3))).
    { rewrite Hv3. unfold render_due in Hrender.
      apply andb_prop in Hrender as [Hrender _].
      apply andb_prop in Hrender as [Hactive _].
      apply bool_decide_eq_true_1 in Hactive. exact Hactive. }
    apply returns_bind. eapply returns_weaken;
      [apply render_image_in_viewer_returns; assumption|].
    intros o s4 H4. apply returns_ret, H4. }
  clear Hacc. intros s4 Hacc.
  apply returns_bind.
  eapply returns_yields; [apply test_now_yields, Hv|].
  apply returns_bind.
  eapply (returns_when_due _ _ (Evaluate step)); [exact Hacc | intros _ |].
  { destruct (Hframe _ _ Hacc) as (Hr4 & _ & _).
    apply returns_bind, returns_get_self.
    destruct Hr4 as (? & [items Hitems] & ? & ?). rewrite Hitems.
    apply eval_with_dataloader_returns. unfold ready. rewrite Hitems. eauto. }
  clear Hacc. intros s5 Hacc.
  destruct (Hframe _ _ Hacc) as (Hr5 & Hc5 & _).
  eapply returns_stage; [exact Hacc | apply write_out_storage_returns; rewrite Hc5; exact Hv|].
  intros [] s6 H6. rewrite Hc5 in H6.
  unfold step_actions. rewrite <- !app_assoc in H6. exact H6.
Qed.

(** The loop over the steps [xs]. *)
Lemma train_loop_returns (xs : list Z) s :
  ready (self s) ->
  valid_cadences (config (self s)) ->
  (forall step, In step xs -> can_save s step) ->
  returns (for_ xs train_step) s
    (fun _ s' => advances s
       (concat (step_actions (config (self s)) (bool_decide (is_Some (vis (self s))))
                  <$> xs)) s').
Proof.
  intros Hr Hv Hsave.
  apply (returns_for_in (fun done s' => advances s
           (concat (step_actions (config (self s)) (bool_decide (is_Some (vis (self s))))
                      <$> done)) s')).
  - apply advances_refl.
  - intros done step s1 Hin H1.
    pose proof (frame_config _ _ (proj1 H1)) as Hc1.
    pose proof (frame_vis _ _ (proj1 H1)) as Hv1.
    eapply returns_stage; [exact H1 | apply train_step_returns|].
    + eapply frame_ready; [apply H1 | exact Hr].
    + rewrite Hc1. exact Hv.
    + eapply can_save_advances; [exact H1 | apply Hsave, Hin].
    + intros [] s2 H2. rewrite Hc1, Hv1 in H2.
      rewrite fmap_app, concat_app. simpl. rewrite app_nil_r. exact H2.
Qed.

Lemma train_returns s :
  ready (self s) ->
  valid_cadences (config (self s)) ->
  (forall step,
     In step (steps (start_step (self s)) (max_num_iterations (trainer (config (self s))))) ->
     can_save s step) ->
  returns train s
    (fun _ s' => advances s (train_actions (config (self s))
                                           (bool_decide (is_Some (vis (self s))))
                                           (start_step (self s))) s').
Proof.
  intros Hr Hv Hsave.
  assert (Hframe : forall acc s', advances s acc s' ->
            ready (self s') /\ config (self s') = config (self s)
            /\ vis (self s') = vis (self s)
            /\ start_step (self s') = start_step (self s)).
  { intros acc s' [Hf _]. split; [eapply frame_ready; eassumption|].
    split; [apply frame_config, Hf|].
    split; [apply frame_vis, Hf | apply frame_start_step, Hf]. }
  unfold train. apply returns_bind, returns_get_self.
  apply returns_bind.
  eapply (returns_when_due _ _ Draw);
    [apply advances_refl | intros _; apply draw_scene_in_viewer_returns|].
  intros s1 Hacc. simpl app in Hacc.
  destruct (Hframe _ _ Hacc) as (Hr1 & Hc1 & Hv1 & Hs1).
  apply returns_bind.
  destruct Hr as ([u Hu] & Hr'). rewrite Hu.
  apply returns_emit.
  assert (Hacc2 : advances s (due (bool_decide (is_Some (vis (self s)))) Draw)
                    (add_event iter_dataloader s1)).
  { eapply advances_step; [exact Hacc | apply advances_event | symmetry; apply app_nil_r]. }
  clear Hacc. destruct (Hframe _ _ Hacc2) as (Hr2 & Hc2 & Hv2 & Hs2).
  apply returns_bind, returns_get_self. rewrite Hs2, range_steps.
  apply returns_bind.
  eapply returns_stage; [exact Hacc2 | apply train_loop_returns|].
  - exact Hr2.
  - rewrite Hc2. exact Hv.
  - intros step Hin. eapply can_save_advances; [exact Hacc2 | apply Hsave, Hin].
  - intros [] s3 Hacc3. rewrite Hc2, Hv2 in Hacc3.
    destruct (Hframe _ _ Hacc3) as (Hr3 & Hc3 & Hv3 & Hs3).
    eapply returns_stage; [exact Hacc3 | apply write_out_storage_returns; rewrite Hc3; exact Hv|].
    intros [] s4 Hacc4. rewrite Hc3 in Hacc4.
    unfold train_actions.
    assert (Hflush : flush_due (config (self s)) (max_num_iterations (trainer (config (self s))))
                     = true).
    { unfold flush_due. rewrite Z.eqb_refl. apply orb_true_r. }
    rewrite Hflush in Hacc4. simpl due in Hacc4.
    rewrite <- !app_assoc in Hacc4. exact Hacc4.
Qed.

End Cooperative.

(** ** The constructor *)

(** C10: the constructor picks the device ["cpu"] exactly when [world_size]
    is 0; for every [world_size >= 1], the non-distributed [world_size = 1]
    included, the device is ["cuda:{local_rank}"]. *)
Theorem device_cpu_iff_world_size_zero cfg rank size fs0 :
  (device (self (__init__ cfg rank size fs0)) = "cpu" <-> size = 0)
  /\ (1 <= size -> device (self (__init__ cfg rank size fs0)) = "cuda:" +:+ str rank).
Proof.
  simpl. destruct (Z.eqb_spec size 0) as [->|Hsize].
  - split; [tauto | lia].
  - split; [|reflexivity]. split; [discriminate | contradiction].
Qed.

(** ** One training iteration *)

(** C4: for every batch and step, [train_iteration] runs the forward pass,
    zeroes the gradients, backpropagates through the [aggregated_loss] entry
    of the loss dictionary, steps the optimizers, steps the schedulers with
    the global step, calls every registered callback with the step, in this
    order, and returns the loss dictionary of the forward pass as it is. *)
Theorem train_iteration_sequence ri b step s g o out ld l :
  graph (self s) = Some g ->
  optimizers (self s) = Some o ->
  forward_ (trace s ++ [Call_train_iteration step]) ri b = Ok (out, ld) ->
  ld !! "aggregated_loss" = Some l ->
  backward_ (trace s ++ [Call_train_iteration step; forward ri b; zero_grad_all]) l = Ok tt ->
  exists s',
    train_iteration ri b step s = (Ok ld, s')
    /\ self s' = self s
    /\ trace s' = trace s ++ [Call_train_iteration step; forward ri b; zero_grad_all;
                              backward l; optimizer_step_all; scheduler_step_all step]
                           ++ ((fun cb => after_step cb step) <$> callbacks g).
Proof.
  intros Hg Ho Hf Hl Hb. eexists. split.
  - eapply train_iteration_run; eassumption.
  - split; reflexivity.
Qed.

(** C9: when the loss dictionary of the forward pass has no
    ["aggregated_loss"] entry, [train_iteration] raises a [KeyError] after
    the forward pass and before any call on the optimizers, the schedulers
    or the callbacks: the log gains the forward pass only, and the trainer
    is unchanged. *)
Theorem train_iteration_missing_aggregated_loss ri b step s out ld :
  is_Some (graph (self s)) ->
  forward_ (trace s ++ [Call_train_iteration step]) ri b = Ok (out, ld) ->
  ld !! "aggregated_loss" = None ->
  exists s',
    train_iteration ri b step s = (Raise (KeyError "aggregated_loss"), s')
    /\ trace s' = trace s ++ [Call_train_iteration step; forward ri b]
    /\ optimizer_calls (trace s') = optimizer_calls (trace s)
    /\ self s' = self s.
Proof.
  intros [g Hg] Hf Hl. eexists. split; [|split; [|split]].
  - unfold train_iteration, get_graph.
    unfold bind, emit, get_self, call, ret, raise.
    simpl. rewrite Hg. simpl. rewrite Hf. simpl. rewrite Hl. reflexivity.
  - simpl. rewrite <- app_assoc. reflexivity.
  - simpl. unfold optimizer_calls. rewrite !List.filter_app. simpl.
    rewrite !app_nil_r. reflexivity.
  - reflexivity.
Qed.

(** ** Evaluation and the mode of the graph *)

Lemma test_image_outcome bundle b step s r s' :
  is_Some (graph (self s)) ->
  test_image bundle b step s = (r, s') ->
  mode s' = Some (is_ok r).
Proof.
  intros [g Hg]. unfold test_image, graph_eval_, graph_train_, set_training, get_graph.
  unfold bind, emit, call, lift, get_self, modify_self, ret, raise. simpl.
  rewrite Hg. simpl.
  destruct (camera_index_ bundle) as [i|e]; simpl; [|intros [= <- <-]; reflexivity].
  destruct (get_outputs_ _ bundle) as [o|e]; simpl; [|intros [= <- <-]; reflexivity].
  destruct (log_test_image_ _ i step b o) as [p|e]; simpl; intros [= <- <-]; reflexivity.
Qed.



(** ** [setup] and the resumption cursor *)

(** Unfolds [setup] and the helpers it runs down to the state. *)
Ltac unfold_setup :=
  unfold setup, _load_checkpoint, read_file, path_exists, get_graph, get_optimizers;
  unfold when, bind, emit, call, lift, get_self, modify_self, ret, raise.

Lemma resume_path_load_dir cfg path :
  resume_path cfg = Some path ->
  exists dir,
    load_dir (resume_train (trainer cfg)) = Some dir
    /\ truthy_str (Some dir) = true
    /\ path = os_path_join dir (ckpt_name (load_step (resume_train (trainer cfg)))).
Proof.
  unfold resume_path. destruct (load_dir _) as [dir|] eqn:Hdir.
  - destruct (truthy_str (Some dir)) eqn:Ht; [|discriminate].
    intros [= <-]. exists dir. auto.
  - simpl. discriminate.
Qed.

Lemma resume_path_none cfg :
  resume_path cfg = None -> truthy_str (load_dir (resume_train (trainer cfg))) = false.
Proof.
  unfold resume_path. destruct (truthy_str _) eqn:Ht; [|reflexivity].
  destruct (load_dir _) as [dir|]; discriminate.
Qed.

Lemma stored_exists (f : FileSystem) p ck : stored f p = Some ck -> exists_on f p = true.
Proof.
  unfold stored, exists_on, present, is_file. destruct (resolve f p) as [l|e]; [|discriminate].
  destruct (is_dir f l); [discriminate|]. intros Hfile. simpl.
  apply bool_decide_eq_true_2. rewrite Hfile. eexists. reflexivity.
Qed.

Lemma setup_outcome test_mode s :
  match resume_path (config (self s)) with
  | None =>
      (setup test_mode s).1 = setup_end (self s)
      /\ start_step (self (setup test_mode s).2) = start_step (self s)
  | Some path =>
      if exists_on (fs s) path then
        match stored (fs s) path with
        | Some ck =>
            (setup test_mode s).1 = setup_end (self s)
            /\ start_step (self (setup test_mode s).2) = ck_step ck + 1
        | None =>
            (setup test_mode s).1 = Raise (External "IsADirectoryError")
            /\ start_step (self (setup test_mode s).2) = start_step (self s)
        end
      else
        (setup test_mode s).1
          = Raise (AssertionError ("Checkpoint " +:+ path +:+ " does not exist"))
        /\ start_step (self (setup test_mode s).2) = start_step (self s)
  end.
Proof.
  destruct (resume_path (config (self s))) as [path|] eqn:Hpath.
  - destruct (resume_path_load_dir _ _ Hpath) as (dir & Hdir & Ht & ->).
    unfold setup_end. unfold_setup. simpl. rewrite Hdir, Ht. simpl. rewrite Hdir. simpl.
    destruct (exists_on (fs s) _); simpl; [|split; reflexivity].
    destruct (stored (fs s) _) as [ck|]; simpl; [|split; reflexivity].
    destruct (world_size (self s) >? 1); simpl; split; reflexivity.
  - unfold setup_end. unfold_setup. simpl. rewrite (resume_path_none _ Hpath). simpl.
    destruct (world_size (self s) >? 1); simpl; split; reflexivity.
Qed.


Lemma setup_start_step test_mode s :
  start_step (self (setup test_mode s).2)
  = match resume_checkpoint (config (self s)) (fs s) with
    | Some ck => ck_step ck + 1
    | None => start_step (self s)
    end.
Proof.
  pose proof (setup_outcome test_mode s) as H. unfold resume_checkpoint.
  destruct (resume_path (config (self s))) as [path|]; simpl; [|apply H].
  destruct (stored (fs s) path) as [ck|] eqn:Hstored.
  - rewrite (stored_exists _ _ _ Hstored) in H. apply H.
  - destruct (exists_on (fs s) path); apply H.
Qed.




(** C5: after construction and [setup], [start_step] is one more than the
    step of the checkpoint that [setup] loaded, and 0 when it loaded none;
    no other method changes [start_step], however it ends. *)
Theorem start_step_invariant cfg rank size fs0 test_mode :
  start_step (self (__init__ cfg rank size fs0)) = 0
  /\ start_step (self (setup test_mode (__init__ cfg rank size fs0)).2)
     = match resume_checkpoint cfg fs0 with
       | Some ck => ck_step ck + 1
       | None => 0
       end
  /\ (forall s, start_step (self (train s).2) = start_step (self s))
  /\ (forall ri b step s,
        start_step (self (train_iteration ri b step s).2) = start_step (self s))
  /\ (forall bundle b step s,
        start_step (self (test_image bundle b step s).2) = start_step (self s))
  /\ (forall dl step s,
        start_step (self (eval_with_dataloader dl step s).2) = start_step (self s))
  /\ (forall dir step s,
        start_step (self (_save_checkpoint dir step s).2) = start_step (self s))
  /\ (forall step s,
        start_step (self (_write_out_storage step s).2) = start_step (self s))
  /\ (forall s, start_step (self (render_image_in_viewer s).2) = start_step (self s))
  /\ (forall s, start_step (self (draw_scene_in_viewer s).2) = start_step (self s)).
Proof.
  split; [reflexivity|]. split.
  - apply (setup_start_step test_mode (__init__ cfg rank size fs0)).
  - repeat apply conj; intros; apply frame_start_step;
      first [ apply preserves_train | apply preserves_train_iteration
            | apply preserves_test_image | apply preserves_eval_with_dataloader
            | apply preserves_save_checkpoint | apply preserves_write_out_storage
            | apply preserves_render_image_in_viewer
            | apply preserves_draw_scene_in_viewer ].
Qed.

(** ** The step loop *)

Lemma fetches_and_iterations_step cfg va step :
  fetches_and_iterations (step_actions cfg va step) = [Fetch; Iterate step].
Proof.
  unfold step_actions, due.
  destruct (log_due cfg step), (save_due cfg step), (render_due cfg va step),
    (test_due cfg step), (flush_due cfg step); reflexivity.
Qed.

Lemma filter_concat_fmap {A B} (f : B -> bool) (g h : A -> list B) (l : list A) :
  (forall x, List.filter f (g x) = h x) ->
  List.filter f (concat (g <$> l)) = concat (h <$> l).
Proof.
  intros Hgh. induction l as [|x l IH]; [reflexivity|].
  rewrite !fmap_cons, !concat_cons, List.filter_app, IH, Hgh. reflexivity.
Qed.

Lemma fetches_and_iterations_steps cfg va (l : list Z) :
  fetches_and_iterations (concat (step_actions cfg va <$> l))
  = concat ((fun step => [Fetch; Iterate step]) <$> l).
Proof. apply filter_concat_fmap. intros step. apply fetches_and_iterations_step. Qed.

Lemma fetches_and_iterations_train cfg va start :
  fetches_and_iterations (train_actions cfg va start)
  = concat ((fun step => [Fetch; Iterate step])
              <$> steps start (max_num_iterations (trainer cfg))).
Proof.
  unfold train_actions, fetches_and_iterations.
  rewrite !List.filter_app. fold (fetches_and_iterations
    (concat (step_actions cfg va <$> steps start (max_num_iterations (trainer cfg))))).
  rewrite fetches_and_iterations_steps.
  destruct va; simpl; rewrite app_nil_r; reflexivity.
Qed.

Lemma iterated_steps_interleaved (l : list Z) :
  iterated_steps (concat ((fun step => [Fetch; Iterate step]) <$> l)) = l.
Proof. induction l as [|step l IH]; [reflexivity|]. simpl. f_equal. exact IH. Qed.

Lemma iterated_steps_filtered (acts : list action) :
  iterated_steps (fetches_and_iterations acts) = iterated_steps acts.
Proof.
  induction acts as [|a acts IH]; [reflexivity|].
  destruct a; simpl; try exact IH. f_equal. exact IH.
Qed.

Lemma steps_increasing start n : StronglySorted Z.lt (steps start n).
Proof.
  unfold steps. generalize (Z.to_nat n) as k. intros k.
  induction k as [|k IH]; [constructor|].
  rewrite seq_S, fmap_app. simpl.
  apply StronglySorted_app_2; [|exact IH | repeat constructor].
  intros x y Hx Hy. apply list_elem_of_fmap in Hx as (i & -> & Hi).
  apply list_elem_of_singleton in Hy as ->.
  apply elem_of_seq in Hi. lia.
Qed.

Lemma flush_in_step_actions cfg va step :
  In Flush (step_actions cfg va step) <-> flush_due cfg step = true.
Proof.
  unfold step_actions, due. destruct (flush_due cfg step);
    destruct (log_due cfg step), (save_due cfg step), (render_due cfg va step),
      (test_due cfg step); simpl; intuition discriminate.
Qed.

Lemma cadence_actions_step cfg va step :
  cadence_actions (step_actions cfg va step)
  = due (log_due cfg step) (Log step) ++ due (save_due cfg step) (Save step)
    ++ due (test_due cfg step) (Evaluate step)
    ++ [FlushCall step] ++ due (flush_due cfg step) Flush.
Proof.
  unfold step_actions, due.
  destruct (log_due cfg step), (save_due cfg step), (render_due cfg va step),
    (test_due cfg step), (flush_due cfg step); reflexivity.
Qed.

Lemma cadence_actions_steps cfg va (l : list Z) :
  cadence_actions (concat (step_actions cfg va <$> l))
  = concat ((fun step =>
               due (log_due cfg step) (Log step) ++ due (save_due cfg step) (Save step)
               ++ due (test_due cfg step) (Evaluate step)
               ++ [FlushCall step] ++ due (flush_due cfg step) Flush) <$> l).
Proof. apply filter_concat_fmap. intros step. apply cadence_actions_step. Qed.

Section Runs.

Hypothesis HC : cooperative.

(** C1, as the code has it: for every configuration whose [steps_per_log]
    and [steps_per_test] are not zero and every [start_step], as long as no
    collaborator raises and the checkpoints that fall due can be written
    (their directory is there), [train] runs exactly the steps
    [start_step], [start_step + 1], ..., [start_step + max_num_iterations
    - 1], in strictly increasing order, each once, and fetches exactly one
    batch before the training iteration of each step. *)
Theorem train_runs_every_step_once s :
  ready (self s) ->
  valid_cadences (config (self s)) ->
  (forall step,
     In step (steps (start_step (self s)) (max_num_iterations (trainer (config (self s))))) ->
     can_save s step) ->
  exists s',
    train s = (Ok tt, s')
    /\ fetches_and_iterations (actions (trace s'))
       = fetches_and_iterations (actions (trace s))
         ++ concat ((fun step => [Fetch; Iterate step])
                      <$> steps (start_step (self s))
                                (max_num_iterations (trainer (config (self s)))))
    /\ iterated_steps (actions (trace s'))
       = iterated_steps (actions (trace s))
         ++ steps (start_step (self s)) (max_num_iterations (trainer (config (self s))))
    /\ StronglySorted Z.lt
         (steps (start_step (self s)) (max_num_iterations (trainer (config (self s))))).
Proof.
  intros Hr Hv Hsave.
  destruct (train_returns HC s Hr Hv Hsave) as ([] & s' & Hrun & _ & Hacts & _).
  exists s'. split; [exact Hrun|].
  assert (Hfi : fetches_and_iterations (actions (trace s'))
                = fetches_and_iterations (actions (trace s))
                  ++ concat ((fun step => [Fetch; Iterate step])
                      <$> steps (start_step (self s))
                                (max_num_iterations (trainer (config (self s)))))).
  { rewrite Hacts. unfold fetches_and_iterations at 1. rewrite List.filter_app.
    fold (fetches_and_iterations (actions (trace s))). f_equal.
    apply fetches_and_iterations_train. }
  split; [exact Hfi|]. split; [|apply steps_increasing].
  rewrite <- (iterated_steps_filtered (actions (trace s'))), Hfi.
  unfold iterated_steps at 1. rewrite omap_app.
  fold (iterated_steps (fetches_and_iterations (actions (trace s)))).
  rewrite iterated_steps_filtered. f_equal. apply iterated_steps_interleaved.
Qed.

(** C2, as the code has it: when [steps_per_log] and [steps_per_test] are
    not zero, no collaborator raises and the checkpoints that fall due can
    be written, on every step of the loop the periodic actions that are due
    come in the order log metrics, save checkpoint, render in viewer, run
    held-out evaluation, flush metric storage; after the loop there is one
    more flush of the metric storage, called with
    [step = max_num_iterations]. *)
Theorem train_actions_in_order s :
  ready (self s) ->
  valid_cadences (config (self s)) ->
  (forall step,
     In step (steps (start_step (self s)) (max_num_iterations (trainer (config (self s))))) ->
     can_save s step) ->
  exists s',
    train s = (Ok tt, s')
    /\ actions (trace s')
       = actions (trace s)
         ++ due (bool_decide (is_Some (vis (self s)))) Draw
         ++ concat ((fun step =>
                       [Fetch; Iterate step]
                       ++ due (log_due (config (self s)) step) (Log step)
                       ++ due (save_due (config (self s)) step) (Save step)
                       ++ due (render_due (config (self s))
                                 (bool_decide (is_Some (vis (self s)))) step) Render
                       ++ due (test_due (config (self s)) step) (Evaluate step)
                       ++ [FlushCall step]
                       ++ due (flush_due (config (self s)) step) Flush)
                    <$> steps (start_step (self s))
                              (max_num_iterations (trainer (config (self s)))))
         ++ [FlushCall (max_num_iterations (trainer (config (self s)))); Flush].
Proof.
  intros Hr Hv Hsave.
  destruct (train_returns HC s Hr Hv Hsave) as ([] & s' & Hrun & _ & Hacts & _).
  exists s'. split; [exact Hrun | exact Hacts].
Qed.

(** C7, as the code has it: when [steps_per_log] and [steps_per_test] are
    not zero, no collaborator raises and the checkpoint of the step, if one
    is due, can be written, the step of the loop flushes the metric storage
    if and only if LOG is due at that step, or SAVE is due, or TEST is due,
    or the step is [max_num_iterations]. *)
Theorem flush_iff_due step s :
  ready (self s) ->
  valid_cadences (config (self s)) ->
  can_save s step ->
  exists s' acts,
    train_step step s = (Ok tt, s')
    /\ actions (trace s') = actions (trace s) ++ acts
    /\ (In Flush acts <->
          log_due (config (self s)) step = true
          \/ save_due (config (self s)) step = true
          \/ test_due (config (self s)) step = true
          \/ step = max_num_iterations (trainer (config (self s)))).
Proof.
  intros Hr Hv Hsave.
  destruct (train_step_returns HC step s Hr Hv Hsave) as ([] & s' & Hrun & _ & Hacts & _).
  exists s', (step_actions (config (self s)) (bool_decide (is_Some (vis (self s)))) step).
  split; [exact Hrun|]. split; [exact Hacts|].
  rewrite flush_in_step_actions. unfold flush_due.
  rewrite !orb_true_iff, Z.eqb_eq. tauto.
Qed.

(** C8, as the code has it: with [max_num_iterations = 10],
    [steps_per_log = 5], [steps_per_save = None], [steps_per_test = 10] and
    [start_step = 0], over the steps 0..9 LOG fires at step 5 only, SAVE
    never fires, TEST fires at step 0 only (step 10 is not a step of the
    loop, and nothing is evaluated there), the storage is flushed at steps 0
    and 5, and after the loop it is flushed once more, called with step 10. *)
Theorem scenario_ten_steps s :
  ready (self s) ->
  start_step (self s) = 0 ->
  max_num_iterations (trainer (config (self s))) = 10 ->
  steps_per_log (logging (config (self s))) = 5 ->
  steps_per_save (trainer (config (self s))) = None ->
  steps_per_test (trainer (config (self s))) = 10 ->
  exists s',
    train s = (Ok tt, s')
    /\ cadence_actions (actions (trace s'))
       = cadence_actions (actions (trace s))
         ++ [Evaluate 0; FlushCall 0; Flush;
             FlushCall 1; FlushCall 2; FlushCall 3; FlushCall 4;
             Log 5; FlushCall 5; Flush;
             FlushCall 6; FlushCall 7; FlushCall 8; FlushCall 9;
             FlushCall 10; Flush].
Proof.
  intros Hr Hstart Hn Hlog Hsave Htest.
  assert (Hv : valid_cadences (config (self s))).
  { unfold valid_cadences. rewrite Hlog, Htest. split; discriminate. }
  assert (Hnone : forall step, can_save s step).
  { intros step Hdue. unfold save_due in Hdue. rewrite Hsave, andb_false_r in Hdue.
    discriminate. }
  destruct (train_returns HC s Hr Hv (fun step _ => Hnone step))
    as ([] & s' & Hrun & _ & Hacts & _).
  exists s'. split; [exact Hrun|].
  rewrite Hacts. unfold cadence_actions at 1. rewrite List.filter_app.
  fold (cadence_actions (actions (trace s))). f_equal.
  unfold train_actions. rewrite !List.filter_app.
  fold (cadence_actions (concat (step_actions (config (self s))
          (bool_decide (is_Some (vis (self s))))
          <$> steps (start_step (self s)) (max_num_iterations (trainer (config (self s))))))).
  rewrite cadence_actions_steps, Hstart, Hn.
  unfold flush_due, log_due, save_due, test_due. rewrite Hn, Hlog, Hsave, Htest.
  destruct (bool_decide (is_Some (vis (self s)))); reflexivity.
Qed.

End Runs.

(** * More of the trainer *)

(** ** [get_aggregated_loss] *)

Lemma getitem_app_fresh {V} (pre d : items_of V) k :
  k ∉ pre.*1 -> getitem (pre ++ d) k = getitem d k.
Proof.
  induction pre as [|[k' v] pre IH]; intros Hk; [reflexivity|]. simpl.
  rewrite fmap_cons, not_elem_of_cons in Hk. destruct Hk as [Hne Hk]. simpl in Hne.
  rewrite bool_decide_eq_false_2 by congruence. apply IH, Hk.
Qed.

Lemma add_losses_rest add (pre post : items_of Tensor) acc :
  NoDup ((pre ++ post).*1) ->
  add_losses add (pre ++ post) (post.*1) acc = Ok (fold_left add (post.*2) acc).
Proof.
  revert pre acc. induction post as [|[k v] post IH]; intros pre acc Hnd; [reflexivity|].
  simpl. rewrite getitem_app_fresh.
  - simpl. rewrite bool_decide_eq_true_2 by reflexivity.
    specialize (IH (pre ++ [(k, v)]) (add acc v)).
    rewrite <- app_assoc in IH. apply IH, Hnd.
  - rewrite fmap_app, fmap_cons in Hnd. apply NoDup_app in Hnd as (_ & Hfresh & _).
    intros Hin. apply (Hfresh k Hin). left.
Qed.

(** X1: [get_aggregated_loss] never fails with a [KeyError]: on every
    dictionary (its keys are distinct) it returns the values added up from
    [0.0] on, each once, in the order of insertion. *)
Theorem get_aggregated_loss_sums_every_value zero add (loss_dict : items_of Tensor) :
  NoDup (loss_dict.*1) ->
  get_aggregated_loss zero add loss_dict = Ok (fold_left add (loss_dict.*2) zero).
Proof. intros Hnd. apply (add_losses_rest add [] loss_dict zero). exact Hnd. Qed.

(** ** What touches the disk *)

(** X3: of the methods of the trainer only [_save_checkpoint] makes a
    directory or writes a checkpoint: [setup] (loading included),
    [train_iteration], [test_image], [eval_with_dataloader],
    [render_image_in_viewer] and [_write_out_storage] leave the directories
    and the checkpoint files as they were, also when they raise.  (What a
    collaborator writes on its own, like the event files of the metric
    writer, is not part of the disk modelled here.) *)
Theorem only_save_checkpoint_writes_the_disk :
  (forall test_mode s, fs (setup test_mode s).2 = fs s)
  /\ (forall ri b step s, fs (train_iteration ri b step s).2 = fs s)
  /\ (forall bundle b step s, fs (test_image bundle b step s).2 = fs s)
  /\ (forall dl step s, fs (eval_with_dataloader dl step s).2 = fs s)
  /\ (forall s, fs (render_image_in_viewer s).2 = fs s)
  /\ (forall step s, fs (_write_out_storage step s).2 = fs s).
Proof.
  assert (Hrefl : forall s, same_disk s s) by reflexivity.
  assert (Htrans : forall s1 s2 s3, same_disk s1 s2 -> same_disk s2 s3 -> same_disk s1 s3).
  { unfold same_disk. intros s1 s2 s3 H12 H23. congruence. }
  assert (Hevent : forall e s, is_viewer_call e = false -> same_disk s (add_event e s))
    by reflexivity.
  assert (Hviewer : forall e s, same_disk s (add_event e s)) by reflexivity.
  assert (Hself : forall f s, same_disk s (set_self f s)) by reflexivity.
  repeat apply conj; intros.
  - apply (respects_setup same_disk); assumption.
  - apply (respects_train_iteration same_disk); assumption.
  - apply (respects_test_image same_disk); assumption.
  - apply (respects_eval_with_dataloader same_disk); assumption.
  - apply (respects_render_image_in_viewer same_disk); assumption.
  - apply (respects_write_out_storage same_disk); assumption.
Qed.

(** ** Failures inside a training iteration *)

(** X4: an exception of the forward pass goes through [train_iteration]
    untouched; the log has gained the forward pass only, the optimizers were
    not called and the trainer is as it was. *)
Theorem train_iteration_forward_fails ri b step s e :
  is_Some (graph (self s)) ->
  forward_ (trace s ++ [Call_train_iteration step]) ri b = Raise e ->
  exists s',
    train_iteration ri b step s = (Raise e, s')
    /\ trace s' = trace s ++ [Call_train_iteration step; forward ri b]
    /\ optimizer_calls (trace s') = optimizer_calls (trace s)
    /\ self s' = self s.
Proof.
  intros [g Hg] Hf. eexists. split; [|split; [|split]].
  - unfold train_iteration, get_graph.
    unfold bind, emit, get_self, call, ret, raise.
    simpl. rewrite Hg. simpl. rewrite Hf. reflexivity.
  - simpl. rewrite <- app_assoc. reflexivity.
  - simpl. unfold optimizer_calls. rewrite !List.filter_app. simpl.
    rewrite !app_nil_r. reflexivity.
  - reflexivity.
Qed.

(** X5: when backpropagation raises, the gradients have been zeroed, and
    that is all: no optimizer steps, no scheduler steps, no callback runs,
    and the exception goes through. *)
Theorem train_iteration_backward_fails ri b step s out ld l e :
  is_Some (graph (self s)) ->
  is_Some (optimizers (self s)) ->
  forward_ (trace s ++ [Call_train_iteration step]) ri b = Ok (out, ld) ->
  ld !! "aggregated_loss" = Some l ->
  backward_ (trace s ++ [Call_train_iteration step; forward ri b; zero_grad_all]) l
    = Raise e ->
  exists s',
    train_iteration ri b step s = (Raise e, s')
    /\ trace s' = trace s ++ [Call_train_iteration step; forward ri b;
                              zero_grad_all; backward l]
    /\ optimizer_calls (trace s') = optimizer_calls (trace s) ++ [zero_grad_all]
    /\ self s' = self s.
Proof.
  intros [g Hg] [o Ho] Hf Hl Hb. eexists. split; [|split; [|split]].
  - unfold train_iteration, get_graph, get_optimizers.
    unfold bind, emit, get_self, call, ret, raise.
    simpl. rewrite Hg. simpl. rewrite Hf. simpl. rewrite Hl. simpl. rewrite Ho. simpl.
    rewrite <- ?app_assoc. simpl. rewrite Hb. reflexivity.
  - simpl. rewrite <- ?app_assoc. reflexivity.
  - simpl. unfold optimizer_calls. rewrite !List.filter_app. simpl.
    rewrite !app_nil_r. reflexivity.
  - reflexivity.
Qed.

(** ** Testing an image, and rendering for the viewer *)

Lemma test_image_run bundle b step s g i o p :
  graph (self s) = Some g ->
  camera_index_ bundle = Ok i ->
  get_outputs_ (trace s ++ [Call_test_image bundle step; graph_eval]) bundle = Ok o ->
  log_test_image_ (trace s ++ [Call_test_image bundle step; graph_eval;
                               get_outputs_for_camera_ray_bundle bundle])
                  i step b o = Ok p ->
  exists s',
    test_image bundle b step s = (Ok p, s')
    /\ trace s' = trace s ++ [Call_test_image bundle step; graph_eval;
                              get_outputs_for_camera_ray_bundle bundle;
                              log_test_image_outputs i step b o; graph_train]
    /\ mode s' = Some true
    /\ forget_mode (self s') = forget_mode (self s).
Proof.
  intros Hg Hi Ho Hp. eexists. split; [|split; [|split]].
  - unfold test_image, graph_eval_, graph_train_, set_training, get_graph.
    unfold bind, emit, call, lift, get_self, modify_self, ret, raise. simpl.
    rewrite Hg. simpl. rewrite Hi. simpl. rewrite <- ?app_assoc. simpl.
    rewrite Ho. simpl. rewrite <- ?app_assoc. simpl. rewrite Hp. reflexivity.
  - simpl. rewrite <- ?app_assoc. reflexivity.
  - reflexivity.
  - simpl. unfold forget_mode. simpl. rewrite Hg. reflexivity.
Qed.

(** X6: [test_image] switches the model to inference mode, renders the
    bundle, scores the rendering against the batch under the index of the
    first camera of the bundle, switches back to training mode, in this
    order, and returns the score. *)
Theorem test_image_sequence bundle b step s g i o p :
  graph (self s) = Some g ->
  camera_index_ bundle = Ok i ->
  get_outputs_ (trace s ++ [Call_test_image bundle step; graph_eval]) bundle = Ok o ->
  log_test_image_ (trace s ++ [Call_test_image bundle step; graph_eval;
                               get_outputs_for_camera_ray_bundle bundle])
                  i step b o = Ok p ->
  exists s',
    test_image bundle b step s = (Ok p, s')
    /\ trace s' = trace s ++ [Call_test_image bundle step; graph_eval;
                              get_outputs_for_camera_ray_bundle bundle;
                              log_test_image_outputs i step b o; graph_train]
    /\ mode s' = Some true
    /\ forget_mode (self s') = forget_mode (self s).
Proof. apply test_image_run. Qed.

(** X7: [render_image_in_viewer] calls [graph.train()] before it sends the
    image: once the rendering has succeeded the model is back in training
    mode, whether or not the viewer takes the image; when the rendering
    raises the model stays in inference mode; when the camera of the viewer
    cannot be had the graph is not touched. *)
Theorem render_image_in_viewer_mode s :
  is_Some (graph (self s)) ->
  is_Some (vis (self s)) ->
  match viewer_camera_ (trace s ++ [Call_render_image_in_viewer]) with
  | Raise e =>
      (render_image_in_viewer s).1 = Raise e
      /\ self (render_image_in_viewer s).2 = self s
  | Ok bundle =>
      match get_outputs_ (trace s ++ [Call_render_image_in_viewer; vis_get_object;
                                      graph_eval]) bundle with
      | Raise e =>
          (render_image_in_viewer s).1 = Raise e
          /\ mode (render_image_in_viewer s).2 = Some false
      | Ok o =>
          mode (render_image_in_viewer s).2 = Some true
          /\ (render_image_in_viewer s).1
             = match viewer_set_image_
                       (trace s ++ [Call_render_image_in_viewer; vis_get_object;
                                    graph_eval;
                                    get_outputs_for_camera_ray_bundle bundle;
                                    graph_train]) o with
               | Ok _ => Ok o
               | Raise e => Raise e
               end
      end
  end.
Proof.
  intros [g Hg] [v Hv].
  unfold render_image_in_viewer, graph_eval_, graph_train_, set_training, get_graph.
  unfold bind, emit, call, lift, get_self, modify_self, ret, raise. simpl.
  rewrite Hv. simpl.
  destruct (viewer_camera_ _) as [bundle|e]; simpl; [|split; reflexivity].
  rewrite Hg. simpl. rewrite <- ?app_assoc. simpl.
  destruct (get_outputs_ _ bundle) as [o|e]; simpl; [|split; reflexivity].
  rewrite <- ?app_assoc. simpl.
  destruct (viewer_set_image_ _ o); simpl; split; reflexivity.
Qed.

(** ** Flushing the metric storage *)

(** X8: the flush condition is evaluated left to right and stops at the
    first rule that holds: on a step that [steps_per_log] divides,
    [_write_out_storage] flushes without looking at [steps_per_save] and
    [steps_per_test], so it also does with [steps_per_test = 0]. *)
Theorem write_out_storage_log_multiple step s :
  steps_per_log (logging (config (self s))) <> 0 ->
  step `mod` steps_per_log (logging (config (self s))) = 0 ->
  _write_out_storage step s
  = (Ok tt, {| self := self s; fs := fs s;
               trace := trace s ++ [Call_write_out_storage step; write_out_storage] |}).
Proof.
  intros Hlog Hdiv.
  unfold _write_out_storage, or_, divides.
  unfold when, bind, emit, lift, get_self, ret. simpl.
  rewrite mod_nonzero by exact Hlog. rewrite Hdiv. simpl.
  unfold add_event. simpl. rewrite <- app_assoc. reflexivity.
Qed.

(** X9: with [steps_per_log = 0], [_write_out_storage] raises a
    [ZeroDivisionError] on every step, and nothing is flushed. *)
Theorem write_out_storage_zero_log_cadence step s :
  steps_per_log (logging (config (self s))) = 0 ->
  exists s',
    _write_out_storage step s = (Raise ZeroDivisionError, s')
    /\ trace s' = trace s ++ [Call_write_out_storage step]
    /\ self s' = self s.
Proof.
  intros Hlog. eexists. split.
  - unfold _write_out_storage, or_, divides.
    unfold when, bind, emit, lift, get_self, ret. simpl.
    rewrite Hlog. reflexivity.
  - split; reflexivity.
Qed.

(** ** Saving a checkpoint, and resuming from it *)

Lemma stored_with_file (f : FileSystem) p l ck :
  writable_at f p = Some l -> stored (with_file l ck f) p = Some ck.
Proof.
  unfold writable_at, stored. destruct (resolve f p) as [l'|e] eqn:Hres; [|discriminate].
  destruct (is_dir f l') eqn:Hdir; [discriminate|]. intros [= ->].
  rewrite (resolve_same_dirs f (with_file l ck f) p l eq_refl eq_refl Hres).
  rewrite (is_dir_same_dirs f (with_file l ck f) l eq_refl), Hdir.
  simpl. apply lookup_insert_eq.
Qed.

Lemma resolve_with_file (f : FileSystem) p l ck :
  writable_at f p = Some l -> resolve (with_file l ck f) p = Ok l.
Proof.
  unfold writable_at. destruct (resolve f p) as [l'|e] eqn:Hres; [|discriminate].
  destruct (is_dir f l'); [discriminate|]. intros [= ->].
  apply (resolve_same_dirs f (with_file l ck f) p l eq_refl eq_refl Hres).
Qed.

Lemma save_checkpoint_returned dir step s s' :
  is_main_process = true ->
  _save_checkpoint dir step s = (Ok tt, s') ->
  exists l ck,
    files (fs s') = <[l := ck]> (files (fs s))
    /\ resolve (fs s') (os_path_join dir (ckpt_name step)) = Ok l
    /\ stored (fs s') (os_path_join dir (ckpt_name step)) = Some ck
    /\ ck_step ck = step
    /\ cwd (fs s') = cwd (fs s)
    /\ dirs (fs s) ⊆ dirs (fs s')
    /\ (exists_on (fs s) dir = true -> dirs (fs s') = dirs (fs s))
    /\ self s' = self s
    /\ dir <> EmptyString.
Proof.
  intros Hmain.
  unfold _save_checkpoint, path_exists, make_dir, write_file, get_graph, get_optimizers.
  unfold when, bind, emit, call, get_self, ret, raise. simpl.
  rewrite Hmain. simpl.
  destruct (exists_on (fs s) dir) eqn:Hex; simpl.
  - destruct (graph (self s)) as [g|]; simpl; [|discriminate].
    destruct (optimizers (self s)) as [o|]; simpl; [|discriminate].
    destruct (writable_at (fs s) _) as [l|] eqn:Hw; [|discriminate].
    intros [= <-]. eexists l, _. simpl.
    split; [reflexivity|]. split; [apply resolve_with_file, Hw|].
    split; [apply stored_with_file, Hw|].
    repeat (split; [reflexivity|]). intros ->. discriminate.
  - destruct (os_makedirs (String.length dir) dir (fs s)) as [r f1] eqn:Hmk. simpl.
    destruct r as [[]|e]; [|discriminate].
    pose proof (os_makedirs_frame (String.length dir) dir (fs s)) as Hframe.
    rewrite Hmk in Hframe. simpl in Hframe. destruct Hframe as (Hc & Hf & Hd).
    destruct (graph (self s)) as [g|]; simpl; [|discriminate].
    destruct (optimizers (self s)) as [o|]; simpl; [|discriminate].
    destruct (writable_at f1 _) as [l|] eqn:Hw; [|discriminate].
    intros [= <-]. eexists l, _. simpl. rewrite Hf.
    split; [reflexivity|]. split; [apply resolve_with_file, Hw|].
    split; [apply stored_with_file, Hw|].
    split; [reflexivity|]. split; [exact Hc|]. split; [exact Hd|].
    split; [discriminate|].
    split; [reflexivity|]. intros ->. rewrite os_makedirs_empty in Hmk. discriminate.
Qed.

Lemma save_checkpoint_no_dir step s :
  is_main_process = true ->
  _save_checkpoint EmptyString step s
  = (Raise (External "FileNotFoundError"),
     {| self := self s; fs := fs s;
        trace := trace s ++ [Call_save_checkpoint EmptyString step;
                             makedirs EmptyString] |}).
Proof.
  intros Hmain.
  unfold _save_checkpoint, path_exists, make_dir, when, bind, emit. simpl.
  rewrite Hmain. simpl. unfold add_event, set_fs. simpl. rewrite <- app_assoc.
  destruct (fs s); reflexivity.
Qed.

Lemma save_checkpoint_under_a_file dir step s g o ck :
  is_main_process = true ->
  graph (self s) = Some g ->
  optimizers (self s) = Some o ->
  stored (fs s) dir = Some ck ->
  exists s',
    _save_checkpoint dir step s
    = (Raise (torch_save_error_ (trace s ++ [Call_save_checkpoint dir step;
                                            state_dict (wrapped g);
                                            optimizer_state_dicts])), s')
    /\ fs s' = fs s.
Proof.
  intros Hmain Hg Ho Hstored. eexists. split.
  - unfold _save_checkpoint, path_exists, make_dir, write_file, get_graph, get_optimizers.
    unfold when, bind, emit, call, get_self, ret, raise. simpl.
    rewrite Hmain. simpl. rewrite (stored_exists _ _ _ Hstored). simpl.
    rewrite Hg. simpl. rewrite Ho. simpl.
    unfold writable_at. unfold stored in Hstored.
    destruct (resolve (fs s) dir) as [d|e] eqn:Hres; [|discriminate].
    rewrite (resolve_join_walk _ _ _ _ Hres). simpl.
    destruct (is_dir (fs s) d) eqn:Hdir; [discriminate|].
    unfold is_file. rewrite Hdir, Hstored. simpl.
    rewrite <- !app_assoc. reflexivity.
  - reflexivity.
Qed.

(** X10: on the coordinator process, [_save_checkpoint] of a trainer that
    is set up returns when [output_dir] is a directory (with no directory
    under the name of the checkpoint), or is not there and
    [os.makedirs(output_dir)] makes it.  Whenever it returns it has written
    one file, the one that [{output_dir}/step-{step:09d}.ckpt] names, which
    records the step; every other file is as it was, no directory is gone,
    none was made when [output_dir] existed, and the trainer is unchanged.
    With an empty [output_dir] it raises the [FileNotFoundError] of
    [os.makedirs], and with an [output_dir] that is a file it raises what
    [torch.save] raises; the disk is as it was in both cases. *)
Theorem save_checkpoint_writes_one_file dir step s :
  is_main_process = true ->
  is_Some (graph (self s)) ->
  is_Some (optimizers (self s)) ->
  (checkpoint_dir_ready (fs s) dir -> (_save_checkpoint dir step s).1 = Ok tt)
  /\ ((_save_checkpoint dir step s).1 = Ok tt ->
      exists l ck,
        files (fs (_save_checkpoint dir step s).2) = <[l := ck]> (files (fs s))
        /\ resolve (fs (_save_checkpoint dir step s).2) (os_path_join dir (ckpt_name step))
           = Ok l
        /\ stored (fs (_save_checkpoint dir step s).2) (os_path_join dir (ckpt_name step))
           = Some ck
        /\ ck_step ck = step
        /\ dirs (fs s) ⊆ dirs (fs (_save_checkpoint dir step s).2)
        /\ (exists_on (fs s) dir = true ->
            dirs (fs (_save_checkpoint dir step s).2) = dirs (fs s))
        /\ self (_save_checkpoint dir step s).2 = self s)
  /\ (dir = EmptyString ->
      (_save_checkpoint dir step s).1 = Raise (External "FileNotFoundError")
      /\ fs (_save_checkpoint dir step s).2 = fs s)
  /\ (is_Some (stored (fs s) dir) ->
      is_ok (_save_checkpoint dir step s).1 = false
      /\ fs (_save_checkpoint dir step s).2 = fs s).
Proof.
  intros Hmain [g Hg] [o Ho]. split; [|split; [|split]].
  - intros [(d & Hres & Hdir & Hfree) | (Hex & f' & Hmk & d & Hres & Hdir & Hfree)].
    + destruct (save_checkpoint_run dir step s g o d Hmain Hg Ho Hres Hdir (Hfree step))
        as (ck & Hrun & _).
      rewrite Hrun. reflexivity.
    + destruct (save_checkpoint_run_fresh dir step s g o f' d Hmain Hg Ho Hex Hmk Hres Hdir
                  (Hfree step)) as (ck & Hrun & _).
      rewrite Hrun. reflexivity.
  - destruct (_save_checkpoint dir step s) as [r s'] eqn:Hrun. simpl.
    intros ->.
    destruct (save_checkpoint_returned dir step s s' Hmain Hrun)
      as (l & ck & Hfiles & Hres & Hstored & Hstep & _ & Hdirs & Hsame & Hself & _).
    exists l, ck. auto 10.
  - intros ->. rewrite (save_checkpoint_no_dir step s Hmain). split; reflexivity.
  - intros [ck Hstored].
    destruct (save_checkpoint_under_a_file dir step s g o ck Hmain Hg Ho Hstored)
      as (s' & Hrun & Hfs).
    rewrite Hrun. split; [reflexivity | exact Hfs].
Qed.


(** ** [setup] *)

Lemma setup_returned test_mode s :
  (setup test_mode s).1 = Ok tt ->
  ready (self (setup test_mode s).2)
  /\ world_size (self s) <= 1
  /\ config (self (setup test_mode s).2) = config (self s)
  /\ vis (self (setup test_mode s).2) = vis (self s)
  /\ actions (trace (setup test_mode s).2) = actions (trace s)
  /\ distributed_calls (trace (setup test_mode s).2) = distributed_calls (trace s).
Proof.
  unfold_setup. simpl.
  destruct (truthy_str (load_dir (resume_train (trainer (config (self s)))))); simpl.
  - destruct (load_dir (resume_train (trainer (config (self s))))) as [dir|]; simpl;
      [|discriminate].
    destruct (exists_on (fs s) _); simpl; [|discriminate].
    destruct (stored (fs s) _) as [ck|]; simpl; [|discriminate].
    destruct (Z.gtb_spec (world_size (self s)) 1); simpl; [discriminate|]. intros _.
    split; [repeat split; eexists; reflexivity|].
    split; [lia|]. split; [reflexivity|]. split; [reflexivity|].
    unfold actions, distributed_calls.
    rewrite ?omap_app, ?List.filter_app; simpl; rewrite ?app_nil_r, <- ?app_assoc.
    split; reflexivity.
  - destruct (Z.gtb_spec (world_size (self s)) 1); simpl; [discriminate|]. intros _.
    split; [repeat split; eexists; reflexivity|].
    split; [lia|]. split; [reflexivity|]. split; [reflexivity|].
    unfold actions, distributed_calls.
    rewrite ?omap_app, ?List.filter_app; simpl; rewrite ?app_nil_r, <- ?app_assoc.
    split; reflexivity.
Qed.

(** X12: when [setup] returns, the readers, the graph and the optimizers
    are in place and the trainer is not distributed: [world_size] is at most
    1, and neither the wrapping of the graph nor the barrier was called.
    With [world_size > 1] the last line of [setup] looks
    [register_callbacks] up on the wrapper, which does not have it, so
    [setup] cannot return. *)
Theorem setup_makes_ready test_mode s :
  (setup test_mode s).1 = Ok tt ->
  ready (self (setup test_mode s).2)
  /\ world_size (self s) <= 1
  /\ distributed_calls (trace (setup test_mode s).2) = distributed_calls (trace s).
Proof.
  intros Hok. destruct (setup_returned test_mode s Hok) as (Hr & Hw & _ & _ & _ & Hd).
  split; [exact Hr | split; [exact Hw | exact Hd]].
Qed.

(** ** Edges of the step loop *)

Lemma range_cons (a b : Z) : a < b -> range a b = a :: range (a + 1) b.
Proof.
  intros Hab. unfold range.
  replace (Z.to_nat (b - a)) with (S (Z.to_nat (b - (a + 1)))) by lia.
  simpl. destruct (Z.ltb_spec a b); [reflexivity | lia].
Qed.

(** X13: [train] on a trainer that has not been set up (and has no viewer)
    raises a [TypeError] at once: no batch is fetched, nothing is logged and
    the trainer is as it was. *)
Theorem train_before_setup s :
  vis (self s) = None ->
  dataloader_train (self s) = None ->
  train s = (Raise TypeError, s).
Proof.
  intros Hvis Hdl. unfold train, when, bind, get_self, ret, raise. simpl.
  rewrite Hvis. simpl. rewrite Hdl. reflexivity.
Qed.

(** X14: when the training reader has no batch at the first request,
    [train] raises [StopIteration] before any training iteration: the log
    gains the request only, and the final flush does not happen. *)
Theorem train_with_empty_reader s :
  vis (self s) = None ->
  is_Some (dataloader_train (self s)) ->
  0 < max_num_iterations (trainer (config (self s))) ->
  next_ (trace s ++ [iter_dataloader]) = None ->
  exists s',
    train s = (Raise StopIteration, s')
    /\ trace s' = trace s ++ [iter_dataloader; next_batch]
    /\ self s' = self s.
Proof.
  intros Hvis [u Hdl] Hn Hnext. eexists. split.
  - unfold train, when, bind, get_self, emit, ret, raise. simpl.
    rewrite Hvis. simpl. rewrite Hdl. simpl.
    rewrite range_cons by lia. simpl.
    unfold bind, train_step, bind, call, next_or_stop. simpl.
    rewrite Hnext. reflexivity.
  - simpl. rewrite <- app_assoc. split; reflexivity.
Qed.

(** ** Runs with collaborators that do not raise *)

Section MoreRuns.

Hypothesis HC : cooperative.

Lemma test_image_tested bundle b step s :
  ready (self s) ->
  returns (test_image bundle b step) s
    (fun _ s' => forget_mode (self s') = forget_mode (self s)
                 /\ tested (trace s') = tested (trace s) ++ [(bundle, step)]
                 /\ scored (trace s') = scored (trace s) ++ [(b, step)]).
Proof.
  intros (_ & _ & [g Hg] & _).
  destruct (coop_camera_index HC bundle) as [i Hi].
  destruct (coop_get_outputs HC (trace s ++ [Call_test_image bundle step; graph_eval])
              bundle) as [o Ho].
  destruct (coop_log_test_image HC
              (trace s ++ [Call_test_image bundle step; graph_eval;
                           get_outputs_for_camera_ray_bundle bundle]) i step b o)
    as [p Hp].
  destruct (test_image_run bundle b step s g i o p Hg Hi Ho Hp)
    as (s' & Hrun & Htrace & _ & Hframe).
  exists p, s'. split; [exact Hrun|]. split; [exact Hframe|].
  rewrite Htrace. unfold tested, scored. rewrite !omap_app. split; reflexivity.
Qed.

(** X15: [eval_with_dataloader] tests every image of the reader once, in
    the order of the reader, each with the step it was given, and scores
    each rendering against the batch that came with its bundle. *)
Theorem eval_with_dataloader_tests_every_image (items : list (RayBundle * Batch)) step s :
  ready (self s) ->
  exists s',
    eval_with_dataloader (Some items) step s = (Ok tt, s')
    /\ tested (trace s') = tested (trace s) ++ ((fun item => (item.1, step)) <$> items)
    /\ scored (trace s') = scored (trace s) ++ ((fun item => (item.2, step)) <$> items).
Proof.
  intros Hr.
  enough (Hloop : returns (eval_with_dataloader (Some items) step) s
            (fun _ s' =>
               forget_mode (self s') = forget_mode (self s)
               /\ tested (trace s') = tested (trace s)
                                      ++ ((fun item => (item.1, step)) <$> items)
               /\ scored (trace s') = scored (trace s)
                                      ++ ((fun item => (item.2, step)) <$> items))).
  { destruct Hloop as ([] & s' & Hrun & _ & Ht & Hs). exists s'. auto. }
  unfold eval_with_dataloader. apply returns_bind, returns_emit.
  apply (returns_for (fun done s' =>
           forget_mode (self s') = forget_mode (self s)
           /\ tested (trace s') = tested (trace s)
                                  ++ ((fun item => (item.1, step)) <$> done)
           /\ scored (trace s') = scored (trace s)
                                  ++ ((fun item => (item.2, step)) <$> done))).
  - split; [reflexivity|]. simpl. unfold tested, scored. rewrite !omap_app. simpl.
    rewrite !app_nil_r. split; reflexivity.
  - intros done [bundle b] s1 (Hf1 & Ht1 & Hs1). simpl.
    apply returns_bind. eapply returns_weaken.
    + apply test_image_tested. eapply frame_ready; [exact Hf1 | exact Hr].
    + intros p s2 (Hf2 & Ht2 & Hs2). apply returns_ret.
      rewrite !fmap_app, !app_assoc, <- Ht1, <- Hs1. simpl.
      split; [congruence | split; assumption].
Qed.

(** X16: with [max_num_iterations <= 0] the loop has no step: [train]
    fetches no batch and runs no iteration, and still calls
    [_write_out_storage(max_num_iterations)] once, which flushes. *)
Theorem train_without_steps s :
  ready (self s) ->
  valid_cadences (config (self s)) ->
  max_num_iterations (trainer (config (self s))) <= 0 ->
  exists s',
    train s = (Ok tt, s')
    /\ actions (trace s')
       = actions (trace s)
         ++ due (bool_decide (is_Some (vis (self s)))) Draw
         ++ [FlushCall (max_num_iterations (trainer (config (self s)))); Flush].
Proof.
  intros Hr Hv Hn.
  assert (Hnone : steps (start_step (self s)) (max_num_iterations (trainer (config (self s))))
                  = []).
  { unfold steps.
    replace (Z.to_nat (max_num_iterations (trainer (config (self s))))) with O by lia.
    reflexivity. }
  destruct (train_returns HC s Hr Hv) as ([] & s' & Hrun & _ & Hacts & _).
  { rewrite Hnone. intros step []. }
  exists s'. split; [exact Hrun|]. rewrite Hacts. unfold train_actions, steps.
  replace (Z.to_nat (max_num_iterations (trainer (config (self s))))) with O by lia.
  reflexivity.
Qed.

Lemma actions_init cfg rank size fs0 : actions (trace (__init__ cfg rank size fs0)) = [].
Proof. simpl. destruct (enable (viewer cfg)); reflexivity. Qed.

(** X17: construction, [setup] and [train] compose: when [setup] returns,
    the cadences are valid and the directory of the checkpoints is there
    or can be made (if a checkpoint falls due at all), [train] runs [max_num_iterations]
    iterations, on the steps that start at 0 for a fresh run and at the
    stored step plus one when [setup] resumed from a checkpoint. *)
Theorem run_from_construction cfg rank size fs0 test_mode :
  valid_cadences cfg ->
  (setup test_mode (__init__ cfg rank size fs0)).1 = Ok tt ->
  (forall step, save_due cfg step = true -> is_main_process = true ->
                checkpoint_dir_ready fs0 (model_dir (trainer cfg))) ->
  exists s',
    train (setup test_mode (__init__ cfg rank size fs0)).2 = (Ok tt, s')
    /\ iterated_steps (actions (trace s'))
       = steps (match resume_checkpoint cfg fs0 with
                | Some ck => ck_step ck + 1
                | None => 0
                end)
               (max_num_iterations (trainer cfg)).
Proof.
  intros Hv Hok Hdisk.
  destruct (setup_returned test_mode _ Hok) as (Hr & _ & Hcfg & Hvis & Hacts & _).
  simpl in Hcfg.
  pose proof (setup_start_step test_mode (__init__ cfg rank size fs0)) as Hstart.
  simpl in Hstart.
  assert (Hfs : fs (setup test_mode (__init__ cfg rank size fs0)).2 = fs0).
  { pose proof (respects_setup same_disk same_disk_refl same_disk_trans
                  same_disk_viewer_event same_disk_self test_mode
                  (__init__ cfg rank size fs0)) as Hsame.
    exact Hsame. }
  destruct (train_returns HC _ Hr) as ([] & s' & Hrun & _ & Hrun_acts & _).
  { rewrite Hcfg. exact Hv. }
  { intros step _. unfold can_save. rewrite Hcfg, Hfs. apply Hdisk. }
  exists s'. split; [exact Hrun|].
  rewrite Hrun_acts, Hacts, actions_init, Hcfg, Hstart. simpl.
  rewrite <- iterated_steps_filtered, fetches_and_iterations_train.
  apply iterated_steps_interleaved.
Qed.

End MoreRuns.

(** ** Cadences that cannot work *)

Lemma bind_cannot_return {A B} (m : M A) (k : A -> M B) s :
  (forall a s', m s = (Ok a, s') -> is_ok (k a s').1 = false) ->
  is_ok (bind m k s).1 = false.
Proof.
  intros Hk. unfold bind. destruct (m s) as [[a|e] s'] eqn:Hm; [|reflexivity].
  apply (Hk a s'). reflexivity.
Qed.

Lemma returned_frame {A} (m : M A) s a s' :
  preserves m -> m s = (Ok a, s') -> config (self s') = config (self s).
Proof.
  intros Hp Hm. specialize (Hp s). rewrite Hm in Hp. apply frame_config, Hp.
Qed.

Lemma write_out_storage_cannot_return step s :
  steps_per_log (logging (config (self s))) = 0 ->
  is_ok (_write_out_storage step s).1 = false.
Proof.
  intros Hlog. unfold _write_out_storage, or_, divides.
  unfold when, bind, emit, lift, get_self, ret. simpl. rewrite Hlog. reflexivity.
Qed.

Lemma train_step_cannot_return step s :
  steps_per_log (logging (config (self s))) = 0
  \/ steps_per_test (trainer (config (self s))) = 0 ->
  is_ok (train_step step s).1 = false.
Proof.
  intros Hzero. unfold train_step.
  apply bind_cannot_return. intros [ri b] s1 H1.
  pose proof (returned_frame _ _ _ _ (preserves_call _ _) H1) as Hc1.
  apply bind_cannot_return. intros ld s2 H2.
  pose proof (returned_frame _ _ _ _ (preserves_train_iteration _ _ _) H2) as Hc2.
  apply bind_cannot_return. intros [] s3 H3.
  pose proof (returned_frame _ _ _ _ (preserves_emit _) H3) as Hc3.
  apply bind_cannot_return. intros t s4 H4.
  injection H4 as <- <-.
  apply bind_cannot_return. intros log_now s5 H5.
  assert (Hp5 : preserves (and_ (ret (negb (step =? 0)))
                             (divides step (steps_per_log (logging (config (self s3)))))))
    by (apply preserves_and; [apply preserves_ret | apply preserves_divides]).
  pose proof (returned_frame _ _ _ _ Hp5 H5) as Hc5.
  apply bind_cannot_return. intros [] s6 H6.
  assert (Hc6 : config (self s6) = config (self s5)).
  { eapply returned_frame; [|exact H6]. apply preserves_when, preserves_emit. }
  apply bind_cannot_return. intros save_now s7 H7.
  assert (Hc7 : config (self s7) = config (self s6)).
  { eapply returned_frame; [|exact H7].
    apply preserves_and; [apply preserves_ret|].
    apply preserves_and; [apply preserves_ret | apply preserves_divides_opt]. }
  apply bind_cannot_return. intros [] s8 H8.
  assert (Hc8 : config (self s8) = config (self s7)).
  { eapply returned_frame; [|exact H8]. apply preserves_when, preserves_save_checkpoint. }
  apply bind_cannot_return. intros render_now s9 H9.
  assert (Hc9 : config (self s9) = config (self s8)).
  { eapply returned_frame; [|exact H9].
    apply preserves_and; [apply preserves_ret|].
    apply preserves_and; [apply preserves_ret|].
    apply preserves_and; [apply preserves_ret | apply preserves_divides_opt]. }
  apply bind_cannot_return. intros [] s10 H10.
  assert (Hc10 : config (self s10) = config (self s9)).
  { eapply returned_frame; [|exact H10]. apply preserves_when.
    apply preserves_bind; [apply preserves_render_image_in_viewer|].
    intros o. apply preserves_ret. }
  assert (Hcfg : config (self s3) = config (self s)) by congruence.
  destruct Hzero as [Hlog|Htest].
  - apply bind_cannot_return. intros test_now s11 H11.
    assert (Hc11 : config (self s11) = config (self s10)).
    { eapply returned_frame; [|exact H11]. apply preserves_divides. }
    apply bind_cannot_return. intros [] s12 H12.
    assert (Hc12 : config (self s12) = config (self s11)).
    { eapply returned_frame; [|exact H12]. apply preserves_when.
      apply preserves_bind; [apply preserves_get_self|].
      intros t'. apply preserves_eval_with_dataloader. }
    apply write_out_storage_cannot_return. congruence.
  - rewrite Hcfg, Htest. unfold divides, bind, lift. reflexivity.
Qed.

Lemma loop_cannot_return (xs : list Z) s :
  xs <> [] ->
  steps_per_log (logging (config (self s))) = 0
  \/ steps_per_test (trainer (config (self s))) = 0 ->
  is_ok (for_ xs train_step s).1 = false.
Proof.
  intros Hxs Hzero. destruct xs as [|step xs]; [contradiction|]. simpl.
  unfold bind. pose proof (train_step_cannot_return step s Hzero) as Hstep.
  destruct (train_step step s) as [[u|e] s']; [discriminate | reflexivity].
Qed.

(** X18: [train] cannot complete with a cadence of zero: with
    [steps_per_log = 0] it never returns normally, whatever the
    collaborators do and however many iterations are configured, and with
    [steps_per_test = 0] it never does once there is a step to run. *)
Theorem train_cannot_complete_with_zero_cadence s :
  steps_per_log (logging (config (self s))) = 0
  \/ (steps_per_test (trainer (config (self s))) = 0
      /\ 0 < max_num_iterations (trainer (config (self s)))) ->
  is_ok (train s).1 = false.
Proof.
  intros Hzero. unfold train.
  apply bind_cannot_return. intros t s1 H1. injection H1 as <- <-.
  apply bind_cannot_return. intros [] s2 H2.
  assert (Hc2 : config (self s2) = config (self s)).
  { eapply returned_frame; [|exact H2].
    apply preserves_when, preserves_draw_scene_in_viewer. }
  apply bind_cannot_return. intros [] s3 H3.
  assert (Hc3 : config (self s3) = config (self s2)).
  { eapply returned_frame; [|exact H3].
    destruct (dataloader_train (self s)); [apply preserves_emit | apply preserves_raise]. }
  apply bind_cannot_return. intros t' s4 H4. injection H4 as <- <-.
  assert (Hc : config (self s3) = config (self s)) by congruence.
  destruct Hzero as [Hlog|[Htest Hn]].
  - apply bind_cannot_return. intros [] s5 H5.
    assert (Hc5 : config (self s5) = config (self s3)).
    { eapply returned_frame; [|exact H5].
      apply preserves_for. intros x. apply preserves_train_step. }
    apply write_out_storage_cannot_return. congruence.
  - unfold bind.
    pose proof (loop_cannot_return
                  (range (start_step (self s3))
                         (start_step (self s3) + max_num_iterations (trainer (config (self s)))))
                  s3) as Hloop.
    destruct (for_ _ train_step s3) as [[u|e] s5]; [|reflexivity].
    exfalso. enough (is_ok (Ok u : result unit) = false) by discriminate.
    apply Hloop.
    + rewrite range_cons by lia. discriminate.
    + right. rewrite Hc. exact Htest.
Qed.

(** ** A trainer without a viewer *)

Lemma no_viewer_call_refl s : no_viewer_call s s.
Proof. reflexivity. Qed.

Lemma no_viewer_call_trans s1 s2 s3 :
  no_viewer_call s1 s2 -> no_viewer_call s2 s3 -> no_viewer_call s1 s3.
Proof. unfold no_viewer_call. congruence. Qed.

Lemma no_viewer_call_event e s :
  is_viewer_call e = false -> no_viewer_call s (add_event e s).
Proof.
  intros He. unfold no_viewer_call, viewer_calls. simpl.
  rewrite List.filter_app. simpl. rewrite He. apply app_nil_r.
Qed.

Lemma no_viewer_call_self f s : no_viewer_call s (set_self f s).
Proof. reflexivity. Qed.

Lemma no_viewer_call_fs f s : no_viewer_call s (set_fs f s).
Proof. reflexivity. Qed.

Lemma no_viewer_call_bind {A B} (m : M A) (k : A -> M B) s :
  no_viewer_call s (m s).2 ->
  (forall a s', m s = (Ok a, s') -> no_viewer_call s' (k a s').2) ->
  no_viewer_call s (bind m k s).2.
Proof.
  intros Hm Hk. unfold bind. destruct (m s) as [[a|e] s'] eqn:Hrun; [|exact Hm].
  eapply no_viewer_call_trans; [exact Hm | apply Hk; reflexivity].
Qed.

Lemma returned_vis {A} (m : M A) s a s' :
  preserves m -> m s = (Ok a, s') -> vis (self s') = vis (self s).
Proof.
  intros Hp Hm. specialize (Hp s). rewrite Hm in Hp. apply frame_vis, Hp.
Qed.

(** Applies the general lemma of a method to the calls on the viewer. *)
Ltac quiet_method lem :=
  apply (lem no_viewer_call);
  first [ exact no_viewer_call_refl | exact no_viewer_call_trans
        | exact no_viewer_call_event | exact no_viewer_call_self
        | exact no_viewer_call_fs | reflexivity ].

Lemma train_step_no_viewer_call step s :
  vis (self s) = None -> no_viewer_call s (train_step step s).2.
Proof.
  intros Hvis. unfold train_step.
  apply no_viewer_call_bind; [quiet_method @respects_call|]. intros [ri b] s1 H1.
  pose proof (returned_vis _ _ _ _ (preserves_call _ _) H1) as Hv1.
  apply no_viewer_call_bind; [quiet_method respects_train_iteration|]. intros ld s2 H2.
  pose proof (returned_vis _ _ _ _ (preserves_train_iteration _ _ _) H2) as Hv2.
  apply no_viewer_call_bind; [quiet_method respects_emit|]. intros [] s3 H3.
  pose proof (returned_vis _ _ _ _ (preserves_emit _) H3) as Hv3.
  assert (Hnone : vis (self s3) = None) by congruence.
  apply no_viewer_call_bind; [apply no_viewer_call_refl|]. intros t s4 H4.
  injection H4 as <- <-.
  apply no_viewer_call_bind.
  { apply (respects_and no_viewer_call no_viewer_call_refl no_viewer_call_trans);
      [apply respects_ret, no_viewer_call_refl | quiet_method respects_divides]. }
  intros log_now s5 H5.
  assert (Hv5 : vis (self s5) = vis (self s3)).
  { eapply returned_vis; [|exact H5].
    apply preserves_and; [apply preserves_ret | apply preserves_divides]. }
  apply no_viewer_call_bind.
  { apply (respects_when no_viewer_call no_viewer_call_refl).
    quiet_method respects_emit. }
  intros [] s6 H6.
  assert (Hv6 : vis (self s6) = vis (self s5)).
  { eapply returned_vis; [|exact H6]. apply preserves_when, preserves_emit. }
  apply no_viewer_call_bind.
  { apply (respects_and no_viewer_call no_viewer_call_refl no_viewer_call_trans);
      [apply respects_ret, no_viewer_call_refl|].
    apply (respects_and no_viewer_call no_viewer_call_refl no_viewer_call_trans);
      [apply respects_ret, no_viewer_call_refl | quiet_method respects_divides_opt]. }
  intros save_now s7 H7.
  assert (Hv7 : vis (self s7) = vis (self s6)).
  { eapply returned_vis; [|exact H7].
    apply preserves_and; [apply preserves_ret|].
    apply preserves_and; [apply preserves_ret | apply preserves_divides_opt]. }
  apply no_viewer_call_bind.
  { apply (respects_when no_viewer_call no_viewer_call_refl).
    quiet_method respects_save_checkpoint. }
  intros [] s8 H8.
  assert (Hv8 : vis (self s8) = vis (self s7)).
  { eapply returned_vis; [|exact H8]. apply preserves_when, preserves_save_checkpoint. }
  rewrite Hnone.
  apply no_viewer_call_bind; [apply no_viewer_call_refl|]. intros render_now s9 H9.
  injection H9 as <- <-. simpl.
  apply no_viewer_call_bind; [apply no_viewer_call_refl|]. intros [] s10 H10.
  injection H10 as <-.
  apply no_viewer_call_bind; [quiet_method respects_divides|]. intros test_now s11 H11.
  apply no_viewer_call_bind.
  { apply (respects_when no_viewer_call no_viewer_call_refl).
    apply (respects_bind no_viewer_call no_viewer_call_trans);
      [apply respects_get_self, no_viewer_call_refl|].
    intros t'. quiet_method respects_eval_with_dataloader. }
  intros [] s12 H12.
  quiet_method respects_write_out_storage.
Qed.

Lemma loop_no_viewer_call (xs : list Z) s :
  vis (self s) = None -> no_viewer_call s (for_ xs train_step s).2.
Proof.
  revert s. induction xs as [|step xs IH]; intros s Hvis; [reflexivity|]. simpl.
  apply no_viewer_call_bind; [apply train_step_no_viewer_call, Hvis|].
  intros [] s' Hstep. apply IH.
  rewrite (returned_vis _ _ _ _ (preserves_train_step step) Hstep). exact Hvis.
Qed.

(** X19: a trainer without a viewer never calls one: however [train] ends,
    it has neither drawn the scene nor rendered an image, nor asked the
    viewer for its camera, nor sent it an image. *)
Theorem train_without_viewer_never_calls_it s :
  vis (self s) = None ->
  viewer_calls (trace (train s).2) = viewer_calls (trace s).
Proof.
  intros Hvis. unfold train.
  apply no_viewer_call_bind; [apply no_viewer_call_refl|]. intros t s1 H1.
  injection H1 as <- <-. rewrite Hvis. simpl.
  apply no_viewer_call_bind; [apply no_viewer_call_refl|]. intros [] s2 H2.
  injection H2 as <-.
  apply no_viewer_call_bind.
  { destruct (dataloader_train (self s));
      [apply no_viewer_call_event; reflexivity | apply no_viewer_call_refl]. }
  intros [] s3 H3.
  assert (Hv3 : vis (self s3) = None).
  { rewrite <- Hvis. eapply returned_vis; [|exact H3].
    destruct (dataloader_train (self s)); [apply preserves_emit | apply preserves_raise]. }
  apply no_viewer_call_bind; [apply no_viewer_call_refl|]. intros t' s4 H4.
  injection H4 as <- <-.
  apply no_viewer_call_bind; [apply loop_no_viewer_call, Hv3|]. intros [] s5 H5.
  quiet_method respects_write_out_storage.
Qed.

(** ** The mode of the model after a run *)

Lemma keeps_training_bind {A B} (m : M A) (k : A -> M B) :
  keeps_training m -> (forall a, keeps_training (k a)) -> keeps_training (bind m k).
Proof.
  intros Hm Hk s b s'. unfold bind.
  destruct (m s) as [[a|e] s1] eqn:Hrun; [|discriminate].
  intros Hrest Hmode. eapply Hk; [exact Hrest|]. eapply Hm; eassumption.
Qed.

Lemma keeps_training_same_trainer {A} (m : M A) :
  respects same_trainer m -> keeps_training m.
Proof.
  intros Hsame s a s' Hrun Hmode. specialize (Hsame s). rewrite Hrun in Hsame.
  unfold mode. simpl in Hsame. unfold same_trainer in Hsame. rewrite Hsame. exact Hmode.
Qed.

Lemma keeps_training_when (b : bool) (m : M unit) :
  keeps_training m -> keeps_training (when b m).
Proof.
  intros Hm. destruct b; [exact Hm|]. intros s a s' [= <- <-] Hmode. exact Hmode.
Qed.

Lemma keeps_training_for {A} (xs : list A) (body : A -> M unit) :
  (forall x, keeps_training (body x)) -> keeps_training (for_ xs body).
Proof.
  intros Hbody. induction xs as [|x xs IH]; simpl.
  - intros s a s' [= <- <-] Hmode. exact Hmode.
  - apply keeps_training_bind; [apply Hbody | intros _; exact IH].
Qed.

Lemma same_trainer_refl s : same_trainer s s.
Proof. reflexivity. Qed.

Lemma same_trainer_trans s1 s2 s3 :
  same_trainer s1 s2 -> same_trainer s2 s3 -> same_trainer s1 s3.
Proof. unfold same_trainer. congruence. Qed.

Lemma same_trainer_event e s : is_viewer_call e = false -> same_trainer s (add_event e s).
Proof. reflexivity. Qed.

Lemma same_trainer_fs f s : same_trainer s (set_fs f s).
Proof. reflexivity. Qed.

(** Applies the general lemma of a method that does not assign to [self]. *)
Ltac same_trainer_method lem :=
  apply keeps_training_same_trainer; apply (lem same_trainer);
  first [ exact same_trainer_refl | exact same_trainer_trans
        | exact same_trainer_event | exact same_trainer_fs | reflexivity ].

Lemma keeps_training_test_image bundle b step :
  keeps_training (test_image bundle b step).
Proof.
  intros s p s' Hrun Hmode.
  apply test_image_outcome in Hrun; [exact Hrun|].
  unfold mode in Hmode. destruct (graph (self s)); [eauto | discriminate].
Qed.

Lemma keeps_training_eval_with_dataloader dl step :
  keeps_training (eval_with_dataloader dl step).
Proof.
  unfold eval_with_dataloader. apply keeps_training_bind.
  - same_trainer_method respects_emit.
  - intros _. destruct dl as [items|]; [|intros s a s' [=]].
    apply keeps_training_for. intros item. apply keeps_training_bind.
    + apply keeps_training_test_image.
    + intros p s a s' [= <- <-] Hmode. exact Hmode.
Qed.

Lemma keeps_training_render_image_in_viewer : keeps_training render_image_in_viewer.
Proof.
  intros s o s'. unfold mode at 1.
  destruct (graph (self s)) as [g|] eqn:Hg; [|discriminate].
  unfold render_image_in_viewer, graph_eval_, graph_train_, set_training, get_graph.
  unfold bind, emit, call, lift, get_self, modify_self, ret, raise. simpl.
  destruct (vis (self s)); simpl; [|discriminate].
  destruct (viewer_camera_ _) as [bundle|e]; simpl; [|discriminate].
  rewrite Hg. simpl.
  destruct (get_outputs_ _ bundle) as [o'|e]; simpl; [|discriminate].
  destruct (viewer_set_image_ _ o'); simpl; [|discriminate].
  intros [= <- <-] _. reflexivity.
Qed.

Lemma keeps_training_train_step step : keeps_training (train_step step).
Proof.
  unfold train_step.
  apply keeps_training_bind; [same_trainer_method @respects_call|]. intros [ri b].
  apply keeps_training_bind; [same_trainer_method respects_train_iteration|]. intros ld.
  apply keeps_training_bind; [same_trainer_method respects_emit|]. intros _.
  apply keeps_training_bind; [same_trainer_method respects_get_self|]. intros t.
  apply keeps_training_bind.
  { apply keeps_training_same_trainer.
    apply (respects_and same_trainer same_trainer_refl same_trainer_trans);
      [apply respects_ret, same_trainer_refl
      | apply (respects_divides same_trainer same_trainer_refl same_trainer_trans)]. }
  intros log_now.
  apply keeps_training_bind;
    [apply keeps_training_when; same_trainer_method respects_emit|]. intros _.
  apply keeps_training_bind.
  { apply keeps_training_same_trainer.
    apply (respects_and same_trainer same_trainer_refl same_trainer_trans);
      [apply respects_ret, same_trainer_refl|].
    apply (respects_and same_trainer same_trainer_refl same_trainer_trans);
      [apply respects_ret, same_trainer_refl
      | apply (respects_divides_opt same_trainer same_trainer_refl same_trainer_trans)]. }
  intros save_now.
  apply keeps_training_bind;
    [apply keeps_training_when; same_trainer_method respects_save_checkpoint|]. intros _.
  apply keeps_training_bind.
  { apply keeps_training_same_trainer.
    apply (respects_and same_trainer same_trainer_refl same_trainer_trans);
      [apply respects_ret, same_trainer_refl|].
    apply (respects_and same_trainer same_trainer_refl same_trainer_trans);
      [apply respects_ret, same_trainer_refl|].
    apply (respects_and same_trainer same_trainer_refl same_trainer_trans);
      [apply respects_ret, same_trainer_refl
      | apply (respects_divides_opt same_trainer same_trainer_refl same_trainer_trans)]. }
  intros render_now.
  apply keeps_training_bind.
  { apply keeps_training_when, keeps_training_bind;
      [apply keeps_training_render_image_in_viewer|].
    intros o s a s' [= <- <-] Hmode. exact Hmode. }
  intros _.
  apply keeps_training_bind.
  { apply keeps_training_same_trainer.
    apply (respects_divides same_trainer same_trainer_refl same_trainer_trans). }
  intros test_now.
  apply keeps_training_bind.
  { apply keeps_training_when, keeps_training_bind;
      [same_trainer_method respects_get_self|].
    intros t'. apply keeps_training_eval_with_dataloader. }
  intros _. same_trainer_method respects_write_out_storage.
Qed.

(** X20: a training run that completes leaves the model in training mode:
    when [train] is entered in training mode and returns, the model is in
    training mode, whichever evaluations and renderings were due on the
    way. *)
Theorem train_returns_in_training_mode s s' :
  train s = (Ok tt, s') ->
  mode s = Some true ->
  mode s' = Some true.
Proof.
  revert s s'.
  enough (Hkeeps : keeps_training train) by (intros s s'; apply Hkeeps).
  unfold train.
  apply keeps_training_bind; [same_trainer_method respects_get_self|]. intros t.
  apply keeps_training_bind.
  { apply keeps_training_when, keeps_training_same_trainer.
    intros s. reflexivity. }
  intros _.
  apply keeps_training_bind.
  { destruct (dataloader_train t);
      [same_trainer_method respects_emit | intros s a s' [=]]. }
  intros _.
  apply keeps_training_bind; [same_trainer_method respects_get_self|]. intros t'.
  apply keeps_training_bind.
  { apply keeps_training_for. intros step. apply keeps_training_train_step. }
  intros _. same_trainer_method respects_write_out_storage.
Qed.

End Properties.

(** * The scenarios *)

Module Runs.

Import Scenario.

#[local] Existing Instance toy_data.

(** The toy collaborators never raise when scoring works. *)
Lemma toy_cooperative loss_name :
  loss_name = "aggregated_loss" -> cooperative (C := toy loss_name (Ok 30)).
Proof.
  intros ->. constructor; simpl; intros; eauto.
Qed.

Lemma started_ready (C : Collaborators) n log_every save_every test_every :
  ready (self (started C (make_config n log_every save_every test_every None 0))).
Proof. repeat split; eexists; reflexivity. Qed.

Lemma started_on_ready (C : Collaborators) n log_every save_every test_every f :
  ready (self (started_on C (make_config n log_every save_every test_every None 0) f)).
Proof. repeat split; eexists; reflexivity. Qed.

(** On [disk_with_outputs] the directory of the checkpoints is there. *)
Lemma outputs_checkpoint_dir : checkpoint_dir (D := toy_data) disk_with_outputs "outputs".
Proof.
  exists ["outputs"]. split; [reflexivity|]. split; [reflexivity|].
  intros step. unfold is_dir. apply orb_false_iff.
  split; apply bool_decide_eq_false_2; [discriminate|].
  simpl. intros Hin. apply elem_of_singleton in Hin. discriminate.
Qed.

Lemma started_on_can_save (C : Collaborators) n log_every save_every test_every step :
  can_save (started_on C (make_config n log_every save_every test_every None 0)
              disk_with_outputs) step.
Proof. intros _ _. left. exact outputs_checkpoint_dir. Qed.

(** On [empty_disk] the directory of the checkpoints can be made. *)
Lemma outputs_checkpoint_dir_ready :
  checkpoint_dir_ready (D := toy_data) empty_disk "outputs".
Proof.
  right. split; [reflexivity|]. exists disk_with_outputs.
  split; [vm_compute; reflexivity | exact outputs_checkpoint_dir].
Qed.

Lemma started_can_save (C : Collaborators) n log_every save_every test_every step :
  can_save (started C (make_config n log_every save_every test_every None 0)) step.
Proof. intros _ _. exact outputs_checkpoint_dir_ready. Qed.

Lemma device_cpu_iff_world_size_zero_witness :
  device (self (__init__ brisk 3 1 empty_disk)) = "cuda:3".
Proof.
  apply (proj2 (device_cpu_iff_world_size_zero brisk 3 1 empty_disk)). lia.
Defined.

Lemma train_iteration_sequence_witness :
  exists s',
    train_iteration (C := healthy) 3%nat 4%nat 0 (started healthy brisk)
    = (Ok {[ "aggregated_loss" := 1 ]}, s')
    /\ self s' = self (started healthy brisk)
    /\ trace s' = trace (started healthy brisk)
                  ++ [Call_train_iteration 0; forward 3%nat 4%nat; zero_grad_all;
                      backward 1; optimizer_step_all; scheduler_step_all 0]
                  ++ [after_step 1%nat 0; after_step 2%nat 0].
Proof.
  apply (train_iteration_sequence (C := healthy) 3%nat 4%nat 0 (started healthy brisk)
           (Build_Graph (D := toy_data) true false [1%nat; 2%nat])
           tt 4%nat {[ "aggregated_loss" := 1 ]} 1); reflexivity.
Defined.

Lemma train_iteration_missing_aggregated_loss_witness :
  exists s',
    train_iteration (C := unaggregated) 3%nat 4%nat 0 (started unaggregated brisk)
    = (Raise (KeyError "aggregated_loss"), s')
    /\ trace s' = trace (started unaggregated brisk)
                  ++ [Call_train_iteration 0; forward 3%nat 4%nat]
    /\ optimizer_calls (trace s') = optimizer_calls (trace (started unaggregated brisk))
    /\ self s' = self (started unaggregated brisk).
Proof.
  apply (train_iteration_missing_aggregated_loss (C := unaggregated) 3%nat 4%nat 0
           (started unaggregated brisk) 4%nat {[ "rgb_loss" := 1 ]}).
  - eexists. reflexivity.
  - reflexivity.
  - reflexivity.
Defined.



Lemma train_runs_every_step_once_witness :
  exists s',
    train (C := healthy) (started healthy brisk) = (Ok tt, s')
    /\ iterated_steps (actions (trace s')) = [0; 1; 2].
Proof.
  destruct (train_runs_every_step_once (C := healthy) (toy_cooperative _ eq_refl)
              (started healthy brisk))
    as (s' & Hrun & _ & Hsteps & _).
  - apply started_ready.
  - split; discriminate.
  - intros step _. apply started_can_save.
  - exists s'. split; [exact Hrun | exact Hsteps].
Defined.

Lemma train_actions_in_order_witness :
  exists s',
    train (C := healthy) (started healthy brisk) = (Ok tt, s')
    /\ actions (trace s')
       = [Fetch; Iterate 0; Evaluate 0; FlushCall 0; Flush;
          Fetch; Iterate 1; FlushCall 1;
          Fetch; Iterate 2; Log 2; Save 2; Evaluate 2; FlushCall 2; Flush;
          FlushCall 3; Flush].
Proof.
  destruct (train_actions_in_order (C := healthy) (toy_cooperative _ eq_refl)
              (started healthy brisk))
    as (s' & Hrun & Hacts).
  - apply started_ready.
  - split; discriminate.
  - intros step _. apply started_can_save.
  - exists s'. split; [exact Hrun | exact Hacts].
Defined.

Lemma flush_iff_due_witness :
  exists s' acts,
    train_step (C := healthy) 2 (started_on healthy brisk disk_with_outputs) = (Ok tt, s')
    /\ actions (trace s')
       = actions (trace (started_on healthy brisk disk_with_outputs)) ++ acts
    /\ (In Flush acts <->
          log_due brisk 2 = true \/ save_due brisk 2 = true
          \/ test_due brisk 2 = true \/ 2 = 3).
Proof.
  apply (flush_iff_due (C := healthy) (toy_cooperative _ eq_refl) 2
           (started_on healthy brisk disk_with_outputs)).
  - apply started_on_ready.
  - split; discriminate.
  - apply started_on_can_save.
Defined.

Lemma scenario_ten_steps_witness :
  exists s',
    train (C := healthy) (started healthy ten_steps) = (Ok tt, s')
    /\ cadence_actions (actions (trace s'))
       = [Evaluate 0; FlushCall 0; Flush;
          FlushCall 1; FlushCall 2; FlushCall 3; FlushCall 4;
          Log 5; FlushCall 5; Flush;
          FlushCall 6; FlushCall 7; FlushCall 8; FlushCall 9;
          FlushCall 10; Flush].
Proof.
  apply (scenario_ten_steps (C := healthy) (toy_cooperative _ eq_refl)
           (started healthy ten_steps)); try reflexivity.
  apply started_ready.
Defined.

(** C1 as stated fails: with [steps_per_test = 0] and two iterations
    configured, the evaluation rule divides by zero on step 0, after the
    training iteration of that step, and step 1 never runs. *)
Lemma train_stops_on_zero_test_cadence :
  (train (C := healthy) (started healthy zero_test_cadence)).1 = Raise ZeroDivisionError
  /\ iterated_steps (actions (trace (train (C := healthy)
                                       (started healthy zero_test_cadence)).2)) = [0]
  /\ steps (start_step (self (started healthy zero_test_cadence)))
           (max_num_iterations (trainer zero_test_cadence)) = [0; 1]
  /\ iterated_steps (actions (trace (train (C := healthy)
                                       (started healthy zero_test_cadence)).2))
     <> steps (start_step (self (started healthy zero_test_cadence)))
              (max_num_iterations (trainer zero_test_cadence)).
Proof.
  split; [reflexivity|]. split; [reflexivity|]. split; [reflexivity|].
  vm_compute. discriminate.
Qed.

(** C2 as stated fails: with [steps_per_log = 0] and no iteration
    configured the loop exits at once, and the flush that is to follow it
    does not happen: its rule divides by zero. *)
Lemma no_final_flush_on_zero_log_cadence :
  (train (C := healthy) (started healthy idle_zero_log_cadence)).1 = Raise ZeroDivisionError
  /\ actions (trace (train (C := healthy) (started healthy idle_zero_log_cadence)).2)
     = [FlushCall 0]
  /\ ~ In Flush (actions (trace (train (C := healthy)
                                   (started healthy idle_zero_log_cadence)).2)).
Proof.
  split; [reflexivity|]. split; [reflexivity|].
  vm_compute. intros [H|[]]. discriminate.
Qed.



(** C7 as stated fails: with [steps_per_log = 0] and an evaluation every
    second step, step 0 of the loop runs its training iteration and its
    evaluation (TEST is due), and does not flush the metric storage: the
    flush rule divides by zero. *)
Lemma no_flush_on_zero_log_cadence :
  test_due zero_log_cadence_test_2 0 = true
  /\ (train_step (C := healthy) 0 (started healthy zero_log_cadence_test_2)).1
     = Raise ZeroDivisionError
  /\ actions (trace (train_step (C := healthy) 0
                       (started healthy zero_log_cadence_test_2)).2)
     = [Fetch; Iterate 0; Evaluate 0; FlushCall 0]
  /\ ~ In Flush (actions (trace (train_step (C := healthy) 0
                                   (started healthy zero_log_cadence_test_2)).2)).
Proof.
  split; [reflexivity|]. split; [reflexivity|]. split; [reflexivity|].
  vm_compute. intros [H|[H|[H|[H|[]]]]]; discriminate.
Qed.

(** C8 as stated fails: in the scenario the held-out evaluation runs with
    step 0 and never with step 10. *)
Lemma scenario_evaluates_at_step_zero_only :
  (train (C := healthy) (started healthy ten_steps)).1 = Ok tt
  /\ evaluated_steps (actions (trace (train (C := healthy)
                                        (started healthy ten_steps)).2)) = [0]
  /\ ~ In 10 (evaluated_steps (actions (trace (train (C := healthy)
                                                 (started healthy ten_steps)).2))).
Proof.
  split; [reflexivity|]. split; [reflexivity|].
  vm_compute. intros [H|[]]. discriminate.
Qed.

End Runs.

(** * More scenarios *)

Module Extras.

Import Scenario.

#[local] Existing Instance toy_data.

Lemma healthy_cooperative : cooperative (C := healthy).
Proof. constructor; simpl; intros; eauto. Qed.

Lemma get_aggregated_loss_sums_every_value_witness :
  get_aggregated_loss 0 Z.add three_losses = Ok 14.
Proof.
  apply (get_aggregated_loss_sums_every_value (D := toy_data) 0 Z.add three_losses).
  apply (bool_decide_unpack _). vm_compute. exact I.
Defined.

Lemma train_iteration_forward_fails_witness :
  (train_iteration (C := failing_forward) 3%nat 4%nat 0
     (started failing_forward brisk)).1 = Raise (External "OutOfMemoryError").
Proof.
  destruct (train_iteration_forward_fails (C := failing_forward) 3%nat 4%nat 0
              (started failing_forward brisk) (External "OutOfMemoryError"))
    as (s' & Hrun & _).
  - eexists. reflexivity.
  - reflexivity.
  - rewrite Hrun. reflexivity.
Defined.

Lemma train_iteration_backward_fails_witness :
  (train_iteration (C := failing_backward) 3%nat 4%nat 0
     (started failing_backward brisk)).1 = Raise (External "RuntimeError").
Proof.
  destruct (train_iteration_backward_fails (C := failing_backward) 3%nat 4%nat 0
              (started failing_backward brisk) 4%nat {[ "aggregated_loss" := 1 ]} 1
              (External "RuntimeError"))
    as (s' & Hrun & _).
  - eexists. reflexivity.
  - eexists. reflexivity.
  - reflexivity.
  - reflexivity.
  - reflexivity.
  - rewrite Hrun. reflexivity.
Defined.

Lemma test_image_sequence_witness :
  (test_image (C := healthy) 7%nat 70%nat 2 (started healthy brisk)).1 = Ok 30.
Proof.
  destruct (test_image_sequence (C := healthy) 7%nat 70%nat 2 (started healthy brisk)
              (Build_Graph (D := toy_data) true false [1%nat; 2%nat]) 7 7%nat 30)
    as (s' & Hrun & _).
  - reflexivity.
  - reflexivity.
  - reflexivity.
  - reflexivity.
  - rewrite Hrun. reflexivity.
Defined.

Lemma render_image_in_viewer_mode_witness :
  mode (render_image_in_viewer (C := healthy) (started healthy viewing)).2 = Some true.
Proof.
  pose proof (render_image_in_viewer_mode (C := healthy) (started healthy viewing)) as H.
  apply H; eexists; reflexivity.
Defined.

Lemma write_out_storage_log_multiple_witness :
  (_write_out_storage 4 (started healthy zero_test_cadence_log_2)).1 = Ok tt.
Proof.
  rewrite (write_out_storage_log_multiple 4
             (started healthy zero_test_cadence_log_2)).
  - reflexivity.
  - discriminate.
  - reflexivity.
Defined.

Lemma write_out_storage_zero_log_cadence_witness :
  (_write_out_storage 4 (started healthy zero_log_cadence)).1
  = Raise ZeroDivisionError.
Proof.
  destruct (write_out_storage_zero_log_cadence 4
              (started healthy zero_log_cadence)) as (s' & Hrun & _).
  - reflexivity.
  - rewrite Hrun. reflexivity.
Defined.

Lemma save_checkpoint_writes_one_file_witness :
  (_save_checkpoint (C := healthy) "outputs" 7
     (started_on healthy brisk disk_with_outputs)).1 = Ok tt.
Proof.
  apply (save_checkpoint_writes_one_file (C := healthy) "outputs" 7
           (started_on healthy brisk disk_with_outputs)).
  - reflexivity.
  - eexists. reflexivity.
  - eexists. reflexivity.
  - left. exact Runs.outputs_checkpoint_dir.
Defined.


Lemma setup_makes_ready_witness :
  ready (self (setup (C := healthy) false (__init__ brisk 0 1 empty_disk)).2)
  /\ world_size (self (__init__ (D := toy_data) brisk 0 1 empty_disk)) <= 1
  /\ distributed_calls (trace (setup (C := healthy) false
                                 (__init__ brisk 0 1 empty_disk)).2) = [].
Proof.
  apply (setup_makes_ready (C := healthy) false (__init__ brisk 0 1 empty_disk)).
  reflexivity.
Defined.

Lemma train_before_setup_witness :
  train (C := healthy) (__init__ brisk 0 1 empty_disk)
  = (Raise TypeError, __init__ brisk 0 1 empty_disk).
Proof.
  apply (train_before_setup (C := healthy) (__init__ brisk 0 1 empty_disk)); reflexivity.
Defined.

Lemma train_with_empty_reader_witness :
  (train (C := dry_reader) (started dry_reader brisk)).1 = Raise StopIteration.
Proof.
  destruct (train_with_empty_reader (C := dry_reader) (started dry_reader brisk))
    as (s' & Hrun & _).
  - reflexivity.
  - eexists. reflexivity.
  - reflexivity.
  - reflexivity.
  - rewrite Hrun. reflexivity.
Defined.

Lemma eval_with_dataloader_tests_every_image_witness :
  exists s',
    eval_with_dataloader (C := healthy) (Some [(7%nat, 70%nat); (8%nat, 80%nat)]) 2
      (started healthy brisk) = (Ok tt, s')
    /\ tested (trace s') = [(7%nat, 2); (8%nat, 2)]
    /\ scored (trace s') = [(70%nat, 2); (80%nat, 2)].
Proof.
  apply (eval_with_dataloader_tests_every_image (C := healthy) healthy_cooperative
           [(7%nat, 70%nat); (8%nat, 80%nat)] 2 (started healthy brisk)).
  repeat split; eexists; reflexivity.
Defined.

Lemma train_without_steps_witness :
  exists s',
    train (C := healthy) (started healthy no_steps) = (Ok tt, s')
    /\ actions (trace s') = [FlushCall 0; Flush].
Proof.
  apply (train_without_steps (C := healthy) healthy_cooperative (started healthy no_steps)).
  - repeat split; eexists; reflexivity.
  - split; discriminate.
  - simpl. lia.
Defined.

Lemma run_from_construction_witness :
  exists s',
    train (C := healthy)
      (setup (C := healthy) false
         (__init__ resuming_from_7 0 1
            (fs (_save_checkpoint (C := healthy) "ckpts" 7 (started healthy brisk)).2))).2
    = (Ok tt, s')
    /\ iterated_steps (actions (trace s')) = [8; 9; 10].
Proof.
  apply (run_from_construction (C := healthy) healthy_cooperative resuming_from_7 0 1
           (fs (_save_checkpoint (C := healthy) "ckpts" 7 (started healthy brisk)).2)
           false).
  - split; discriminate.
  - vm_compute. reflexivity.
  - intros step Hdue. unfold save_due in Hdue. simpl in Hdue.
    rewrite andb_false_r in Hdue. discriminate.
Defined.

Lemma train_cannot_complete_with_zero_cadence_witness :
  is_ok (train (C := healthy) (started healthy zero_test_cadence)).1 = false.
Proof.
  apply (train_cannot_complete_with_zero_cadence (C := healthy)
           (started healthy zero_test_cadence)).
  right. split; [reflexivity | simpl; lia].
Defined.

Lemma train_without_viewer_never_calls_it_witness :
  viewer_calls (trace (train (C := healthy) (started healthy brisk)).2) = [].
Proof.
  apply (train_without_viewer_never_calls_it (C := healthy) (started healthy brisk)).
  reflexivity.
Defined.

Lemma train_returns_in_training_mode_witness :
  mode (train (C := healthy) (started healthy brisk)).2 = Some true.
Proof.
  apply (train_returns_in_training_mode (C := healthy) (started healthy brisk)).
  - vm_compute. reflexivity.
  - reflexivity.
Defined.

End Extras.
